(** * ack-ram-authenticator: token codec, verifier, generator and mappers

    A shallow embedding of the Go sources
      - package token      (Identity, Token, generator, tokenVerifier),
      - package dynamicfile (DynamicFileMapStore, ParseMap, saveMap),
      - package controller  (Controller, syncHandler, the wildcard cache),
      - package crd         (CRDMapper),
    together with models of the Go standard-library routines those sources
    call (strings, unicode, unicode/utf8, encoding/base64, net/url, regexp,
    crypto/sha1, crypto/hmac, time formatting).  Go strings are byte strings:
    [string] with [ascii] bytes.  Go maps are [gmap]; the unspecified
    iteration order of [range] over a map is an explicit scheduling
    parameter. *)

From Stdlib Require Import ZArith NArith Ascii String List Lia Bool Permutation.
From stdpp Require Import base gmap strings list sorting.

(** stdpp marks [String.append] as [simpl never]; here literal prefixes are
    routinely pushed through appends, so let [simpl] unfold it again. *)
#[local] Arguments String.append !s1 s2 /.
#[local] Set Warnings "-clear-no-such-hyp".

(** ** Go errors

    One sum over the error values that occur in the embedded sources.
    [OpenAPIErr] stands for the value built by [newOpenAPIErr], which is
    declared outside the embedded files; [Panic] is a run-time panic (a nil
    dereference), which no caller can handle as an error value. *)
#[local] Set Warnings "-register-all".
Inductive error : Type :=
| ErrorString (msg : string)
| FormatError (message : string)
| STSError (message : string) (raiseToUser : bool)
| OpenAPIErr (status : Z) (body : option string) (cause : option error)
| ErrParsingMap (errors : list error)
| ErrNotMapped
| Panic (msg : string).
#[local] Set Warnings "register-all".

(** A Go call returning [(T, error)] with the usual "value or error". *)
Inductive result (T : Type) : Type :=
| Ok (x : T)
| Err (e : error).
Arguments Ok {T} x.
Arguments Err {T} e.

(** ** Package unicode/utf8

    Runes are [Z]; a string is decoded as [for _, c := range s] and
    [utf8.DecodeRuneInString] do it: a byte that starts no well-formed
    sequence gives [RuneError] and is one byte wide. *)
Module utf8.
#[local] Open Scope Z_scope.

Definition RuneError : Z := 0xFFFD.
Definition RuneSelf : Z := 0x80.
Definition MaxRune : Z := 0x10FFFF.
Definition surrogateMin : Z := 0xD800.
Definition surrogateMax : Z := 0xDFFF.

Definition maskx : Z := 0x3F.
Definition mask2 : Z := 0x1F.
Definition mask3 : Z := 0x0F.
Definition mask4 : Z := 0x07.
Definition tx : Z := 0x80.
Definition t2 : Z := 0xC0.
Definition t3 : Z := 0xE0.
Definition t4 : Z := 0xF0.
Definition rune1Max : Z := 0x7F.
Definition rune2Max : Z := 0x7FF.
Definition rune3Max : Z := 0xFFFF.
Definition locb : Z := 0x80.
Definition hicb : Z := 0xBF.

(** The entries of the table [first]: the size of the sequence in the low
    bits, the index into [acceptRanges] in the high ones. *)
Definition xx : Z := 0xF1.
Definition as_ : Z := 0xF0.
Definition s1 : Z := 0x02.
Definition s2 : Z := 0x13.
Definition s3 : Z := 0x03.
Definition s4 : Z := 0x23.
Definition s5 : Z := 0x34.
Definition s6 : Z := 0x04.
Definition s7 : Z := 0x44.

Definition first (b : Z) : Z :=
  if b <? 0x80 then as_
  else if b <? 0xC2 then xx
  else if b <? 0xE0 then s1
  else if b =? 0xE0 then s2
  else if b <? 0xED then s3
  else if b =? 0xED then s4
  else if b <? 0xF0 then s3
  else if b =? 0xF0 then s5
  else if b <? 0xF4 then s6
  else if b =? 0xF4 then s7
  else xx.

Definition acceptRanges (i : Z) : Z * Z :=
  if i =? 0 then (locb, hicb)
  else if i =? 1 then (0xA0, hicb)
  else if i =? 2 then (locb, 0x9F)
  else if i =? 3 then (0x90, hicb)
  else if i =? 4 then (locb, 0x8F)
  else (0, 0).

Definition ValidRune (r : Z) : bool :=
  ((0 <=? r) && (r <? surrogateMin)) || ((surrogateMax <? r) && (r <=? MaxRune)).

(** A byte of a string as a number, and the conversion [byte(x)]. *)
Definition byte (a : ascii) : Z := Z.of_N (N_of_ascii a).
Definition chr (x : Z) : ascii := ascii_of_N (Z.to_N (Z.land x 0xFF)).

Definition at_ (s : string) (i : nat) : Z :=
  match String.get i s with Some a => byte a | None => 0 end.

(** [utf8.DecodeRuneInString]: the rune and its width in bytes. *)
Definition DecodeRuneInString (s : string) : Z * nat :=
  let n := String.length s in
  if (n <? 1)%nat then (RuneError, 0%nat) else
  let b0 := at_ s 0 in
  let x := first b0 in
  if as_ <=? x then ((if x =? xx then RuneError else b0), 1%nat) else
  let sz := Z.to_nat (Z.land x 7) in
  let accept := acceptRanges (Z.shiftr x 4) in
  if (n <? sz)%nat then (RuneError, 1%nat) else
  let b1 := at_ s 1 in
  if (b1 <? accept.1) || (accept.2 <? b1) then (RuneError, 1%nat) else
  if (sz <=? 2)%nat
  then (Z.lor (Z.shiftl (Z.land b0 mask2) 6) (Z.land b1 maskx), 2%nat) else
  let b2 := at_ s 2 in
  if (b2 <? locb) || (hicb <? b2) then (RuneError, 1%nat) else
  if (sz <=? 3)%nat
  then (Z.lor (Z.lor (Z.shiftl (Z.land b0 mask3) 12)
                     (Z.shiftl (Z.land b1 maskx) 6))
              (Z.land b2 maskx), 3%nat) else
  let b3 := at_ s 3 in
  if (b3 <? locb) || (hicb <? b3) then (RuneError, 1%nat) else
  (Z.lor (Z.lor (Z.lor (Z.shiftl (Z.land b0 mask4) 18)
                       (Z.shiftl (Z.land b1 maskx) 12))
                (Z.shiftl (Z.land b2 maskx) 6))
         (Z.land b3 maskx), 4%nat).

(** The slice [s[n:]]. *)
Fixpoint skip (n : nat) (s : string) : string :=
  match n, s with
  | O, _ => s
  | S n', String _ s' => skip n' s'
  | S _, EmptyString => EmptyString
  end.

(** The runes [for _, c := range s] visits.  Every step takes at least one
    byte, so the length of the string bounds the number of steps. *)
Fixpoint range_ (steps : nat) (s : string) : list Z :=
  match steps, s with
  | S steps', String _ _ =>
      let '(c, width) := DecodeRuneInString s in
      c :: range_ steps' (skip width s)
  | _, _ => []
  end.

Definition runes (s : string) : list Z := range_ (String.length s) s.

(** [utf8.EncodeRune], as the bytes written. *)
Definition EncodeRune (r : Z) : string :=
  let three (r : Z) : string :=
    String (chr (Z.lor t3 (Z.shiftr r 12)))
      (String (chr (Z.lor tx (Z.land (Z.shiftr r 6) maskx)))
         (String (chr (Z.lor tx (Z.land r maskx))) EmptyString)) in
  if (0 <=? r) && (r <=? rune1Max) then String (chr r) EmptyString
  else if (0 <=? r) && (r <=? rune2Max) then
    String (chr (Z.lor t2 (Z.shiftr r 6)))
      (String (chr (Z.lor tx (Z.land r maskx))) EmptyString)
  else if (r <? 0) || (MaxRune <? r)
          || ((surrogateMin <=? r) && (r <=? surrogateMax))
  then three RuneError
  else if r <=? rune3Max then three r
  else
    String (chr (Z.lor t4 (Z.shiftr r 18)))
      (String (chr (Z.lor tx (Z.land (Z.shiftr r 12) maskx)))
         (String (chr (Z.lor tx (Z.land (Z.shiftr r 6) maskx)))
            (String (chr (Z.lor tx (Z.land r maskx))) EmptyString))).

End utf8.

(** ** Package unicode *)
Module unicode.
#[local] Open Scope Z_scope.

Definition MaxASCII : Z := 0x7F.
(** The delta that marks an alternating upper/lower sequence. *)
Definition UpperLower : Z := utf8.MaxRune + 1.

(** A [CaseRange] with the [LowerCase] entry of its deltas. *)
Record CaseRange : Type := R { Lo : Z; Hi : Z; Delta : Z }.

(** [unicode.CaseRanges] (Unicode 13.0.0, the tables of Go 1.16 to 1.20):
    the ranges above ASCII whose lower-case delta is not zero, in order.
    Two runes above ASCII are mapped to ASCII letters: U+0130 to [i] and
    U+212A to [k].  (Later tables add ranges for letters that Unicode has
    added since.) *)
Definition CaseRanges : list CaseRange :=
  [
    R 0xC0 0xD6 32; R 0xD8 0xDE 32; R 0x100 0x12F UpperLower;
    R 0x130 0x130 (-199); R 0x132 0x137 UpperLower; R 0x139 0x148 UpperLower;
    R 0x14A 0x177 UpperLower; R 0x178 0x178 (-121); R 0x179 0x17E UpperLower;
    R 0x181 0x181 210; R 0x182 0x185 UpperLower; R 0x186 0x186 206;
    R 0x187 0x188 UpperLower; R 0x189 0x18A 205; R 0x18B 0x18C UpperLower;
    R 0x18E 0x18E 79; R 0x18F 0x18F 202; R 0x190 0x190 203;
    R 0x191 0x192 UpperLower; R 0x193 0x193 205; R 0x194 0x194 207;
    R 0x196 0x196 211; R 0x197 0x197 209; R 0x198 0x199 UpperLower;
    R 0x19C 0x19C 211; R 0x19D 0x19D 213; R 0x19F 0x19F 214;
    R 0x1A0 0x1A5 UpperLower; R 0x1A6 0x1A6 218; R 0x1A7 0x1A8 UpperLower;
    R 0x1A9 0x1A9 218; R 0x1AC 0x1AD UpperLower; R 0x1AE 0x1AE 218;
    R 0x1AF 0x1B0 UpperLower; R 0x1B1 0x1B2 217; R 0x1B3 0x1B6 UpperLower;
    R 0x1B7 0x1B7 219; R 0x1B8 0x1B9 UpperLower; R 0x1BC 0x1BD UpperLower;
    R 0x1C4 0x1C4 2; R 0x1C5 0x1C6 UpperLower; R 0x1C7 0x1C7 2;
    R 0x1C8 0x1C9 UpperLower; R 0x1CA 0x1CA 2; R 0x1CB 0x1DC UpperLower;
    R 0x1DE 0x1EF UpperLower; R 0x1F1 0x1F1 2; R 0x1F2 0x1F5 UpperLower;
    R 0x1F6 0x1F6 (-97); R 0x1F7 0x1F7 (-56); R 0x1F8 0x21F UpperLower;
    R 0x220 0x220 (-130); R 0x222 0x233 UpperLower; R 0x23A 0x23A 10795;
    R 0x23B 0x23C UpperLower; R 0x23D 0x23D (-163); R 0x23E 0x23E 10792;
    R 0x241 0x242 UpperLower; R 0x243 0x243 (-195); R 0x244 0x244 69;
    R 0x245 0x245 71; R 0x246 0x24F UpperLower; R 0x370 0x373 UpperLower;
    R 0x376 0x377 UpperLower; R 0x37F 0x37F 116; R 0x386 0x386 38;
    R 0x388 0x38A 37; R 0x38C 0x38C 64; R 0x38E 0x38F 63; R 0x391 0x3A1 32;
    R 0x3A3 0x3AB 32; R 0x3CF 0x3CF 8; R 0x3D8 0x3EF UpperLower;
    R 0x3F4 0x3F4 (-60); R 0x3F7 0x3F8 UpperLower; R 0x3F9 0x3F9 (-7);
    R 0x3FA 0x3FB UpperLower; R 0x3FD 0x3FF (-130); R 0x400 0x40F 80;
    R 0x410 0x42F 32; R 0x460 0x481 UpperLower; R 0x48A 0x4BF UpperLower;
    R 0x4C0 0x4C0 15; R 0x4C1 0x4CE UpperLower; R 0x4D0 0x52F UpperLower;
    R 0x531 0x556 48; R 0x10A0 0x10C5 7264; R 0x10C7 0x10C7 7264;
    R 0x10CD 0x10CD 7264; R 0x13A0 0x13EF 38864; R 0x13F0 0x13F5 8;
    R 0x1C90 0x1CBA (-3008); R 0x1CBD 0x1CBF (-3008);
    R 0x1E00 0x1E95 UpperLower; R 0x1E9E 0x1E9E (-7615);
    R 0x1EA0 0x1EFF UpperLower; R 0x1F08 0x1F0F (-8); R 0x1F18 0x1F1D (-8);
    R 0x1F28 0x1F2F (-8); R 0x1F38 0x1F3F (-8); R 0x1F48 0x1F4D (-8);
    R 0x1F59 0x1F59 (-8); R 0x1F5B 0x1F5B (-8); R 0x1F5D 0x1F5D (-8);
    R 0x1F5F 0x1F5F (-8); R 0x1F68 0x1F6F (-8); R 0x1F88 0x1F8F (-8);
    R 0x1F98 0x1F9F (-8); R 0x1FA8 0x1FAF (-8); R 0x1FB8 0x1FB9 (-8);
    R 0x1FBA 0x1FBB (-74); R 0x1FBC 0x1FBC (-9); R 0x1FC8 0x1FCB (-86);
    R 0x1FCC 0x1FCC (-9); R 0x1FD8 0x1FD9 (-8); R 0x1FDA 0x1FDB (-100);
    R 0x1FE8 0x1FE9 (-8); R 0x1FEA 0x1FEB (-112); R 0x1FEC 0x1FEC (-7);
    R 0x1FF8 0x1FF9 (-128); R 0x1FFA 0x1FFB (-126); R 0x1FFC 0x1FFC (-9);
    R 0x2126 0x2126 (-7517); R 0x212A 0x212A (-8383); R 0x212B 0x212B (-8262);
    R 0x2132 0x2132 28; R 0x2160 0x216F 16; R 0x2183 0x2184 UpperLower;
    R 0x24B6 0x24CF 26; R 0x2C00 0x2C2E 48; R 0x2C60 0x2C61 UpperLower;
    R 0x2C62 0x2C62 (-10743); R 0x2C63 0x2C63 (-3814);
    R 0x2C64 0x2C64 (-10727); R 0x2C67 0x2C6C UpperLower;
    R 0x2C6D 0x2C6D (-10780); R 0x2C6E 0x2C6E (-10749);
    R 0x2C6F 0x2C6F (-10783); R 0x2C70 0x2C70 (-10782);
    R 0x2C72 0x2C73 UpperLower; R 0x2C75 0x2C76 UpperLower;
    R 0x2C7E 0x2C7F (-10815); R 0x2C80 0x2CE3 UpperLower;
    R 0x2CEB 0x2CEE UpperLower; R 0x2CF2 0x2CF3 UpperLower;
    R 0xA640 0xA66D UpperLower; R 0xA680 0xA69B UpperLower;
    R 0xA722 0xA72F UpperLower; R 0xA732 0xA76F UpperLower;
    R 0xA779 0xA77C UpperLower; R 0xA77D 0xA77D (-35332);
    R 0xA77E 0xA787 UpperLower; R 0xA78B 0xA78C UpperLower;
    R 0xA78D 0xA78D (-42280); R 0xA790 0xA793 UpperLower;
    R 0xA796 0xA7A9 UpperLower; R 0xA7AA 0xA7AA (-42308);
    R 0xA7AB 0xA7AB (-42319); R 0xA7AC 0xA7AC (-42315);
    R 0xA7AD 0xA7AD (-42305); R 0xA7AE 0xA7AE (-42308);
    R 0xA7B0 0xA7B0 (-42258); R 0xA7B1 0xA7B1 (-42282);
    R 0xA7B2 0xA7B2 (-42261); R 0xA7B3 0xA7B3 928; R 0xA7B4 0xA7BF UpperLower;
    R 0xA7C2 0xA7C3 UpperLower; R 0xA7C4 0xA7C4 (-48);
    R 0xA7C5 0xA7C5 (-42307); R 0xA7C6 0xA7C6 (-35384);
    R 0xA7C7 0xA7CA UpperLower; R 0xA7F5 0xA7F6 UpperLower;
    R 0xFF21 0xFF3A 32; R 0x10400 0x10427 40; R 0x104B0 0x104D3 40;
    R 0x10C80 0x10CB2 64; R 0x118A0 0x118BF 32; R 0x16E40 0x16E5F 32;
    R 0x1E900 0x1E921 34
  ].

(** [unicode.to] for [LowerCase].  The library searches the sorted table
    by bisection; the ranges are disjoint, so a scan finds the same one. *)
Fixpoint to (r : Z) (caseRange : list CaseRange) : Z :=
  match caseRange with
  | [] => r
  | cr :: rest =>
      if (Lo cr <=? r) && (r <=? Hi cr) then
        if utf8.MaxRune <? Delta cr
        then Lo cr + Z.lor (Z.ldiff (r - Lo cr) 1) 1
        else r + Delta cr
      else to r rest
  end.

Definition ToLower (r : Z) : Z :=
  if r <=? MaxASCII then
    if (65 <=? r) && (r <=? 90) then r + 32 else r
  else to r CaseRanges.

(** A rune is settled when lower-casing gives a valid rune that lower-casing
    leaves alone; [all_from f n r] checks [f] on the [n] runes from [r] on. *)
Definition settled (r : Z) : bool :=
  utf8.ValidRune (ToLower r) && (ToLower (ToLower r) =? ToLower r).

Fixpoint all_from (f : Z -> bool) (n : nat) (r : Z) : bool :=
  match n with
  | O => true
  | S n' => if f r then all_from f n' (r + 1) else false
  end.

End unicode.

(** ** Package strings *)
Module strings.

Definition byte_eqb (a b : ascii) : bool := Ascii.eqb a b.

Fixpoint all (p : ascii -> bool) (s : string) : bool :=
  match s with
  | EmptyString => true
  | String a s' => p a && all p s'
  end.

Fixpoint any (p : ascii -> bool) (s : string) : bool :=
  match s with
  | EmptyString => false
  | String a s' => p a || any p s'
  end.

(** [strings.ContainsAny(s, chars)] *)
Definition ContainsAny (s chars : string) : bool :=
  any (fun a => any (byte_eqb a) chars) s.

(** [strings.Contains(s, sep)] for a one-byte separator. *)
Definition ContainsByte (s : string) (c : ascii) : bool := any (byte_eqb c) s.

(** [strings.Count(s, sep)] for a one-byte separator. *)
Fixpoint CountByte (s : string) (c : ascii) : nat :=
  match s with
  | EmptyString => 0
  | String a s' => (if byte_eqb a c then 1 else 0) + CountByte s' c
  end.

Fixpoint HasPrefix (s prefix : string) {struct prefix} : bool :=
  match prefix, s with
  | EmptyString, _ => true
  | String p prefix', String a s' => byte_eqb a p && HasPrefix s' prefix'
  | String _ _, EmptyString => false
  end.

Fixpoint drop (n : nat) (s : string) : string :=
  match n, s with
  | O, _ => s
  | S n', String _ s' => drop n' s'
  | S _, EmptyString => EmptyString
  end.

Definition TrimPrefix (s prefix : string) : string :=
  if HasPrefix s prefix then drop (String.length prefix) s else s.

Fixpoint last_byte (s : string) : option ascii :=
  match s with
  | EmptyString => None
  | String a EmptyString => Some a
  | String _ s' => last_byte s'
  end.

(** [strings.HasSuffix(s, suffix)] for a one-byte suffix. *)
Definition HasSuffixByte (s : string) (c : ascii) : bool :=
  match last_byte s with
  | Some a => byte_eqb a c
  | None => false
  end.

Fixpoint drop_last (s : string) : string :=
  match s with
  | EmptyString => EmptyString
  | String a EmptyString => EmptyString
  | String a s' => String a (drop_last s')
  end.

(** [strings.Cut(s, sep)] for a one-byte separator: the text before the
    first separator, the text after it, and whether it was found. *)
Fixpoint Cut (s : string) (sep : ascii) : string * string * bool :=
  match s with
  | EmptyString => (EmptyString, EmptyString, false)
  | String a s' =>
      if byte_eqb a sep then (EmptyString, s', true)
      else let '(before, after, found) := Cut s' sep in
           (String a before, after, found)
  end.

(** Cutting at the last occurrence ([strings.LastIndex] and slicing). *)
Fixpoint CutLast (s : string) (sep : ascii) : option (string * string) :=
  match s with
  | EmptyString => None
  | String a s' =>
      match CutLast s' sep with
      | Some (before, after) => Some (String a before, after)
      | None => if byte_eqb a sep then Some (EmptyString, s') else None
      end
  end.

(** [strings.Split(s, sep)] for a one-byte separator; never empty. *)
Fixpoint Split (s : string) (sep : ascii) : list string :=
  match s with
  | EmptyString => [EmptyString]
  | String a s' =>
      if byte_eqb a sep then EmptyString :: Split s' sep
      else match Split s' sep with
           | x :: r => String a x :: r
           | [] => [String a EmptyString]
           end
  end.

Definition lower_byte (a : ascii) : ascii :=
  let n := N_of_ascii a in
  if ((65 <=? n) && (n <=? 90))%N then ascii_of_N (n + 32) else a.

(** [strings.Map]: the runes of [s] are mapped one by one and written with
    [WriteRune]; a negative result drops the rune.  An ill-formed byte is
    visited as [utf8.RuneError].  (The library copies the prefix that the
    mapping leaves alone instead of writing it again; a well-formed sequence
    is written back byte for byte, so the result is the same.) *)
Definition Map (mapping : Z -> Z) (s : string) : string :=
  foldr (fun c out =>
           let r := mapping c in
           if (0 <=? r)%Z then utf8.EncodeRune r +:+ out else out)
        EmptyString (utf8.runes s).

Fixpoint lower_bytes (s : string) : string :=
  match s with
  | EmptyString => EmptyString
  | String a s' => String (lower_byte a) (lower_bytes s')
  end.

(** [strings.ToLower]: a string of ASCII bytes is lower-cased byte by byte
    (and returned as it is when it has no upper-case letter); any other
    string goes through [Map] with [unicode.ToLower]. *)
Definition ToLower (s : string) : string :=
  let isASCII := all (fun c => (utf8.byte c <? utf8.RuneSelf)%Z) s in
  let hasUpper :=
    any (fun c => (65 <=? N_of_ascii c)%N && (N_of_ascii c <=? 90)%N) s in
  if isASCII then (if hasUpper then lower_bytes s else s)
  else Map unicode.ToLower s.

(** [strings.Join] *)
Fixpoint Join (l : list string) (sep : string) : string :=
  match l with
  | [] => EmptyString
  | [x] => x
  | x :: r => x +:+ sep +:+ Join r sep
  end.

End strings.

(** The double-quote byte, for building quoted messages. *)
Definition dquote : ascii := ascii_of_nat 34.

(** The [Error()] method of the error values. *)
Fixpoint Error (e : error) : string :=
  match e with
  | ErrorString m => m
  | FormatError m => "input token was not properly formatted: " +:+ m
  | STSError m _ => "sts getCallerIdentity failed: " +:+ m
  | OpenAPIErr _ _ _ => "openapi error"
  | ErrParsingMap errs =>
      "error parsing dynamic file: ["
        +:+ strings.Join (List.map Error errs) " " +:+ "]"
  | ErrNotMapped => "ARN is not mapped"
  | Panic m => "panic: " +:+ m
  end.

(** ** Package encoding/base64: [StdEncoding]

    The standard alphabet of RFC 4648 with [=] padding.  Decoding follows
    Go's non-strict decoder: carriage returns and line feeds are skipped,
    every quantum has four characters, padding is only accepted at the end,
    and the unused low bits of a padded quantum are not checked. *)
Module base64.

Definition encodeStd : string :=
  "ABCDEFGHIJKLMNOPQRSTUVWXYZabcdefghijklmnopqrstuvwxyz0123456789+/".

Definition padChar : ascii := "="%char.

(** The character of a six-bit value. *)
Definition enc (n : N) : ascii :=
  match String.get (N.to_nat n) encodeStd with
  | Some a => a
  | None => padChar
  end.

Fixpoint index_from (i : N) (a : ascii) (s : string) : option N :=
  match s with
  | EmptyString => None
  | String b s' => if Ascii.eqb a b then Some i else index_from (i + 1) a s'
  end.

(** The six-bit value of a character of the alphabet ([decodeMap]). *)
Definition dec (a : ascii) : option N := index_from 0 a encodeStd.

Definition byte (n : N) : ascii := ascii_of_N (n mod 256).

Fixpoint EncodeToString (src : string) : string :=
  match src with
  | EmptyString => EmptyString
  | String a EmptyString =>
      let x := N_of_ascii a in
      String (enc (x / 4)) (String (enc ((x mod 4) * 16))
        (String padChar (String padChar EmptyString)))
  | String a (String b EmptyString) =>
      let x := N_of_ascii a in
      let y := N_of_ascii b in
      String (enc (x / 4)) (String (enc ((x mod 4) * 16 + y / 16))
        (String (enc ((y mod 16) * 4)) (String padChar EmptyString)))
  | String a (String b (String c rest)) =>
      let x := N_of_ascii a in
      let y := N_of_ascii b in
      let z := N_of_ascii c in
      String (enc (x / 4)) (String (enc ((x mod 4) * 16 + y / 16))
        (String (enc ((y mod 16) * 4 + z / 64)) (String (enc (z mod 64))
          (EncodeToString rest))))
  end.

Definition is_newline (a : ascii) : bool :=
  Ascii.eqb a "010"%char || Ascii.eqb a "013"%char.

Fixpoint strip_newlines (s : string) : string :=
  match s with
  | EmptyString => EmptyString
  | String a s' =>
      if is_newline a then strip_newlines s' else String a (strip_newlines s')
  end.

Definition CorruptInputError : error := ErrorString "illegal base64 data".

(** Decoding of the text with the line breaks already skipped. *)
Fixpoint decodeQuanta (s : string) : result string :=
  match s with
  | EmptyString => Ok EmptyString
  | String c0 (String c1 (String c2 (String c3 rest))) =>
      match dec c0, dec c1 with
      | Some v0, Some v1 =>
          let b0 := byte (v0 * 4 + v1 / 16) in
          match dec c2, dec c3 with
          | Some v2, Some v3 =>
              match decodeQuanta rest with
              | Ok out =>
                  Ok (String b0 (String (byte ((v1 mod 16) * 16 + v2 / 4))
                        (String (byte ((v2 mod 4) * 64 + v3)) out)))
              | Err e => Err e
              end
          | Some v2, None =>
              if Ascii.eqb c3 padChar && String.eqb rest EmptyString
              then Ok (String b0 (String (byte ((v1 mod 16) * 16 + v2 / 4))
                         EmptyString))
              else Err CorruptInputError
          | None, _ =>
              if Ascii.eqb c2 padChar && Ascii.eqb c3 padChar
                 && String.eqb rest EmptyString
              then Ok (String b0 EmptyString)
              else Err CorruptInputError
          end
      | _, _ => Err CorruptInputError
      end
  | _ => Err CorruptInputError
  end.

Definition DecodeString (s : string) : result string :=
  decodeQuanta (strip_newlines s).

End base64.

(** ** Package net/url

    A model of the parts of net/url the sources use: [QueryEscape],
    [ParseQuery], [Values], [Parse] and [URL.Query].  It follows the
    library as of Go 1.17 and later (a [;] in a query is an error, not a
    separator; control characters are rejected by [Parse]).  Error texts are
    abbreviated. *)
Module url.

Definition in_range (lo hi : N) (a : ascii) : bool :=
  let n := N_of_ascii a in ((lo <=? n) && (n <=? hi))%N.

Definition isalpha (a : ascii) : bool := in_range 97 122 a || in_range 65 90 a.
Definition isdigit (a : ascii) : bool := in_range 48 57 a.
Definition isalnum (a : ascii) : bool := isalpha a || isdigit a.
Definition one_of (chars : string) (a : ascii) : bool :=
  strings.any (Ascii.eqb a) chars.

Definition ishex (a : ascii) : bool :=
  isdigit a || in_range 97 102 a || in_range 65 70 a.

Definition unhex (a : ascii) : N :=
  let n := N_of_ascii a in
  if isdigit a then n - 48
  else if in_range 97 102 a then n - 97 + 10
  else if in_range 65 70 a then n - 65 + 10
  else 0.

Definition upperhex (n : N) : ascii :=
  match String.get (N.to_nat n) "0123456789ABCDEF" with
  | Some a => a
  | None => "0"%char
  end.

Inductive encoding : Type :=
| encodePath | encodePathSegment | encodeHost | encodeZone
| encodeUserPassword | encodeQueryComponent | encodeFragment.

Definition is_host_mode (mode : encoding) : bool :=
  match mode with encodeHost | encodeZone => true | _ => false end.

(** [shouldEscape(c, mode)] *)
Definition shouldEscape (c : ascii) (mode : encoding) : bool :=
  if isalnum c then false
  else if is_host_mode mode
          && one_of ("!$&'()*+,;=:[]<>" +:+ String dquote EmptyString) c
  then false
  else if one_of "-_.~" c then false
  else if one_of "$&+,/:;=?@" c then
    match mode with
    | encodePath => Ascii.eqb c "?"
    | encodePathSegment => one_of "/;,?" c
    | encodeUserPassword => one_of "@/?:" c
    | encodeQueryComponent => true
    | encodeFragment => false
    | encodeHost | encodeZone => true
    end
  else match mode with
       | encodeFragment => negb (one_of "!()*" c)
       | _ => true
       end.

Definition is_query_mode (mode : encoding) : bool :=
  match mode with encodeQueryComponent => true | _ => false end.

(** [escape(s, mode)] *)
Fixpoint escape (s : string) (mode : encoding) : string :=
  match s with
  | EmptyString => EmptyString
  | String c s' =>
      if Ascii.eqb c " " && is_query_mode mode then String "+" (escape s' mode)
      else if shouldEscape c mode then
        let n := N_of_ascii c in
        String "%" (String (upperhex (n / 16)) (String (upperhex (n mod 16))
          (escape s' mode)))
      else String c (escape s' mode)
  end.

Definition EscapeError : error := ErrorString "invalid URL escape".
Definition InvalidHostError : error :=
  ErrorString "invalid character in host name".

(** [unescape(s, mode)]: the validating pass and the decoding pass of the
    library in one traversal; any malformed escape fails the whole call. *)
Fixpoint unescape (s : string) (mode : encoding) : result string :=
  match s with
  | EmptyString => Ok EmptyString
  | String c s' =>
      if Ascii.eqb c "%" then
        match s' with
        | String h1 (String h2 rest) =>
            if ishex h1 && ishex h2 then
              let v := ascii_of_N (unhex h1 * 16 + unhex h2) in
              let is25 := Ascii.eqb h1 "2" && Ascii.eqb h2 "5" in
              let bad :=
                match mode with
                | encodeHost => (unhex h1 <? 8)%N && negb is25
                | encodeZone =>
                    negb is25 && negb (Ascii.eqb v " ")
                    && shouldEscape v encodeHost
                | _ => false
                end in
              if bad then Err EscapeError
              else match unescape rest mode with
                   | Ok t => Ok (String v t)
                   | Err e => Err e
                   end
            else Err EscapeError
        | _ => Err EscapeError
        end
      else if Ascii.eqb c "+" then
        match unescape s' mode with
        | Ok t => Ok (String (if is_query_mode mode then " "%char else c) t)
        | Err e => Err e
        end
      else if is_host_mode mode && (N_of_ascii c <? 128)%N
              && shouldEscape c encodeHost
      then Err InvalidHostError
      else match unescape s' mode with
           | Ok t => Ok (String c t)
           | Err e => Err e
           end
  end.

Definition QueryEscape (s : string) : string := escape s encodeQueryComponent.
Definition QueryUnescape (s : string) : result string :=
  unescape s encodeQueryComponent.

(** *** Values *)

Abbreviation Values := (gmap string (list string)).

(** [Values.Get]: the first value of the key, or the empty string. *)
Definition Get (v : Values) (key : string) : string :=
  match v !! key with
  | Some (x :: _) => x
  | _ => EmptyString
  end.

(** [Values.Set]: replaces any existing values. *)
Definition Set_ (v : Values) (key value : string) : Values :=
  <[key := [value]]> v.

(** [m[key] = append(m[key], value)] *)
Definition Add (v : Values) (key value : string) : Values :=
  <[key := default [] (v !! key) ++ [value]]> v.

Definition semicolonError : error :=
  ErrorString "invalid semicolon separator in query".

(** One turn of the loop of [parseQuery] on the text between two [&]. *)
Definition parsePair (st : Values * option error) (seg : string)
  : Values * option error :=
  let '(m, err) := st in
  if strings.ContainsByte seg ";" then (m, Some semicolonError)
  else if String.eqb seg EmptyString then (m, err)
  else
    let '(key, value, _) := strings.Cut seg "=" in
    let first e := match err with Some _ => err | None => Some e end in
    match QueryUnescape key with
    | Err e => (m, first e)
    | Ok key1 =>
        match QueryUnescape value with
        | Err e => (m, first e)
        | Ok value1 => (Add m key1 value1, err)
        end
    end.

(** [ParseQuery]: always returns the map of the pairs that could be
    decoded, with the first error found (if any). *)
Definition ParseQuery (query : string) : Values * option error :=
  foldl parsePair (∅, None) (strings.Split query "&").

(** [Values.Encode]: URL-encoded form, sorted by key. *)
Definition encodeKey (v : Values) (k : string) : list string :=
  (fun x => QueryEscape k +:+ "=" +:+ QueryEscape x) <$> default [] (v !! k).

Definition Encode (v : Values) : string :=
  strings.Join
    (concat (encodeKey v <$> merge_sort String.le (map_to_list v).*1)) "&".

(** *** URL *)

Record Userinfo : Type := {
  username : string;
  password : option string
}.

Record URL : Type := {
  Scheme : string;
  Opaque : string;
  User : option Userinfo;
  Host : string;
  Path : string;
  ForceQuery : bool;
  RawQuery : string;
  Fragment : string
}.

Definition isCTL (a : ascii) : bool :=
  let n := N_of_ascii a in ((n <? 32) || (n =? 127))%N.

Definition stringContainsCTLByte (s : string) : bool := strings.any isCTL s.

Inductive schemeScan : Type :=
| NoScheme
| MissingScheme
| HasScheme (scheme rest : string).

(** [getScheme]; [at0] tells whether the scan is at the first byte. *)
Fixpoint getScheme (at0 : bool) (s : string) : schemeScan :=
  match s with
  | EmptyString => NoScheme
  | String c s' =>
      let continue_ :=
        match getScheme false s' with
        | HasScheme sch rest => HasScheme (String c sch) rest
        | other => other
        end in
      if isalpha c then continue_
      else if isdigit c || one_of "+-." c then
        if at0 then NoScheme else continue_
      else if Ascii.eqb c ":" then
        if at0 then MissingScheme else HasScheme EmptyString s'
      else NoScheme
  end.

Definition validOptionalPort (port : string) : bool :=
  match port with
  | EmptyString => true
  | String c digits => Ascii.eqb c ":" && strings.all isdigit digits
  end.

Definition validUserinfo (s : string) : bool :=
  strings.all (fun c => isalnum c || one_of "-._:~!$&'()*+,;=%@" c) s.

(** Splits [s] at the first occurrence of ["%25"]. *)
Fixpoint cutZone (s : string) : option (string * string) :=
  match s with
  | EmptyString => None
  | String c s' =>
      if strings.HasPrefix s "%25" then Some (EmptyString, s)
      else match cutZone s' with
           | Some (before, after) => Some (String c before, after)
           | None => None
           end
  end.

Definition parseHost (host : string) : result string :=
  if strings.HasPrefix host "[" then
    match strings.CutLast host "]" with
    | None => Err (ErrorString "missing ']' in host")
    | Some (inner, colonPort) =>
        if negb (validOptionalPort colonPort)
        then Err (ErrorString "invalid port after host")
        else
          match cutZone inner with
          | Some (host1, zone) =>
              match unescape host1 encodeHost,
                    unescape zone encodeZone,
                    unescape (String "]" colonPort) encodeHost with
              | Ok h1, Ok h2, Ok h3 => Ok (h1 +:+ h2 +:+ h3)
              | Err e, _, _ | _, Err e, _ | _, _, Err e => Err e
              end
          | None => unescape host encodeHost
          end
    end
  else
    match strings.CutLast host ":" with
    | Some (_, port) =>
        if negb (validOptionalPort (String ":" port))
        then Err (ErrorString "invalid port after host")
        else unescape host encodeHost
    | None => unescape host encodeHost
    end.

Definition parseAuthority (authority : string)
  : result (option Userinfo * string) :=
  match strings.CutLast authority "@" with
  | None =>
      match parseHost authority with
      | Ok h => Ok (None, h)
      | Err e => Err e
      end
  | Some (userinfo, hostpart) =>
      match parseHost hostpart with
      | Err e => Err e
      | Ok h =>
          if negb (validUserinfo userinfo)
          then Err (ErrorString "net/url: invalid userinfo")
          else
            let '(name, pass, hasColon) := strings.Cut userinfo ":" in
            match unescape name encodeUserPassword with
            | Err e => Err e
            | Ok name1 =>
                if hasColon then
                  match unescape pass encodeUserPassword with
                  | Err e => Err e
                  | Ok pass1 =>
                      Ok (Some {| username := name1;
                                  password := Some pass1 |}, h)
                  end
                else Ok (Some {| username := name1; password := None |}, h)
            end
      end
  end.

(** [parse(rawURL, viaRequest = false)] *)
Definition parse (rawURL : string) : result URL :=
  if stringContainsCTLByte rawURL
  then Err (ErrorString "net/url: invalid control character in URL")
  else if String.eqb rawURL "*"
  then Ok {| Scheme := ""; Opaque := ""; User := None; Host := "";
             Path := "*"; ForceQuery := false; RawQuery := "";
             Fragment := "" |}
  else
    match getScheme true rawURL with
    | MissingScheme => Err (ErrorString "missing protocol scheme")
    | scan =>
        let '(scheme0, rest0) :=
          match scan with
          | HasScheme sch r => (sch, r)
          | _ => (EmptyString, rawURL)
          end in
        let scheme := strings.ToLower scheme0 in
        let '(rest1, rawQuery, forceQuery) :=
          if strings.HasSuffixByte rest0 "?"
             && Nat.eqb (strings.CountByte rest0 "?") 1
          then (strings.drop_last rest0, EmptyString, true)
          else let '(r, q, _) := strings.Cut rest0 "?" in (r, q, false) in
        if negb (strings.HasPrefix rest1 "/")
           && negb (String.eqb scheme EmptyString)
        then Ok {| Scheme := scheme; Opaque := rest1; User := None;
                   Host := ""; Path := ""; ForceQuery := forceQuery;
                   RawQuery := rawQuery; Fragment := "" |}
        else if negb (strings.HasPrefix rest1 "/")
                && strings.ContainsByte (strings.Cut rest1 "/").1.1 ":"
        then Err (ErrorString
                    "first path segment in URL cannot contain colon")
        else
          let withAuthority :=
            (negb (String.eqb scheme EmptyString)
             || negb (strings.HasPrefix rest1 "///"))
            && strings.HasPrefix rest1 "//" in
          let '(authority, rest2) :=
            if withAuthority then
              let '(a, r, found) := strings.Cut (strings.drop 2 rest1) "/" in
              (a, if found then String "/" r else EmptyString)
            else (EmptyString, rest1) in
          match (if withAuthority then parseAuthority authority
                 else Ok (None, EmptyString)) with
          | Err e => Err e
          | Ok (user, host) =>
              match unescape rest2 encodePath with
              | Err e => Err e
              | Ok path =>
                  Ok {| Scheme := scheme; Opaque := ""; User := user;
                        Host := host; Path := path;
                        ForceQuery := forceQuery; RawQuery := rawQuery;
                        Fragment := "" |}
              end
          end
    end.

Definition setFragment (u : URL) (frag : string) : URL :=
  {| Scheme := Scheme u; Opaque := Opaque u; User := User u;
     Host := Host u; Path := Path u; ForceQuery := ForceQuery u;
     RawQuery := RawQuery u; Fragment := frag |}.

(** [url.Parse] *)
Definition Parse (rawURL : string) : result URL :=
  let '(u, frag, _) := strings.Cut rawURL "#" in
  match parse u with
  | Err e => Err e
  | Ok parsed =>
      if String.eqb frag EmptyString then Ok parsed
      else match unescape frag encodeFragment with
           | Err e => Err e
           | Ok f => Ok (setFragment parsed f)
           end
  end.

(** [URL.Query]: parses [RawQuery] and drops the error. *)
Definition Query (u : URL) : Values := (ParseQuery (RawQuery u)).1.

Definition setHost (u : URL) (host : string) : URL :=
  {| Scheme := Scheme u; Opaque := Opaque u; User := User u;
     Host := host; Path := Path u; ForceQuery := ForceQuery u;
     RawQuery := RawQuery u; Fragment := Fragment u |}.

End url.

(** ** Package regexp

    Regular expressions as syntax trees, matched with Brzozowski
    derivatives.  [MatchString] here is the match of a pattern anchored at
    both ends ([^...$], where Go's [$] only matches at the end of the text). *)
Module regexp.

Inductive regex : Type :=
| Void
| Eps
| Class (ranges : list (N * N))
| Cat (r1 r2 : regex)
| Alt (r1 r2 : regex)
| Star (r : regex).

Definition Lit (a : ascii) : regex := Class [(N_of_ascii a, N_of_ascii a)].
Definition Plus (r : regex) : regex := Cat r (Star r).
Definition Opt (r : regex) : regex := Alt r Eps.

(** The concatenation of the bytes of a literal text. *)
Fixpoint Str (s : string) : regex :=
  match s with
  | EmptyString => Eps
  | String a s' => Cat (Lit a) (Str s')
  end.

Fixpoint nullable (r : regex) : bool :=
  match r with
  | Void => false
  | Eps => true
  | Class _ => false
  | Cat r1 r2 => nullable r1 && nullable r2
  | Alt r1 r2 => nullable r1 || nullable r2
  | Star _ => true
  end.

Definition in_class (ranges : list (N * N)) (a : ascii) : bool :=
  existsb (fun '(lo, hi) => (lo <=? N_of_ascii a)%N && (N_of_ascii a <=? hi)%N)
          ranges.

Fixpoint deriv (a : ascii) (r : regex) : regex :=
  match r with
  | Void | Eps => Void
  | Class ranges => if in_class ranges a then Eps else Void
  | Cat r1 r2 =>
      if nullable r1 then Alt (Cat (deriv a r1) r2) (deriv a r2)
      else Cat (deriv a r1) r2
  | Alt r1 r2 => Alt (deriv a r1) (deriv a r2)
  | Star r1 => Cat (deriv a r1) (Star r1)
  end.

Fixpoint MatchString (r : regex) (s : string) : bool :=
  match s with
  | EmptyString => nullable r
  | String a s' => MatchString (deriv a r) s'
  end.

End regexp.

(** ** Packages crypto/sha1 and crypto/hmac

    Bytes are [ascii], 32-bit words are [N] below [2^32]. *)
Module sha1.

Definition mask32 (x : N) : N := N.land x 4294967295.
Definition add32 (x y : N) : N := mask32 (x + y).
Definition rotl (k : N) (x : N) : N :=
  mask32 (N.lor (N.shiftl x k) (N.shiftr x (32 - k))).
Definition not32 (x : N) : N := N.lxor x 4294967295.

Fixpoint bytes_of (s : string) : list N :=
  match s with
  | EmptyString => []
  | String a s' => N_of_ascii a :: bytes_of s'
  end.

Fixpoint string_of (l : list N) : string :=
  match l with
  | [] => EmptyString
  | x :: r => String (ascii_of_N x) (string_of r)
  end.

(** Big-endian bytes of a value, [n] of them. *)
Fixpoint be_bytes (n : nat) (x : N) : list N :=
  match n with
  | O => []
  | S n' => be_bytes n' (N.shiftr x 8) ++ [N.land x 255]
  end.

(** The message followed by [0x80], zeros up to 56 modulo 64, and the
    bit length on eight bytes. *)
Definition pad (msg : list N) : list N :=
  let len := length msg in
  let zeros := (55 + 64 - len mod 64) mod 64 in
  msg ++ [128%N] ++ replicate zeros 0%N
      ++ be_bytes 8 (8 * N.of_nat len).

Fixpoint words (fuel : nat) (l : list N) : list N :=
  match fuel, l with
  | S f, b0 :: b1 :: b2 :: b3 :: r =>
      (b0 * 16777216 + b1 * 65536 + b2 * 256 + b3)%N :: words f r
  | _, _ => []
  end.

(** The message schedule, most recent word first. *)
Fixpoint extend (n : nat) (w : list N) : list N :=
  match n with
  | O => w
  | S n' =>
      let x := N.lxor (N.lxor (nth 2 w 0%N) (nth 7 w 0%N))
                      (N.lxor (nth 13 w 0%N) (nth 15 w 0%N)) in
      extend n' (rotl 1 x :: w)
  end.

Definition state : Type := N * N * N * N * N.

Definition round (t : nat) (st : state) (wt : N) : state :=
  let '(a, b, c, d, e) := st in
  let '(f, k) :=
    if (t <? 20)%nat then
      (N.lor (N.land b c) (N.land (not32 b) d), 1518500249%N)
    else if (t <? 40)%nat then
      (N.lxor (N.lxor b c) d, 1859775393%N)
    else if (t <? 60)%nat then
      (N.lor (N.lor (N.land b c) (N.land b d)) (N.land c d), 2400959708%N)
    else (N.lxor (N.lxor b c) d, 3395469782%N) in
  let tmp := add32 (add32 (add32 (add32 (rotl 5 a) f) e) k) wt in
  (tmp, a, rotl 30 b, c, d).

Fixpoint rounds (t : nat) (st : state) (ws : list N) : state :=
  match ws with
  | [] => st
  | wt :: r => rounds (S t) (round t st wt) r
  end.

Definition block (st : state) (blk : list N) : state :=
  let w := rev (extend 64 (rev (words 16 blk))) in
  let '(a, b, c, d, e) := rounds 0 st w in
  let '(h0, h1, h2, h3, h4) := st in
  (add32 h0 a, add32 h1 b, add32 h2 c, add32 h3 d, add32 h4 e).

Fixpoint blocks (fuel : nat) (st : state) (l : list N) : state :=
  match fuel, l with
  | S f, _ :: _ => blocks f (block st (take 64 l)) (drop 64 l)
  | _, _ => st
  end.

Definition init : state :=
  (1732584193, 4023233417, 2562383102, 271733878, 3285377520)%N.

(** [sha1.Sum]: the twenty bytes of the digest. *)
Definition Sum (msg : string) : string :=
  let padded := pad (bytes_of msg) in
  let '(h0, h1, h2, h3, h4) := blocks (length padded) init padded in
  string_of (be_bytes 4 h0 ++ be_bytes 4 h1 ++ be_bytes 4 h2
             ++ be_bytes 4 h3 ++ be_bytes 4 h4).

End sha1.

Module hmac.

Definition xor_pad (c : N) (key : list N) : list N :=
  (fun b => N.lxor b c) <$> key.

(** [hmac.New(sha1.New, key)], [Write(msg)], [Sum(nil)] *)
Definition SumSHA1 (key msg : string) : string :=
  let k0 := if (64 <? String.length key)%nat then sha1.Sum key else key in
  let k := sha1.bytes_of k0 ++ replicate (64 - String.length k0) 0%N in
  let inner := sha1.Sum (sha1.string_of (xor_pad 54 k) +:+ msg) in
  sha1.Sum (sha1.string_of (xor_pad 92 k) +:+ inner).

End hmac.

(** ** Decimal and time formatting *)
Module strconv.

Definition digit (n : N) : ascii := ascii_of_N (48 + n mod 10).

Fixpoint digits (fuel : nat) (n : N) (acc : string) : string :=
  match fuel with
  | O => acc
  | S f =>
      let acc' := String (digit n) acc in
      if (n <? 10)%N then acc' else digits f (n / 10) acc'
  end.

(** Decimal digits of a natural number. *)
Definition FormatN (n : N) : string :=
  digits (S (N.to_nat (N.log2 n))) n EmptyString.

(** [strconv.Itoa] *)
Definition Itoa (z : Z) : string :=
  if (z <? 0)%Z then String "-" (FormatN (Z.to_N (- z)))
  else FormatN (Z.to_N z).

Fixpoint parseDigits (s : string) (acc : N) : option N :=
  match s with
  | EmptyString => Some acc
  | String c s' =>
      let n := N_of_ascii c in
      if ((48 <=? n) && (n <=? 57))%N
      then parseDigits s' (acc * 10 + (n - 48))
      else None
  end.

(** [strconv.Atoi] into a 64-bit [int]. *)
Definition Atoi (s : string) : result Z :=
  let '(neg, body) :=
    match s with
    | String c r =>
        if Ascii.eqb c "-" then (true, r)
        else if Ascii.eqb c "+" then (false, r)
        else (false, s)
    | EmptyString => (false, s)
    end in
  match body, parseDigits body 0 with
  | String _ _, Some n =>
      let z := (if neg then - Z.of_N n else Z.of_N n)%Z in
      if ((z <? - 9223372036854775808) || (9223372036854775807 <? z))%Z
      then Err (ErrorString "strconv.Atoi: value out of range")
      else Ok z
  | _, _ => Err (ErrorString "strconv.Atoi: invalid syntax")
  end.

Fixpoint zeros (n : nat) : string :=
  match n with O => EmptyString | S n' => String "0" (zeros n') end.

(** A number zero-padded to [width] digits, with a leading [-] when it is
    negative (the library's [appendInt]). *)
Definition padInt (z : Z) (width : nat) : string :=
  let d := FormatN (Z.to_N (Z.abs z)) in
  (if (z <? 0)%Z then "-" else "")
    +:+ zeros (width - String.length d) +:+ d.

End strconv.

Module time.

(** An instant: nanoseconds since the Unix epoch. *)
Definition Time : Type := Z.
(** [time.Duration]: nanoseconds. *)
Definition Duration : Type := Z.

Definition Second : Duration := 1000000000%Z.
Definition Minute : Duration := (60 * Second)%Z.

(** [Time.Add] *)
Definition Add (t : Time) (d : Duration) : Time := (t + d)%Z.

(** Year, month and day of a day count since 1970-01-01 (proleptic
    Gregorian calendar). *)
Definition civil (days : Z) : Z * Z * Z :=
  let z := (days + 719468)%Z in
  let era := (z / 146097)%Z in
  let doe := (z - era * 146097)%Z in
  let yoe := ((doe - doe / 1460 + doe / 36524 - doe / 146096) / 365)%Z in
  let doy := (doe - (365 * yoe + yoe / 4 - yoe / 100))%Z in
  let mp := ((5 * doy + 2) / 153)%Z in
  let d := (doy - (153 * mp + 2) / 5 + 1)%Z in
  let m := (if (mp <? 10)%Z then mp + 3 else mp - 9)%Z in
  let y := (yoe + era * 400 + (if (m <=? 2)%Z then 1 else 0))%Z in
  (y, m, d).

(** [t.UTC().Format("2006-01-02T15:04:05Z")] *)
Definition FormatUTC (t : Time) : string :=
  let sec := (t / 1000000000)%Z in
  let '(y, m, d) := civil (sec / 86400) in
  let sod := (sec mod 86400)%Z in
  strconv.padInt y 4 +:+ "-" +:+ strconv.padInt m 2 +:+ "-"
    +:+ strconv.padInt d 2 +:+ "T" +:+ strconv.padInt (sod / 3600) 2
    +:+ ":" +:+ strconv.padInt (sod mod 3600 / 60) 2
    +:+ ":" +:+ strconv.padInt (sod mod 60) 2 +:+ "Z".

End time.

(** ** Package uuid (github.com/satori/go.uuid) *)
Module uuid.

Definition hexdigit (n : N) : ascii :=
  match String.get (N.to_nat n) "0123456789abcdef" with
  | Some a => a
  | None => "0"%char
  end.

(** [hex.EncodeToString] *)
Fixpoint hex (s : string) : string :=
  match s with
  | EmptyString => EmptyString
  | String a s' =>
      let n := N_of_ascii a in
      String (hexdigit (n / 16)) (String (hexdigit (n mod 16)) (hex s'))
  end.

Definition set_byte (i : nat) (f : N -> N) (s : string) : string :=
  String.substring 0 i s
    +:+ match String.get i s with
        | Some a => String (ascii_of_N (f (N_of_ascii a))) EmptyString
        | None => EmptyString
        end
    +:+ strings.drop (S i) s.

(** [NewV4]: sixteen random bytes with the version and variant bits set. *)
Definition NewV4 (random : string) : string :=
  set_byte 8 (fun b => N.lor (N.land b 63) 128)
    (set_byte 6 (fun b => N.lor (N.land b 15) 64)
       (String.substring 0 16 random)).

(** [UUID.String]: the canonical 8-4-4-4-12 form. *)
Definition String_ (u : string) : string :=
  hex (String.substring 0 4 u) +:+ "-" +:+ hex (String.substring 4 2 u)
    +:+ "-" +:+ hex (String.substring 6 2 u)
    +:+ "-" +:+ hex (String.substring 8 2 u)
    +:+ "-" +:+ hex (String.substring 10 6 u).

End uuid.

(** ** Package token *)
Module token.

(** Identity is returned on successful [Verify] results. *)
Record Identity : Type := {
  ARN : string;
  CanonicalARN : string;
  AccountID : string;
  UserID : string;
  SessionName : string;
  AccessKeyID : string
}.

Definition presignedURLExpiration : time.Duration := (15 * time.Minute)%Z.
Definition v1Prefix : string := "k8s-ack-v1.".
Definition v2Prefix : string := "k8s-ack-v2.".
Definition maxTokenLenBytes : nat := 1024 * 4.
Definition stsSignVersion : string := "1.0".
Definition stsAPIVersion : string := "2015-04-01".
Definition stsHost : string := "https://sts.aliyuncs.com/".
Definition respBodyFormat : string := "JSON".
Definition percentEncode : string := "%2F".
Definition httpGet : string := "GET".
Definition defaultSTSEndpoint : string := "sts.aliyuncs.com".
Definition defaultSTSProtocol : string := "https".
Definition defaultRoleSessionName : string := "ack-ram-authenticator".

(** [fmt.Sprintf(vpcStsEndpoint, region)] with
    [vpcStsEndpoint = "https://sts-vpc.%s.aliyuncs.com"]. *)
Definition vpcStsEndpoint (region : string) : string :=
  "https://sts-vpc." +:+ region +:+ ".aliyuncs.com".

(** [hostRegexp]: [^sts(\.[a-z1-9\-]+)?\.aliyuncs\.com(\.cn)?$] *)
Definition hostRegexp : regexp.regex :=
  regexp.Cat (regexp.Str "sts")
    (regexp.Cat
       (regexp.Opt
          (regexp.Cat (regexp.Lit ".")
             (regexp.Plus (regexp.Class [(97, 122); (49, 57); (45, 45)]%N))))
       (regexp.Cat (regexp.Str ".aliyuncs.com")
                   (regexp.Opt (regexp.Str ".cn")))).

Record Token : Type := {
  Token_ : string;
  Expiration : time.Time
}.

Record GetTokenOptions : Type := {
  Region : string;
  ClusterID : string;
  AssumeRoleARN : string
}.

Definition parameterWhitelist (key : string) : bool :=
  bool_decide (key ∈ [
    "action"; "durationseconds"; "signatureversion"; "signaturenonce";
    "signaturemethod"; "accesskeyid"; "timestamp"; "signature"; "format";
    "version"; "rolesessionname"; "rolearn"; "securitytoken"; "clusterid";
    "x-acs-action"; "x-acs-version"; "authorization";
    "x-acs-signature-nonce"; "x-acs-date"; "x-acs-content-sha256";
    "x-acs-content-sm3"; "x-acs-security-token"; "ackclusterid"]).

Record getCallerIdentityWrapper : Type := {
  w_AccountID : string;
  w_UserID : string;
  w_RoleID : string;
  w_Arn : string;
  w_IdentityType : string;
  w_PrincipalID : string;
  w_RequestID : string
}.

(** *** HTTP requests and responses *)

Definition upper_byte (a : ascii) : ascii :=
  let n := N_of_ascii a in
  if ((97 <=? n) && (n <=? 122))%N then ascii_of_N (n - 32) else a.

(** [textproto.CanonicalMIMEHeaderKey] on header names made of letters,
    digits and dashes. *)
Fixpoint canonicalKey (upper : bool) (s : string) : string :=
  match s with
  | EmptyString => EmptyString
  | String c s' =>
      String (if upper then upper_byte c else strings.lower_byte c)
             (canonicalKey (Ascii.eqb c "-") s')
  end.

Record Request : Type := {
  Method : string;
  URL : url.URL;
  Header : gmap string (list string)
}.

(** [http.NewRequest(method, u.String(), nil)]: the request keeps the URL
    structure it was built from. *)
Definition NewRequest (method : string) (u : url.URL) : Request :=
  {| Method := method; URL := u; Header := ∅ |}.

(** [req.Header.Set(key, value)] *)
Definition Header_Set (req : Request) (key value : string) : Request :=
  {| Method := Method req; URL := URL req;
     Header := <[canonicalKey true key := [value]]> (Header req) |}.

Record Response : Type := {
  StatusCode : Z;
  (** the outcome of [ioutil.ReadAll(response.Body)] *)
  Body : result string
}.

(** The outcome of [client.Do]: a response, a [*url.Error] wrapping a
    cause, or another error. *)
Inductive DoResult : Type :=
| DoResponse (r : Response)
| DoURLError (cause : error)
| DoError (e : error).

Record tokenVerifier : Type := {
  client : Request -> DoResult;
  clusterID : string;
  stsEndpoint : string
}.

(** What [Verify] takes from outside the embedded sources. *)
Record Env : Type := {
  (** the order in which a [range] loop visits the entries of a map *)
  range_order : list (string * list string) -> list (string * list string);
  (** the [%q] verb of package fmt *)
  fmt_q : string -> string;
  (** [json.Unmarshal] into a [getCallerIdentityWrapper] *)
  json_Unmarshal : string -> result getCallerIdentityWrapper;
  (** [arn.Canonicalize], with both of its results *)
  Canonicalize : string -> string * option error;
  (** the parser of v2 tokens *)
  parseV2Token : tokenVerifier -> string -> result (string * Request);
  userAgentV1 : string
}.

(** Every [range] order is a permutation of the entries. *)
Definition range_fair (E : Env) : Prop :=
  ∀ l, range_order E l ≡ₚ l.

Section verifier.
Context (E : Env).

Definition getClusterID (v : tokenVerifier) : string := clusterID v.

(** verify a sts host *)
Definition verifyHost (v : tokenVerifier) (host : string) : option error :=
  if negb (regexp.MatchString hostRegexp host)
  then Some (FormatError ("unexpected hostname " +:+ fmt_q E host
                            +:+ " in pre-signed URL"))
  else None.

Definition verifyClusterID (v : tokenVerifier) (clusterID_ : string)
  : option error :=
  if negb (String.eqb (clusterID v) clusterID_)
  then Some (FormatError ("unexpected clusterid " +:+ clusterID_
                            +:+ " in token"))
  else None.

(** The loop over [queryParams]: the entries in the order they are
    visited, and the lower-cased map built so far. *)
Fixpoint checkParams (entries : list (string * list string))
         (queryParamsLower : url.Values) : result url.Values :=
  match entries with
  | [] => Ok queryParamsLower
  | (key, values) :: rest =>
      if negb (parameterWhitelist (strings.ToLower key))
      then Err (FormatError ("non-whitelisted query parameter "
                               +:+ fmt_q E key))
      else if negb (Nat.eqb (length values) 1)
      then Err (FormatError
                  "query parameter with multiple values not supported")
      else checkParams rest
             (url.Set_ queryParamsLower (strings.ToLower key)
                       (hd EmptyString values))
  end.

(** The [case strings.HasPrefix(token, v1Prefix)] branch of [Verify]:
    the access key id and the request to replay. *)
Definition parseV1Token (v : tokenVerifier) (tokenBytes : string)
  : result (string * Request) :=
  match url.Parse tokenBytes with
  | Err err => Err (FormatError (Error err))
  | Ok parsedURL =>
      if negb (String.eqb (url.Scheme parsedURL) "https")
      then Err (FormatError ("unexpected scheme "
                               +:+ fmt_q E (url.Scheme parsedURL)
                               +:+ " in pre-signed URL"))
      else
        match verifyHost v (url.Host parsedURL) with
        | Some err => Err err
        | None =>
            let parsedURL := url.setHost parsedURL (stsEndpoint v) in
            if negb (String.eqb (url.Path parsedURL) "/")
            then Err (FormatError "unexpected path in pre-signed URL")
            else
              let queryParams := url.Query parsedURL in
              match checkParams
                      (range_order E (map_to_list queryParams)) ∅ with
              | Err err => Err err
              | Ok queryParamsLower =>
                  if negb (String.eqb (url.Get queryParamsLower "action")
                                      "GetCallerIdentity")
                  then Err (FormatError
                         "unexpected action parameter in pre-signed URL")
                  else
                    match verifyClusterID v
                            (url.Get queryParamsLower "clusterid") with
                    | Some err => Err err
                    | None =>
                        let accessKeyId :=
                          url.Get queryParamsLower "accesskeyid" in
                        Ok (accessKeyId,
                            Header_Set (NewRequest "GET" parsedURL)
                                       "User-Agent" (userAgentV1 E))
                    end
              end
        end
  end.

(** The steps of [Verify] before the request is sent: length, prefix,
    base64, and the parse of the payload by token version. *)
Definition parseToken (v : tokenVerifier) (token : string)
  : result (string * Request) :=
  if (maxTokenLenBytes <? String.length token)%nat
  then Err (FormatError "token is too large")
  else if negb (strings.HasPrefix token v1Prefix)
          && negb (strings.HasPrefix token v2Prefix)
  then Err (FormatError "token is missing expected prefix")
  else
    match base64.DecodeString
            (strings.TrimPrefix (strings.TrimPrefix token v1Prefix)
                                v2Prefix) with
    | Err err => Err (FormatError (Error err))
    | Ok tokenBytes =>
        if strings.HasPrefix token v2Prefix then
          match parseV2Token E v tokenBytes with
          | Err err => Err (FormatError (Error err))
          | Ok r => Ok r
          end
        else if strings.HasPrefix token v1Prefix then
          parseV1Token v tokenBytes
        else Err (Panic "nil request")
    end.

Definition newOpenAPIErr (status : Z) (body : option string)
           (cause : option error) : error :=
  OpenAPIErr status body cause.

(** The part of [Verify] that reads the response of STS. *)
Definition extractIdentity (accessKeyId : string) (response : Response)
  : result Identity :=
  if negb (StatusCode response =? 200)%Z then
    match Body response with
    | Err _ => Err (newOpenAPIErr (StatusCode response) None None)
    | Ok responseBytes =>
        Err (newOpenAPIErr (StatusCode response) (Some responseBytes) None)
    end
  else
    match Body response with
    | Err err =>
        Err (newOpenAPIErr 400 None
               (Some (ErrorString ("error reading HTTP result: "
                                     +:+ Error err))))
    | Ok responseBody =>
        match json_Unmarshal E responseBody with
        | Err err => Err (newOpenAPIErr 400 None (Some err))
        | Ok callerIdentity =>
            match Canonicalize E (w_Arn callerIdentity) with
            | (_, Some err) => Err (newOpenAPIErr 400 None (Some err))
            | (canonicalARN, None) =>
                let id (userID sessionName : string) :=
                  {| ARN := w_Arn callerIdentity;
                     CanonicalARN := canonicalARN;
                     AccountID := w_AccountID callerIdentity;
                     UserID := userID;
                     SessionName := sessionName;
                     AccessKeyID := accessKeyId |} in
                match strings.Split (w_PrincipalID callerIdentity) ":" with
                | [userID; sessionName] => Ok (id userID sessionName)
                | [userID] => Ok (id userID EmptyString)
                | _ =>
                    Err (newOpenAPIErr 400 None
                           (Some (ErrorString
                              ("malformed UserID "
                                 +:+ fmt_q E
                                       (w_PrincipalID callerIdentity)))))
                end
            end
        end
    end.

(** [Verify]: the requests sent to STS, in order, and the result. *)
Definition Verify (v : tokenVerifier) (token : string)
  : list Request * result Identity :=
  match parseToken v token with
  | Err err => ([], Err err)
  | Ok (accessKeyId, req0) =>
      let req := Header_Set req0 "accept" "application/json" in
      ([req],
       match client v req with
       | DoURLError cause => Err (newOpenAPIErr 400 None (Some cause))
       | DoError err => Err (newOpenAPIErr 400 None (Some err))
       | DoResponse response => extractIdentity accessKeyId response
       end)
  end.

End verifier.

(** *** The generator *)

(** [tea.StringValue] *)
Definition StringValue (p : option string) : string := default EmptyString p.

(** A credential as the STS client reads it. *)
Record Credential : Type := {
  GetAccessKeyId : result (option string);
  GetAccessKeySecret : result (option string);
  GetSecurityToken : result (option string)
}.

(** [credentials.Config], the fields set for an assumed role. *)
Record Config : Type := {
  RoleName : option string;
  cfgAccessKeyId : option string;
  cfgAccessKeySecret : option string;
  cfgSecurityToken : option string;
  RoleSessionExpiration : Z
}.

(** [sts.Client] *)
Record Client : Type := {
  Endpoint : string;
  Protocol : string;
  Credential_ : Credential
}.

Record AssumeRoleRequest : Type := {
  RoleArn : string;
  RoleSessionName : string
}.

(** The credentials in the body of an [AssumeRole] response. *)
Record AssumeRoleCredentials : Type := {
  rAccessKeyId : option string;
  rAccessKeySecret : option string;
  rSecurityToken : option string;
  rExpiration : option string
}.

Record generator : Type := { cache : bool }.

(** What the generator reads from outside the embedded sources. *)
Record GenEnv : Type := {
  (** [credentials.NewCredential] *)
  NewCredential : option Config -> result Credential;
  (** [utils.GetMetaData(utils.RegionID)] *)
  metaRegionID : string;
  (** [os.Getenv("ALIBABA_CLOUD_CREDENTIALS_PROFILE")] *)
  envProfile : string;
  (** [getRamRoleArnProfile] followed by [NewFileCacheProvider]: [None]
      when there is no such profile, else the caching credential or the
      error of the provider (arguments: cluster id, profile, role ARN,
      endpoint). *)
  fileCacheCredential :
    string -> string -> string -> string -> option (result Credential);
  (** the remote [AssumeRole] call *)
  AssumeRole : Client -> AssumeRoleRequest -> result AssumeRoleCredentials;
  (** [time.Now()] where the role session is named *)
  nowSession : time.Time;
  (** [time.Now()] where the request is time-stamped *)
  nowTimestamp : time.Time;
  (** [time.Now()] where the expiration is computed *)
  nowExpiration : time.Time;
  (** the sixteen random bytes of [uuid.NewV4] *)
  random : string
}.

Section generator.
Context (G : GenEnv).

(** The query string [GetWithSTS] builds before signing. *)
Definition queryStr (clusterID_ accessKey securityToken : string)
  : string :=
  "SignatureVersion=" +:+ stsSignVersion
    +:+ "&Format=" +:+ respBodyFormat
    +:+ "&Timestamp=" +:+ url.QueryEscape (time.FormatUTC (nowTimestamp G))
    +:+ "&AccessKeyId=" +:+ accessKey
    +:+ "&SignatureMethod=HMAC-SHA1"
    +:+ "&Version=" +:+ stsAPIVersion
    +:+ "&SignatureNonce=" +:+ uuid.String_ (uuid.NewV4 (random G))
    +:+ "&Action=GetCallerIdentity"
    +:+ "&ClusterId=" +:+ clusterID_
    +:+ (if negb (String.eqb securityToken EmptyString)
         then "&SecurityToken=" +:+ url.QueryEscape securityToken
         else EmptyString).

(** The signature over the sorted, encoded query. *)
Definition signature (accessSecret : string) (queryParams : url.Values)
  : string :=
  let result := url.Encode queryParams in
  let strToSign :=
    httpGet +:+ "&" +:+ percentEncode +:+ "&" +:+ url.QueryEscape result in
  base64.EncodeToString (hmac.SumSHA1 (accessSecret +:+ "&") strToSign).

Definition getCallerIdentityURL (query sig : string) : string :=
  stsHost +:+ "?" +:+ query +:+ "&Signature=" +:+ url.QueryEscape sig.

(** [GetWithSTS] returns a token valid for clusterID using the given
    STS client. *)
Definition GetWithSTS (g : generator) (clusterID_ : string)
           (stsClient : Client) : result Token :=
  match GetAccessKeyId (Credential_ stsClient) with
  | Err err => Err err
  | Ok accessKey =>
      match GetAccessKeySecret (Credential_ stsClient) with
      | Err err => Err err
      | Ok accessSecret =>
          match GetSecurityToken (Credential_ stsClient) with
          | Err err => Err err
          | Ok securityToken =>
              let query := queryStr clusterID_ (StringValue accessKey)
                                    (StringValue securityToken) in
              match url.ParseQuery query with
              | (_, Some err) => Err err
              | (queryParams, None) =>
                  let sig :=
                    signature (StringValue accessSecret) queryParams in
                  let tokenExpiration :=
                    time.Add (nowExpiration G)
                      (presignedURLExpiration - 1 * time.Minute)%Z in
                  Ok {| Token_ := v1Prefix +:+ base64.EncodeToString
                                    (getCallerIdentityURL query sig);
                        Expiration := tokenExpiration |}
              end
          end
      end
  end.

(** The endpoint [GetWithOptions] resolves for the STS client. *)
Definition resolveEndpoint (options : GetTokenOptions) : string :=
  let region := Region options in
  let region :=
    if String.eqb region EmptyString then metaRegionID G else region in
  let stsEndpoint_ := defaultSTSEndpoint in
  if negb (String.eqb region EmptyString)
  then vpcStsEndpoint region
  else stsEndpoint_.

(** The STS client of [GetWithOptions] before any role is assumed:
    [sts.NewClient], whose error the source does not look at and which is
    taken to succeed, and the optional caching credential. *)
Definition newClient (g : generator) (options : GetTokenOptions)
           (cred : Credential) : Client :=
  let stsEndpoint_ := resolveEndpoint options in
  let stsAPI := {| Endpoint := stsEndpoint_;
                   Protocol := defaultSTSProtocol;
                   Credential_ := cred |} in
  if cache g then
    let profile :=
      if (0 <? String.length (envProfile G))%nat then envProfile G
      else "default" in
    match fileCacheCredential G (ClusterID options) profile
            (AssumeRoleARN options) stsEndpoint_ with
    | Some (Ok cacheCred) =>
        {| Endpoint := stsEndpoint_; Protocol := defaultSTSProtocol;
           Credential_ := cacheCred |}
    | _ => stsAPI
    end
  else stsAPI.

(** [GetWithOptions] takes a GetTokenOptions struct, builds the STS
    client, and wraps GetWithSTS. *)
Definition GetWithOptions (g : generator) (options : GetTokenOptions)
  : result Token :=
  if String.eqb (ClusterID options) EmptyString
  then Err (ErrorString "ClusterID is required")
  else
    match NewCredential G None with
    | Err err =>
        Err (ErrorString ("could not init credentials: " +:+ Error err))
    | Ok cred =>
        let stsAPI := newClient g options cred in
        if negb (String.eqb (AssumeRoleARN options) EmptyString) then
          let stsReq :=
            {| RoleArn := AssumeRoleARN options;
               RoleSessionName :=
                 defaultRoleSessionName +:+ "-"
                   +:+ strconv.Itoa (nowSession G) |} in
          match AssumeRole G stsAPI stsReq with
          | Err err =>
              Err (ErrorString ("failed to assume ram role "
                                  +:+ AssumeRoleARN options +:+ ", err "
                                  +:+ Error err))
          | Ok assumeRes =>
              match strconv.Atoi (StringValue (rExpiration assumeRes)) with
              | Err err =>
                  Err (ErrorString
                         ("failed to parse assumed credential expiration "
                            +:+ StringValue (rExpiration assumeRes)
                            +:+ ", err " +:+ Error err))
              | Ok expiration =>
                  let config :=
                    {| RoleName := Some (AssumeRoleARN options);
                       cfgAccessKeyId := rAccessKeyId assumeRes;
                       cfgAccessKeySecret := rAccessKeySecret assumeRes;
                       cfgSecurityToken := rSecurityToken assumeRes;
                       RoleSessionExpiration := expiration |} in
                  match NewCredential G (Some config) with
                  | Err err =>
                      Err (ErrorString
                             ("failed to init sts credential for role "
                                +:+ AssumeRoleARN options +:+ ", err "
                                +:+ Error err))
                  | Ok stsCred =>
                      GetWithSTS g (ClusterID options)
                        {| Endpoint := Endpoint stsAPI;
                           Protocol := Protocol stsAPI;
                           Credential_ := stsCred |}
                  end
              end
          end
        else GetWithSTS g (ClusterID options) stsAPI
    end.

(** [Get] and [GetWithRole] *)
Definition GetWithRole (g : generator) (clusterID_ roleARN : string)
  : result Token :=
  GetWithOptions g {| Region := EmptyString; ClusterID := clusterID_;
                      AssumeRoleARN := roleARN |}.

Definition Get (g : generator) (clusterID_ : string) : result Token :=
  GetWithRole g clusterID_ EmptyString.

End generator.

(** *** The constructor of the verifier *)

(** [http.Transport], the field [NewVerifier] sets. *)
Record Transport : Type := {
  MaxIdleConnsPerHost : Z
}.

(** What [NewVerifier] takes from outside the embedded sources. *)
Record VerifierEnv : Type := {
  (** [provider.GetSTSEndpoint(region, vpc)] *)
  GetSTSEndpoint : string -> bool -> string;
  (** [os.Getenv("STS_MAX_IDLE_CONNS_PER_HOST")] *)
  envMaxIdleConnsPerHost : string;
  (** [Do] of an [http.Client] over a transport that does not follow
      redirects *)
  httpDo : Transport -> Request -> DoResult
}.

(** The transport of [NewVerifier]: the clone of the default transport
    with [MaxIdleConnsPerHost] set. *)
Definition newTransport (V : VerifierEnv) : Transport :=
  match strconv.Atoi (envMaxIdleConnsPerHost V) with
  | Ok v =>
      if (1 <? v)%Z then {| MaxIdleConnsPerHost := v |}
      else {| MaxIdleConnsPerHost := 5 |}
  | Err _ => {| MaxIdleConnsPerHost := 5 |}
  end.

(** [NewVerifier] creates a Verifier that is bound to the clusterID. *)
Definition NewVerifier (V : VerifierEnv) (region clusterID_ : string)
  : tokenVerifier :=
  let endpoint := GetSTSEndpoint V region true in
  let endpoint :=
    if String.eqb region EmptyString then GetSTSEndpoint V region false
    else endpoint in
  {| client := httpDo V (newTransport V);
     clusterID := clusterID_;
     stsEndpoint := endpoint |}.

End token.

(** ** Package config: the mapping records *)
Module config.

Record UserMapping : Type := {
  UserARN : string;
  u_Username : string;
  u_Groups : list string
}.

Record RoleMapping : Type := {
  RoleARN : string;
  r_Username : string;
  r_Groups : list string
}.

Record IdentityMapping : Type := {
  IdentityARN : string;
  Username : string;
  Groups : list string
}.

End config.

(** ** Package fsnotify: the bits of an [Op] *)
Module fsnotify.

Definition Create : N := 1.
Definition Write : N := 2.
Definition Remove : N := 4.
Definition Rename : N := 8.
Definition Chmod : N := 16.

(** [op&bit == bit] *)
Definition has (op bit : N) : bool := N.eqb (N.land op bit) bit.

End fsnotify.

(** ** Package dynamicfile *)
Module dynamicfile.

Record DynamicFileMapStore : Type := {
  users : gmap string config.UserMapping;
  roles : gmap string config.RoleMapping;
  (** Used as set. *)
  aliAccounts : gset string;
  filename : string
}.

Record DynamicFileData : Type := {
  (** [mapRoles] *)
  RoleMappings : list config.RoleMapping;
  (** [mapUsers] *)
  UserMappings : list config.UserMapping;
  (** [mapAccounts] *)
  AutoMappedAlibabaCloudAccounts : list string
}.

(** The outcome of [os.Stat]. *)
Inductive StatResult : Type :=
| StatOk
| StatNotExist
| StatErr (err : error).

(** What the store takes from outside the embedded sources. *)
Record Env : Type := {
  (** the outcome of the n-th [os.Stat] of the file, one poll a second *)
  stat : nat -> StatResult;
  (** [os.ReadFile] of the file once it is available *)
  ReadFile : result string;
  (** [json.Unmarshal] into a [DynamicFileData] *)
  json_Unmarshal : string -> result DynamicFileData;
  (** [arn.Canonicalize], with both of its results *)
  Canonicalize : string -> string * option error
}.

Definition NewDynamicFileMapStore (filename_ : string) : DynamicFileMapStore :=
  {| users := ∅; roles := ∅; aliAccounts := ∅; filename := filename_ |}.

Section store.
Context (E : Env).

(** [waitUntilFileAvailable]: polls from the n-th [os.Stat] on; [None]
    when the file is still missing after [fuel] polls. *)
Fixpoint waitUntilFileAvailable (fuel n : nat) : option (option error) :=
  match fuel with
  | O => None
  | S fuel' =>
      match stat E n with
      | StatNotExist => waitUntilFileAvailable fuel' (S n)
      | StatOk => Some None
      | StatErr err => Some (Some err)
      end
  end.

Definition userarnError : error :=
  ErrorString "Value for userarn must be supplied".
Definition rolearnError : error :=
  ErrorString "Value for rolearn must be supplied".

(** The loop of [ParseMap] over the user mappings. *)
Fixpoint parseUsers (l : list config.UserMapping)
         (errs : list error) (userMappings : list config.UserMapping)
  : list error * list config.UserMapping :=
  match l with
  | [] => (errs, userMappings)
  | userMapping :: rest =>
      if String.eqb (config.UserARN userMapping) EmptyString
      then parseUsers rest (errs ++ [userarnError]) userMappings
      else parseUsers rest errs (userMappings ++ [userMapping])
  end.

(** The loop of [ParseMap] over the role mappings. *)
Fixpoint parseRoles (l : list config.RoleMapping)
         (errs : list error) (roleMappings : list config.RoleMapping)
  : list error * list config.RoleMapping :=
  match l with
  | [] => (errs, roleMappings)
  | roleMapping :: rest =>
      if String.eqb (config.RoleARN roleMapping) EmptyString
      then parseRoles rest (errs ++ [rolearnError]) roleMappings
      else parseRoles rest errs (roleMappings ++ [roleMapping])
  end.

(** [ParseMap]: the four results
    [(userMappings, roleMappings, aliAccounts, err)]. *)
Definition ParseMap
  : list config.UserMapping * list config.RoleMapping * list string
    * option error :=
  match ReadFile E with
  | Err err => ([], [], [], Some err)
  | Ok dynamicContent =>
      match json_Unmarshal E dynamicContent with
      | Err err =>
          if Nat.eqb (String.length dynamicContent) 0
          then ([], [], [], None)
          else ([], [], [], Some err)
      | Ok dynamicFileData =>
          let '(errs, userMappings) :=
            parseUsers (UserMappings dynamicFileData) [] [] in
          let '(errs, roleMappings) :=
            parseRoles (RoleMappings dynamicFileData) errs [] in
          let aliAccounts_ :=
            AutoMappedAlibabaCloudAccounts dynamicFileData in
          (userMappings, roleMappings, aliAccounts_,
           if (0 <? length errs)%nat then Some (ErrParsingMap errs)
           else None)
      end
  end.

(** [saveMap]: replaces the three maps by the ones built from the
    arguments; the error of [arn.Canonicalize] is discarded. *)
Definition saveMap (ms : DynamicFileMapStore)
           (userMappings : list config.UserMapping)
           (roleMappings : list config.RoleMapping)
           (aliAccounts_ : list string) : DynamicFileMapStore :=
  {| users :=
       foldl (fun (m : gmap string config.UserMapping) user =>
                let canonicalizedARN :=
                  (Canonicalize E
                     (strings.ToLower (config.UserARN user))).1 in
                <[canonicalizedARN := user]> m)
             ∅ userMappings;
     roles :=
       foldl (fun (m : gmap string config.RoleMapping) role =>
                let canonicalizedARN :=
                  (Canonicalize E
                     (strings.ToLower (config.RoleARN role))).1 in
                <[canonicalizedARN := role]> m)
             ∅ roleMappings;
     aliAccounts :=
       foldl (fun (s : gset string) aliAccount => {[aliAccount]} ∪ s)
             ∅ aliAccounts_;
     filename := filename ms |}.

(** [loadDynamicFile]: the store afterwards and the returned error;
    [None] while the file has not appeared within [fuel] polls. *)
Definition loadDynamicFile (fuel : nat) (m : DynamicFileMapStore)
  : option (DynamicFileMapStore * option error) :=
  match waitUntilFileAvailable fuel 0 with
  | None => None
  | Some (Some err) => Some (m, Some err)
  | Some None =>
      let '(userMappings, roleMappings, aliAccounts_, err) := ParseMap in
      match err with
      | Some e => Some (m, Some e)
      | None =>
          Some (saveMap m userMappings roleMappings aliAccounts_, None)
      end
  end.

(** What the loop of [startLoadDynamicFile] receives: the stop signal, an
    event of the watcher, or an error of the watcher. *)
Inductive Received : Type :=
| Stop
| Event (op : N)
| WatchError (err : error).

(** One turn of the [for]/[select] loop of [startLoadDynamicFile], with
    [E] the file system at that moment: the store afterwards, and whether
    the loop goes on ([false]: the function returns and [wait.Until] runs
    it again a second later, unless stopped).  [None] while a reload is
    still waiting for the file after [fuel] polls. *)
Definition watchStep (fuel : nat) (m : DynamicFileMapStore) (r : Received)
  : option (DynamicFileMapStore * bool) :=
  match r with
  | Stop => Some (m, false)
  | Event op =>
      if fsnotify.has op fsnotify.Write || fsnotify.has op fsnotify.Create
      then
        match loadDynamicFile fuel m with
        | None => None
        | Some (m', _) => Some (m', true)
        end
      else if fsnotify.has op fsnotify.Rename
              || fsnotify.has op fsnotify.Remove
      then
        match stat E 0 with
        | StatNotExist => Some (saveMap m [] [] [], false)
        | _ => Some (m, false)
        end
      else Some (m, true)
  | WatchError _ => Some (m, true)
  end.

End store.

Definition UserNotFound : error :=
  ErrorString "User not found in dynamic file".
Definition RoleNotFound : error :=
  ErrorString "Role not found in dynamic file".

Definition UserMapping (ms : DynamicFileMapStore) (arn : string)
  : result config.UserMapping :=
  match users ms !! arn with
  | None => Err UserNotFound
  | Some user => Ok user
  end.

Definition RoleMapping (ms : DynamicFileMapStore) (arn : string)
  : result config.RoleMapping :=
  match roles ms !! arn with
  | None => Err RoleNotFound
  | Some role => Ok role
  end.

Definition AliAccount (ms : DynamicFileMapStore) (id : string) : bool :=
  bool_decide (id ∈ aliAccounts ms).

End dynamicfile.

(** ** Package v1alpha1: the custom resource *)
Module v1alpha1.

Record RAMIdentityMappingSpec : Type := {
  ARN : string;
  Username : string;
  Groups : list string
}.

Record RAMIdentityMappingStatus : Type := {
  CanonicalARN : string;
  UserID : string
}.

Record RAMIdentityMapping : Type := {
  Name : string;
  Spec : RAMIdentityMappingSpec;
  Status : RAMIdentityMappingStatus
}.

End v1alpha1.

(** An [interface{}] value held by the informer cache: a pointer to a
    [RAMIdentityMapping] (possibly nil) or a value of another type. *)
Inductive Obj : Type :=
| ObjMapping (p : option v1alpha1.RAMIdentityMapping)
| ObjOther.

(** [cache.Indexer], the one method the mapper calls. *)
Record Indexer : Type := {
  ByIndex : string -> string -> result (list Obj)
}.

(** ** Package controller *)
Module controller.

Abbreviation WildMappingMap := (gmap string v1alpha1.RAMIdentityMapping).

Record Controller : Type := {
  (** the lister's view of the informer cache, by resource name *)
  ramMappingLister : gmap string v1alpha1.RAMIdentityMapping;
  (** the [atomic.Value]; [None] until the first [Store] *)
  WildMappingCache : option WildMappingMap;
  (** the [UpdateStatus] calls issued so far *)
  statusUpdates : list v1alpha1.RAMIdentityMapping;
  (** the resources for which a [Synced] event was recorded *)
  events : list string
}.

Record Env : Type := {
  (** [arn.Canonicalize], with both of its results *)
  Canonicalize : string -> string * option error;
  (** the error, if any, of the [UpdateStatus] call for a resource *)
  UpdateStatus : v1alpha1.RAMIdentityMapping -> option error
}.

(** wild character including '?' and '*' *)
Definition hasWildDedinedInMappingArn (arn : string) : bool :=
  if strings.ContainsAny arn "?*" then true else false.

(** [IndexRAMIdentityMappingByCanonicalArn] *)
Definition IndexRAMIdentityMappingByCanonicalArn (obj : Obj)
  : result (list string) :=
  match obj with
  | ObjOther => Ok []
  | ObjMapping None => Err (Panic "nil pointer dereference")
  | ObjMapping (Some ramIdentity) =>
      let canonicalArnStr :=
        v1alpha1.CanonicalARN (v1alpha1.Status ramIdentity) in
      if String.eqb canonicalArnStr EmptyString then Ok []
      else Ok [canonicalArnStr]
  end.

(** [WildMappingMap.clone] of a non-nil map. *)
Definition clone (m : WildMappingMap) : WildMappingMap := m.

Definition setCanonicalARN (r : v1alpha1.RAMIdentityMapping) (c : string)
  : v1alpha1.RAMIdentityMapping :=
  {| v1alpha1.Name := v1alpha1.Name r;
     v1alpha1.Spec := v1alpha1.Spec r;
     v1alpha1.Status :=
       {| v1alpha1.CanonicalARN := c;
          v1alpha1.UserID := v1alpha1.UserID (v1alpha1.Status r) |} |}.

Definition recordEvent (c : Controller) (name : string) : Controller :=
  {| ramMappingLister := ramMappingLister c;
     WildMappingCache := WildMappingCache c;
     statusUpdates := statusUpdates c;
     events := events c ++ [name] |}.

Section controller.
Context (E : Env).

(** [cache.SplitMetaNamespaceKey]: the name of a key [name] or
    [namespace/name]. *)
Definition SplitMetaNamespaceKey (key : string) : result string :=
  match strings.Split key "/" with
  | [name] => Ok name
  | [_; name] => Ok name
  | _ => Err (ErrorString "unexpected key format")
  end.

(** [syncHandler]: the controller afterwards and the returned error. *)
Definition syncHandler (c : Controller) (key : string)
  : Controller * option error :=
  match SplitMetaNamespaceKey key with
  | Err _ => (c, None)
  | Ok name =>
      match ramMappingLister c !! name with
      | None => (c, None)
      | Some ramIdentityMapping =>
          if negb (String.eqb
                     (v1alpha1.ARN (v1alpha1.Spec ramIdentityMapping))
                     EmptyString)
          then
            match Canonicalize E
                    (strings.ToLower
                       (v1alpha1.ARN (v1alpha1.Spec ramIdentityMapping)))
            with
            | (_, Some err) => (c, Some err)
            | (canonicalizedARN, None) =>
                let ramIdentityMappingCopy :=
                  setCanonicalARN ramIdentityMapping canonicalizedARN in
                let c1 :=
                  {| ramMappingLister := ramMappingLister c;
                     WildMappingCache := WildMappingCache c;
                     statusUpdates :=
                       statusUpdates c ++ [ramIdentityMappingCopy];
                     events := events c |} in
                match UpdateStatus E ramIdentityMappingCopy with
                | Some err => (c1, Some err)
                | None =>
                    if hasWildDedinedInMappingArn canonicalizedARN then
                      match WildMappingCache c1 with
                      | None => (c1, Some (Panic "interface conversion"))
                      | Some wildCacheMap =>
                          let storageMap2 :=
                            <[v1alpha1.Name ramIdentityMappingCopy
                              := ramIdentityMappingCopy]>
                              (clone wildCacheMap) in
                          (recordEvent
                             {| ramMappingLister := ramMappingLister c1;
                                WildMappingCache := Some storageMap2;
                                statusUpdates := statusUpdates c1;
                                events := events c1 |}
                             (v1alpha1.Name ramIdentityMapping), None)
                      end
                    else (recordEvent c1
                            (v1alpha1.Name ramIdentityMapping), None)
                end
            end
          else (recordEvent c (v1alpha1.Name ramIdentityMapping), None)
      end
  end.

(** The store of [Run], once the informer caches have synced and before
    the workers start: [c.WildMappingCache.Store(WildMappingMap{})]. *)
Definition storeEmptyCache (c : Controller) : Controller :=
  {| ramMappingLister := ramMappingLister c;
     WildMappingCache := Some ∅;
     statusUpdates := statusUpdates c;
     events := events c |}.

(** The resources the lister returns for [labels.Everything()]; listing
    the informer cache does not fail. *)
Definition List_ (c : Controller) : list v1alpha1.RAMIdentityMapping :=
  (map_to_list (ramMappingLister c)).*2.

(** One turn of the loop of [removeWildMapping] over the listed
    resources. *)
Definition keepWild (wildCacheMap wildCacheMapp2 : WildMappingMap)
           (mapping : v1alpha1.RAMIdentityMapping) : WildMappingMap :=
  if negb (hasWildDedinedInMappingArn
             (v1alpha1.CanonicalARN (v1alpha1.Status mapping)))
  then wildCacheMapp2
  else
    match wildCacheMap !! v1alpha1.Name mapping with
    | Some cached => <[v1alpha1.Name mapping := cached]> wildCacheMapp2
    | None => wildCacheMapp2
    end.

(** [removeWildMapping]: stores the cached wildcard mappings whose
    resource is still listed with a wildcard canonical ARN; the type
    assertion on the loaded cache panics when nothing has been stored. *)
Definition removeWildMapping (c : Controller) : result Controller :=
  let allMapping := List_ c in
  match WildMappingCache c with
  | None => Err (Panic "interface conversion")
  | Some wildCacheMap =>
      let wildCacheMapp2 := foldl (keepWild wildCacheMap) ∅ allMapping in
      Ok {| ramMappingLister := ramMappingLister c;
            WildMappingCache := Some wildCacheMapp2;
            statusUpdates := statusUpdates c;
            events := events c |}
  end.

End controller.

(** An indexer over a list of cached objects with the [canonicalARN] index
    registered by [New]. *)
Definition indexed (value : string) (obj : Obj) : bool :=
  match IndexRAMIdentityMappingByCanonicalArn obj with
  | Ok keys => bool_decide (value ∈ keys)
  | Err _ => false
  end.

Definition storeIndexer (items : list Obj) : Indexer :=
  {| ByIndex := fun indexName indexedValue =>
       if String.eqb indexName "canonicalARN"
       then Ok (List.filter (indexed indexedValue) items)
       else Err (ErrorString ("Index with name " +:+ indexName
                                +:+ " does not exist")) |}.

End controller.

(** ** Package crd: the mapper *)
Module crd.

Record CRDMapper : Type := {
  (** the embedded [*controller.Controller] *)
  Controller_ : controller.Controller;
  (** ramMappingsIndex is a custom indexer which allows for indexing on
      canonical arns *)
  ramMappingsIndex : Indexer
}.

(** The loop of [Map] over the objects of the index: the first object that
    is a [*RAMIdentityMapping] ends it. *)
Fixpoint firstIdentity (objects : list Obj)
  : option v1alpha1.RAMIdentityMapping :=
  match objects with
  | [] => None
  | ObjMapping p :: _ => p
  | ObjOther :: rest => firstIdentity rest
  end.

Definition Map (m : CRDMapper) (canonicalARN : string)
  : result config.IdentityMapping :=
  let canonicalARN := strings.ToLower canonicalARN in
  match ByIndex (ramMappingsIndex m) "canonicalARN" canonicalARN with
  | Err err => Err err
  | Ok objects =>
      if (0 <? length objects)%nat then
        match firstIdentity objects with
        | Some iamidentity =>
            Ok {| config.IdentityARN := canonicalARN;
                  config.Username :=
                    v1alpha1.Username (v1alpha1.Spec iamidentity);
                  config.Groups :=
                    v1alpha1.Groups (v1alpha1.Spec iamidentity) |}
        | None => Err ErrNotMapped
        end
      else Err ErrNotMapped
  end.

Definition IsAccountAllowed (m : CRDMapper) (accountID : string) : bool :=
  false.

End crd.

(** ** Notions used to state the properties *)

(** The bytes [url.QueryEscape] leaves unchanged: letters, digits and
    [-_.~]. *)
Definition unreserved (c : ascii) : bool :=
  url.isalnum c || url.one_of "-_.~" c.

(** The bytes [url.QueryEscape] can produce. *)
Definition qsafe (c : ascii) : bool := unreserved c || url.one_of "%+" c.

(** The bytes of a query made of escaped parameters. *)
Definition qchar (c : ascii) : bool := qsafe c || url.one_of "&=" c.

(** The text of one query parameter. *)
Definition pairText (kv : string * string) : string :=
  kv.1 +:+ String "=" kv.2.

(** A parameter as written in a query and as decoded: the key is plain and
    the same on both sides, the written value is escaped text that decodes
    to the value. *)
Definition well_formed (raw dec : string * string) : Prop :=
  raw.1 = dec.1 ∧ strings.all unreserved raw.1 = true
  ∧ strings.all qsafe raw.2 = true
  ∧ url.QueryUnescape raw.2 = Ok dec.2.

(** The map [ParseQuery] builds from decoded parameters, in order. *)
Definition addAll (m : url.Values) (kvs : list (string * string))
  : url.Values :=
  foldl (fun m kv => url.Add m kv.1 kv.2) m kvs.

(** One turn of the parameter loop of [Verify] that passes the checks. *)
Definition lowerStep (acc : url.Values) (kv : string * list string)
  : url.Values :=
  url.Set_ acc (strings.ToLower kv.1) (hd EmptyString kv.2).

(** Facts about single bytes are proved by enumeration of the 256 bytes. *)
Ltac by_bytes :=
  intros [[] [] [] [] [] [] [] []]; vm_compute; try reflexivity;
  try discriminate; intuition discriminate.

(** The parameters of the query string of [GetWithSTS], as written in the
    query (values already escaped where the source escapes them). *)
Definition queryPairs (G : token.GenEnv) (clusterID accessKey securityToken : string)
  : list (string * string) :=
  [ ("SignatureVersion", token.stsSignVersion);
    ("Format", token.respBodyFormat);
    ("Timestamp", url.QueryEscape (time.FormatUTC (token.nowTimestamp G)));
    ("AccessKeyId", accessKey);
    ("SignatureMethod", "HMAC-SHA1");
    ("Version", token.stsAPIVersion);
    ("SignatureNonce", uuid.String_ (uuid.NewV4 (token.random G)));
    ("Action", "GetCallerIdentity");
    ("ClusterId", clusterID) ]
  ++ (if negb (String.eqb securityToken EmptyString)
      then [("SecurityToken", url.QueryEscape securityToken)] else []).

(** The same parameters with their decoded values. *)
Definition queryValues (G : token.GenEnv) (clusterID accessKey securityToken : string)
  : list (string * string) :=
  [ ("SignatureVersion", token.stsSignVersion);
    ("Format", token.respBodyFormat);
    ("Timestamp", time.FormatUTC (token.nowTimestamp G));
    ("AccessKeyId", accessKey);
    ("SignatureMethod", "HMAC-SHA1");
    ("Version", token.stsAPIVersion);
    ("SignatureNonce", uuid.String_ (uuid.NewV4 (token.random G)));
    ("Action", "GetCallerIdentity");
    ("ClusterId", clusterID) ]
  ++ (if negb (String.eqb securityToken EmptyString)
      then [("SecurityToken", securityToken)] else []).

(** The URL structure [url.Parse] gives for the presigned URL with query
    [q]. *)
Definition presignedURL (q : string) : url.URL :=
  {| url.Scheme := "https"; url.Opaque := ""; url.User := None;
     url.Host := "sts.aliyuncs.com"; url.Path := "/";
     url.ForceQuery := false; url.RawQuery := q; url.Fragment := "" |}.

(** All the parameters of the presigned URL: those of the query string and
    the signature, as written and as decoded. *)
Definition signedPairs (G : token.GenEnv)
           (clusterID accessKey securityToken sig : string)
  : list (string * string) :=
  queryPairs G clusterID accessKey securityToken
    ++ [("Signature", url.QueryEscape sig)].

Definition signedValues (G : token.GenEnv)
           (clusterID accessKey securityToken sig : string)
  : list (string * string) :=
  queryValues G clusterID accessKey securityToken ++ [("Signature", sig)].

(** The query of the presigned URL. *)
Definition signedQuery (G : token.GenEnv)
           (clusterID accessKey securityToken sig : string) : string :=
  token.queryStr G clusterID accessKey securityToken
    +:+ "&Signature=" +:+ url.QueryEscape sig.

(** The URL a v1 token carries, as [Verify] decodes and parses it. *)
Definition decodedURL (token_ : string) : result url.URL :=
  match base64.DecodeString
          (strings.TrimPrefix (strings.TrimPrefix token_ token.v1Prefix)
                              token.v2Prefix) with
  | Err e => Err e
  | Ok tokenBytes => url.Parse tokenBytes
  end.

(** The characters of a standard base64 text. *)
Definition base64char (c : ascii) : bool :=
  url.one_of base64.encodeStd c || Ascii.eqb c base64.padChar.

(** ** The ARN canonicalizer (package arn) *)
Module arn.

Definition InvalidArn (arn_ : string) : error :=
  ErrorString ("arn '" +:+ arn_ +:+ "' is invalid").

(** Modelled from the spec: arn.Canonicalize (package arn is not among the
    embedded sources).  An ARN [acs:ram::<account>:<resource>] (or
    [acs:sts::...]) with a numeric account: [assumed-role/<role>/<session>]
    becomes [role/<role>]; [federated-user/...], [user/...] and [role/...]
    are left intact; anything else is an invalid ARN, returned as the empty
    string with an error. *)
Definition Canonicalize (arn_ : string) : string * option error :=
  match strings.Split arn_ ":" with
  | [acs; service; region; account; resource] =>
      if String.eqb acs "acs"
         && (String.eqb service "ram" || String.eqb service "sts")
         && String.eqb region EmptyString
         && strings.all url.isdigit account
         && negb (String.eqb account EmptyString)
      then
        match strings.Split resource "/" with
        | kind :: rest =>
            if String.eqb kind "assumed-role" then
              match rest with
              | roleName :: _ :: _ =>
                  ("acs:ram::" +:+ account +:+ ":role/" +:+ roleName, None)
              | _ => (EmptyString, Some (InvalidArn arn_))
              end
            else if String.eqb kind "federated-user"
                    || String.eqb kind "user" || String.eqb kind "role"
            then (arn_, None)
            else (EmptyString, Some (InvalidArn arn_))
        | [] => (EmptyString, Some (InvalidArn arn_))
        end
      else (EmptyString, Some (InvalidArn arn_))
  | _ => (EmptyString, Some (InvalidArn arn_))
  end.

End arn.

(** ** The lookup of the CRD mapper as the specification words it

    A glob match ([?] is exactly one character, [*] is zero or more) and a
    lookup that falls back on the wildcard cache after an exact miss, written
    from the words of the specification; they are only used to compare
    [crd.Map] with the specification. *)
Module crdspec.

Fixpoint globMatch (pattern : string) : string -> bool :=
  match pattern with
  | EmptyString => fun s => String.eqb s EmptyString
  | String p pattern' =>
      if Ascii.eqb p "*" then
        fix star (s : string) : bool :=
          globMatch pattern' s
          || match s with
             | EmptyString => false
             | String _ s' => star s'
             end
      else if Ascii.eqb p "?" then
        fun s => match s with
                 | EmptyString => false
                 | String _ s' => globMatch pattern' s'
                 end
      else
        fun s => match s with
                 | EmptyString => false
                 | String a s' => Ascii.eqb a p && globMatch pattern' s'
                 end
  end.

Definition toMapping (canonicalARN : string)
           (r : v1alpha1.RAMIdentityMapping) : config.IdentityMapping :=
  {| config.IdentityARN := canonicalARN;
     config.Username := v1alpha1.Username (v1alpha1.Spec r);
     config.Groups := v1alpha1.Groups (v1alpha1.Spec r) |}.

(** The resources of a wildcard snapshot, in the order of the visit, whose
    canonical ARN matches the query. *)
Definition wildMatches (snapshot : list v1alpha1.RAMIdentityMapping)
           (canonicalARN : string) : list v1alpha1.RAMIdentityMapping :=
  List.filter
    (fun r => globMatch (v1alpha1.CanonicalARN (v1alpha1.Status r))
                        canonicalARN)
    snapshot.

(** Exact lookup first, then the wildcard snapshot, then [NotMapped]. *)
Definition Map (m : crd.CRDMapper)
           (snapshot : list v1alpha1.RAMIdentityMapping)
           (canonicalARN : string) : result config.IdentityMapping :=
  let canonicalARN := strings.ToLower canonicalARN in
  match ByIndex (crd.ramMappingsIndex m) "canonicalARN" canonicalARN with
  | Err err => Err err
  | Ok objects =>
      match crd.firstIdentity objects with
      | Some r => Ok (toMapping canonicalARN r)
      | None =>
          match wildMatches snapshot canonicalARN with
          | r :: _ => Ok (toMapping canonicalARN r)
          | [] => Err ErrNotMapped
          end
      end
  end.

End crdspec.

(** ** Concrete settings for the examples *)
Module examples.

Definition quote (s : string) : string :=
  String dquote s +:+ String dquote EmptyString.

(** Writes a JSON text with apostrophes in place of double quotes. *)
Fixpoint json (s : string) : string :=
  match s with
  | EmptyString => EmptyString
  | String c s' => String (if Ascii.eqb c "'" then dquote else c) (json s')
  end.

Definition identityBody : string :=
  json "{'Arn':'acs:ram::111122223333:role/admin','AccountId':'111122223333','PrincipalId':'33333:sess1'}".

Definition callerIdentity : token.getCallerIdentityWrapper :=
  {| token.w_AccountID := "111122223333"; token.w_UserID := "";
     token.w_RoleID := ""; token.w_Arn := "acs:ram::111122223333:role/admin";
     token.w_IdentityType := ""; token.w_PrincipalID := "33333:sess1";
     token.w_RequestID := "" |}.

(** A decoder that knows the one response body of the examples. *)
Definition decodeIdentity (body : string)
  : result token.getCallerIdentityWrapper :=
  if String.eqb body identityBody then Ok callerIdentity
  else Err (ErrorString "invalid character").

(** An environment whose [range] visits the entries in the order of the
    listing, and one that visits them in the opposite order. *)
Definition E (order : list (string * list string)
                      -> list (string * list string)) : token.Env :=
  {| token.range_order := order;
     token.fmt_q := quote;
     token.json_Unmarshal := decodeIdentity;
     token.Canonicalize := arn.Canonicalize;
     token.parseV2Token := fun _ _ => Err (ErrorString "not a v2 token");
     token.userAgentV1 := "ack-ram-authenticator" |}.

Definition Efwd : token.Env := E (fun l => l).
Definition Erev : token.Env := E (@rev _).

(** STS answering every request with the response body above. *)
Definition sts200 (req : token.Request) : token.DoResult :=
  token.DoResponse {| token.StatusCode := 200;
                      token.Body := Ok identityBody |}.

Definition verifier (cluster : string) : token.tokenVerifier :=
  {| token.client := sts200; token.clusterID := cluster;
     token.stsEndpoint := "sts-vpc.cn-hangzhou.aliyuncs.com" |}.

Definition credential (accessKey securityToken : string)
  : token.Credential :=
  {| token.GetAccessKeyId := Ok (Some accessKey);
     token.GetAccessKeySecret := Ok (Some "secret");
     token.GetSecurityToken := Ok (Some securityToken) |}.

Definition G (metaRegion : string) : token.GenEnv :=
  {| token.NewCredential := fun _ =>
       Ok (credential "LTAI5txxxxxxxxxxxxxxxxxx" "");
     token.metaRegionID := metaRegion;
     token.envProfile := "";
     token.fileCacheCredential := fun _ _ _ _ => None;
     token.AssumeRole := fun _ _ => Err (ErrorString "not available");
     token.nowSession := 1700000000000000000%Z;
     token.nowTimestamp := 1700000000000000000%Z;
     token.nowExpiration := 1700000000000000000%Z;
     token.random := "0123456789abcdef" |}.

Definition stsClient (accessKey securityToken : string) : token.Client :=
  {| token.Endpoint := token.defaultSTSEndpoint;
     token.Protocol := token.defaultSTSProtocol;
     token.Credential_ := credential accessKey securityToken |}.

Definition g : token.generator := {| token.cache := false |}.

(** A token wrapping a given URL. *)
Definition v1Token (rawURL : string) : string :=
  token.v1Prefix +:+ base64.EncodeToString rawURL.

(** The token of the happy path: access key [LTAI5txxxxxxxxxxxxxxxxxx],
    cluster [c123], no security token. *)
Definition happyToken : token.Token :=
  Eval vm_compute in
    match token.GetWithSTS (G "") g "c123"
            (stsClient "LTAI5txxxxxxxxxxxxxxxxxx" "") with
    | Ok t => t
    | Err _ => {| token.Token_ := ""; token.Expiration := 0%Z |}
    end.

Fixpoint repeat_byte (n : nat) (c : ascii) : string :=
  match n with O => EmptyString | S n' => String c (repeat_byte n' c) end.

End examples.

(** ** Notions about mapping files *)

(** The entries of a mapping file without an ARN. *)
Definition lacksUserARN (u : config.UserMapping) : bool :=
  String.eqb (config.UserARN u) EmptyString.
Definition lacksRoleARN (r : config.RoleMapping) : bool :=
  String.eqb (config.RoleARN r) EmptyString.

(** One complaint for every entry without an ARN, users first. *)
Definition complaints (data : dynamicfile.DynamicFileData) : list error :=
  replicate (length (List.filter lacksUserARN (dynamicfile.UserMappings data)))
            dynamicfile.userarnError
  ++ replicate
       (length (List.filter lacksRoleARN (dynamicfile.RoleMappings data)))
       dynamicfile.rolearnError.

(** The key under which [saveMap] stores an entry. *)
Definition userKey (E : dynamicfile.Env) (u : config.UserMapping) : string :=
  (dynamicfile.Canonicalize E (strings.ToLower (config.UserARN u))).1.
Definition roleKey (E : dynamicfile.Env) (r : config.RoleMapping) : string :=
  (dynamicfile.Canonicalize E (strings.ToLower (config.RoleARN r))).1.

(** The convention of the canonicalizer: the empty string comes with every
    error. *)
Definition empty_on_error (canonicalize : string -> string * option error)
  : Prop :=
  ∀ s e, (canonicalize s).2 = Some e → (canonicalize s).1 = EmptyString.

Module file_examples.

Definition alice : config.UserMapping :=
  {| config.UserARN := "acs:ram::111122223333:user/alice";
     config.u_Username := "alice"; config.u_Groups := ["dev"] |}.

Definition nameless : config.UserMapping :=
  {| config.UserARN := ""; config.u_Username := "bob";
     config.u_Groups := [] |}.

Definition badUser (name : string) : config.UserMapping :=
  {| config.UserARN := "not-an-arn-" +:+ name; config.u_Username := name;
     config.u_Groups := [] |}.

Definition badRole (name : string) : config.RoleMapping :=
  {| config.RoleARN := "not-an-arn-" +:+ name; config.r_Username := name;
     config.r_Groups := [] |}.

Definition content : string :=
  examples.json "{'mapUsers':[{'userarn':'acs:ram::111122223333:user/alice','username':'alice','groups':['dev']},{'username':'bob'}]}".

Definition data : dynamicfile.DynamicFileData :=
  {| dynamicfile.RoleMappings := [];
     dynamicfile.UserMappings := [alice; nameless];
     dynamicfile.AutoMappedAlibabaCloudAccounts := [] |}.

(** A file that is there at the first poll, with the content above, and a
    decoder that knows this one document. *)
Definition E : dynamicfile.Env :=
  {| dynamicfile.stat := fun _ => dynamicfile.StatOk;
     dynamicfile.ReadFile := Ok content;
     dynamicfile.json_Unmarshal := fun s =>
       if String.eqb s content then Ok data
       else Err (ErrorString "invalid character");
     dynamicfile.Canonicalize := arn.Canonicalize |}.

Definition store : dynamicfile.DynamicFileMapStore :=
  dynamicfile.NewDynamicFileMapStore "/etc/ack-ram-authenticator/dynamic.json".

End file_examples.

Module crd_examples.

Definition devs : v1alpha1.RAMIdentityMapping :=
  {| v1alpha1.Name := "devs";
     v1alpha1.Spec :=
       {| v1alpha1.ARN := "acs:ram::111122223333:role/dev-*";
          v1alpha1.Username := "dev";
          v1alpha1.Groups := ["developers"] |};
     v1alpha1.Status :=
       {| v1alpha1.CanonicalARN := ""; v1alpha1.UserID := "" |} |}.

Definition E : controller.Env :=
  {| controller.Canonicalize := arn.Canonicalize;
     controller.UpdateStatus := fun _ => None |}.

(** The controller after [Run] stored the empty wildcard cache, with the
    resource in the informer cache. *)
Definition started : controller.Controller :=
  {| controller.ramMappingLister := {[ "devs" := devs ]};
     controller.WildMappingCache := Some ∅;
     controller.statusUpdates := [];
     controller.events := [] |}.

(** The controller after the worker synced the resource. *)
Definition synced : controller.Controller :=
  (controller.syncHandler E started "devs").1.

(** The mapper over the informer cache that has received the updated
    status. *)
Definition mapper : crd.CRDMapper :=
  {| crd.Controller_ := synced;
     crd.ramMappingsIndex :=
       controller.storeIndexer
         (ObjMapping ∘ Some <$> controller.statusUpdates synced) |}.

(** The resources of the current wildcard snapshot. *)
Definition snapshot (c : controller.Controller)
  : list v1alpha1.RAMIdentityMapping :=
  match controller.WildMappingCache c with
  | Some cache => (map_to_list cache).*2
  | None => []
  end.

End crd_examples.

(** ** Further notions and settings *)

(** The texts a pattern denotes. *)
Inductive matches : regexp.regex → string → Prop :=
| matches_eps : matches regexp.Eps EmptyString
| matches_class ranges a :
    regexp.in_class ranges a = true →
    matches (regexp.Class ranges) (String a EmptyString)
| matches_cat r1 r2 s1 s2 :
    matches r1 s1 → matches r2 s2 → matches (regexp.Cat r1 r2) (s1 +:+ s2)
| matches_alt_l r1 r2 s : matches r1 s → matches (regexp.Alt r1 r2) s
| matches_alt_r r1 r2 s : matches r2 s → matches (regexp.Alt r1 r2) s
| matches_star_nil r : matches (regexp.Star r) EmptyString
| matches_star_cons r s1 s2 :
    matches r s1 → matches (regexp.Star r) s2 →
    matches (regexp.Star r) (s1 +:+ s2).

(** The bytes of the class [[a-z1-9\-]]: lower-case letters, the digits
    from 1 to 9 and the dash. *)
Definition labelByte (c : ascii) : bool :=
  url.in_range 97 122 c || url.in_range 49 57 c || Ascii.eqb c "-".

(** The host names of STS: [sts], at most one label of such bytes, then
    [.aliyuncs.com], then nothing or [.cn]. *)
Definition stsHostName (host : string) : Prop :=
  ∃ label tail,
    host = "sts" +:+ label +:+ ".aliyuncs.com" +:+ tail
    ∧ (label = EmptyString
       ∨ ∃ l, label = String "." l ∧ l ≠ EmptyString
              ∧ strings.all labelByte l = true)
    ∧ (tail = EmptyString ∨ tail = ".cn").

(** A query text that [url.Parse] takes as it is: no [#], no [?] and no
    control character. *)
Definition plain (s : string) : bool :=
  negb (strings.ContainsByte s "#") && negb (strings.ContainsByte s "?")
  && negb (url.stringContainsCTLByte s).

(** A query segment that [ParseQuery] cannot decode: it holds a semicolon,
    or its key or its value has a malformed escape. *)
Definition undecodable (seg : string) : bool :=
  strings.ContainsByte seg ";"
  || match url.QueryUnescape (strings.Cut seg "=").1.1,
           url.QueryUnescape (strings.Cut seg "=").1.2 with
     | Ok _, Ok _ => false
     | _, _ => true
     end.

(** The v1 token that wraps the URL of STS with a given query. *)
Definition stsToken (query : string) : string :=
  token.v1Prefix
    +:+ base64.EncodeToString (token.stsHost +:+ "?" +:+ query).

(** The request [Verify] sends for a v1 token whose URL has a given
    query. *)
Definition replay (E : token.Env) (v : token.tokenVerifier)
           (query : string) : token.Request :=
  {| token.Method := "GET";
     token.URL :=
       {| url.Scheme := "https"; url.Opaque := ""; url.User := None;
          url.Host := token.stsEndpoint v; url.Path := "/";
          url.ForceQuery := false; url.RawQuery := query;
          url.Fragment := "" |};
     token.Header :=
       <["Accept" := ["application/json"]]>
         (<["User-Agent" := [token.userAgentV1 E]]> ∅) |}.

(** The checks of the v1 branch of [Verify] that follow the parse of the
    URL: the loop over the decoded parameters, the action and the cluster;
    the result is the access key id. *)
Definition checked (E : token.Env) (v : token.tokenVerifier)
           (params : url.Values) : result string :=
  match token.checkParams E (token.range_order E (map_to_list params)) ∅
  with
  | Err err => Err err
  | Ok queryParamsLower =>
      if negb (String.eqb (url.Get queryParamsLower "action")
                          "GetCallerIdentity")
      then Err (FormatError "unexpected action parameter in pre-signed URL")
      else
        match token.verifyClusterID v
                (url.Get queryParamsLower "clusterid") with
        | Some err => Err err
        | None => Ok (url.Get queryParamsLower "accesskeyid")
        end
  end.

(** The wildcard cache is well kept when every entry is stored under the
    name of its resource and has a wildcard in its canonical ARN. *)
Definition wildCacheOk (c : controller.Controller) : Prop :=
  ∀ w name r,
    controller.WildMappingCache c = Some w → w !! name = Some r →
    v1alpha1.Name r = name
    ∧ controller.hasWildDedinedInMappingArn
        (v1alpha1.CanonicalARN (v1alpha1.Status r)) = true.

(** Some listed resource has this name and a wildcard in the canonical ARN
    of its status. *)
Definition listedWild (c : controller.Controller) (name : string) : bool :=
  existsb
    (fun mapping =>
       controller.hasWildDedinedInMappingArn
         (v1alpha1.CanonicalARN (v1alpha1.Status mapping))
       && String.eqb (v1alpha1.Name mapping) name)
    (controller.List_ c).

(** The lister holds every resource under its name. *)
Definition listedByName (c : controller.Controller) : Prop :=
  ∀ name r,
    controller.ramMappingLister c !! name = Some r → v1alpha1.Name r = name.

(** The controller with another wildcard cache. *)
Definition withCache (c : controller.Controller)
           (w : controller.WildMappingMap) : controller.Controller :=
  {| controller.ramMappingLister := controller.ramMappingLister c;
     controller.WildMappingCache := Some w;
     controller.statusUpdates := controller.statusUpdates c;
     controller.events := controller.events c |}.

(** The mapper over an informer store holding the given resources. *)
Definition storeMapper (c : controller.Controller)
           (items : list v1alpha1.RAMIdentityMapping) : crd.CRDMapper :=
  {| crd.Controller_ := c;
     crd.ramMappingsIndex :=
       controller.storeIndexer (ObjMapping ∘ Some <$> items) |}.

(** The controller after one more [UpdateStatus] call. *)
Definition updated (c : controller.Controller)
           (copy : v1alpha1.RAMIdentityMapping) : controller.Controller :=
  {| controller.ramMappingLister := controller.ramMappingLister c;
     controller.WildMappingCache := controller.WildMappingCache c;
     controller.statusUpdates := controller.statusUpdates c ++ [copy];
     controller.events := controller.events c |}.

(** Every way [syncHandler] can end, with the controller it leaves and the
    error it returns. *)
Inductive synced (E : controller.Env) (c : controller.Controller)
          (key : string) : controller.Controller → option error → Prop :=
| synced_skip :
    (∀ name, controller.SplitMetaNamespaceKey key = Ok name →
             controller.ramMappingLister c !! name = None) →
    synced E c key c None
| synced_no_arn name r :
    controller.SplitMetaNamespaceKey key = Ok name →
    controller.ramMappingLister c !! name = Some r →
    v1alpha1.ARN (v1alpha1.Spec r) = EmptyString →
    synced E c key (controller.recordEvent c (v1alpha1.Name r)) None
| synced_invalid name r carn err :
    controller.SplitMetaNamespaceKey key = Ok name →
    controller.ramMappingLister c !! name = Some r →
    controller.Canonicalize E
      (strings.ToLower (v1alpha1.ARN (v1alpha1.Spec r)))
    = (carn, Some err) →
    synced E c key c (Some err)
| synced_refused name r carn err :
    controller.SplitMetaNamespaceKey key = Ok name →
    controller.ramMappingLister c !! name = Some r →
    controller.Canonicalize E
      (strings.ToLower (v1alpha1.ARN (v1alpha1.Spec r)))
    = (carn, None) →
    controller.UpdateStatus E (controller.setCanonicalARN r carn)
    = Some err →
    synced E c key (updated c (controller.setCanonicalARN r carn))
           (Some err)
| synced_plain name r carn :
    controller.SplitMetaNamespaceKey key = Ok name →
    controller.ramMappingLister c !! name = Some r →
    controller.Canonicalize E
      (strings.ToLower (v1alpha1.ARN (v1alpha1.Spec r)))
    = (carn, None) →
    controller.UpdateStatus E (controller.setCanonicalARN r carn) = None →
    controller.hasWildDedinedInMappingArn carn = false →
    synced E c key
           (controller.recordEvent
              (updated c (controller.setCanonicalARN r carn))
              (v1alpha1.Name r))
           None
| synced_unstored name r carn :
    controller.SplitMetaNamespaceKey key = Ok name →
    controller.ramMappingLister c !! name = Some r →
    controller.Canonicalize E
      (strings.ToLower (v1alpha1.ARN (v1alpha1.Spec r)))
    = (carn, None) →
    controller.UpdateStatus E (controller.setCanonicalARN r carn) = None →
    controller.hasWildDedinedInMappingArn carn = true →
    controller.WildMappingCache c = None →
    synced E c key (updated c (controller.setCanonicalARN r carn))
           (Some (Panic "interface conversion"))
| synced_wild name r carn w :
    controller.SplitMetaNamespaceKey key = Ok name →
    controller.ramMappingLister c !! name = Some r →
    v1alpha1.ARN (v1alpha1.Spec r) ≠ EmptyString →
    controller.Canonicalize E
      (strings.ToLower (v1alpha1.ARN (v1alpha1.Spec r)))
    = (carn, None) →
    controller.UpdateStatus E (controller.setCanonicalARN r carn) = None →
    controller.hasWildDedinedInMappingArn carn = true →
    controller.WildMappingCache c = Some w →
    synced E c key
           (controller.recordEvent
              (withCache (updated c (controller.setCanonicalARN r carn))
                 (<[v1alpha1.Name r := controller.setCanonicalARN r carn]>
                    w))
              (v1alpha1.Name r))
           None.

Module cases.

(** STS refusing every request with status 403. *)
Definition sts403 (req : token.Request) : token.DoResult :=
  token.DoResponse {| token.StatusCode := 403;
                      token.Body := Ok "Forbidden" |}.

Definition verifier403 : token.tokenVerifier :=
  {| token.client := sts403; token.clusterID := "c123";
     token.stsEndpoint := "sts-vpc.cn-hangzhou.aliyuncs.com" |}.

(** The Kelvin sign U+212A and the capital I with a dot U+0130, as the
    bytes of their UTF-8 encodings: the two runes outside ASCII that
    [unicode.ToLower] maps to ASCII letters ([k] and [i]). *)
Definition kelvin : string := String "226" (String "132" (String "170" "")).
Definition dottedI : string := String "196" (String "176" "").

(** The payload of the happy-path token, without its prefix. *)
Definition happyPayload : string :=
  strings.drop (String.length token.v1Prefix)
               (token.Token_ examples.happyToken).

(** A generator setting in which STS answers [AssumeRole] with an
    expiration written as a timestamp. *)
Definition Grole : token.GenEnv :=
  {| token.NewCredential := fun _ =>
       Ok (examples.credential "LTAI5txxxxxxxxxxxxxxxxxx" "");
     token.metaRegionID := "";
     token.envProfile := "";
     token.fileCacheCredential := fun _ _ _ _ => None;
     token.AssumeRole := fun _ _ =>
       Ok {| token.rAccessKeyId := Some "STS.NTxxxxxxxxxxxxxxxx";
             token.rAccessKeySecret := Some "secret2";
             token.rSecurityToken := Some "CAIS";
             token.rExpiration := Some "2015-04-09T11:52:19Z" |};
     token.nowSession := 1700000000000000000%Z;
     token.nowTimestamp := 1700000000000000000%Z;
     token.nowExpiration := 1700000000000000000%Z;
     token.random := "0123456789abcdef" |}.

Definition roleOptions : token.GetTokenOptions :=
  {| token.Region := ""; token.ClusterID := "c123";
     token.AssumeRoleARN := "acs:ram::111122223333:role/admin" |}.

(** A verifier setting: the endpoints of the provider, and the variable
    [STS_MAX_IDLE_CONNS_PER_HOST] set to [20]. *)
Definition V : token.VerifierEnv :=
  {| token.GetSTSEndpoint := fun region vpc =>
       if vpc then "sts-vpc." +:+ region +:+ ".aliyuncs.com"
       else "sts.aliyuncs.com";
     token.envMaxIdleConnsPerHost := "20";
     token.httpDo := fun _ => examples.sts200 |}.

(** A mapping file that appears at the third poll. *)
Definition Elate : dynamicfile.Env :=
  {| dynamicfile.stat := fun i =>
       if (i <? 2)%nat then dynamicfile.StatNotExist
       else dynamicfile.StatOk;
     dynamicfile.ReadFile := dynamicfile.ReadFile file_examples.E;
     dynamicfile.json_Unmarshal := dynamicfile.json_Unmarshal file_examples.E;
     dynamicfile.Canonicalize := arn.Canonicalize |}.

(** A mapping file that is there and empty. *)
Definition Eempty : dynamicfile.Env :=
  {| dynamicfile.stat := fun _ => dynamicfile.StatOk;
     dynamicfile.ReadFile := Ok "";
     dynamicfile.json_Unmarshal := fun _ =>
       Err (ErrorString "unexpected end of JSON input");
     dynamicfile.Canonicalize := arn.Canonicalize |}.

(** A mapping file that has been removed. *)
Definition Egone : dynamicfile.Env :=
  {| dynamicfile.stat := fun _ => dynamicfile.StatNotExist;
     dynamicfile.ReadFile := Err (ErrorString "no such file or directory");
     dynamicfile.json_Unmarshal := fun _ =>
       Err (ErrorString "unexpected end of JSON input");
     dynamicfile.Canonicalize := arn.Canonicalize |}.

(** The store holding the mapping of alice and one account. *)
Definition loaded : dynamicfile.DynamicFileMapStore :=
  dynamicfile.saveMap file_examples.E file_examples.store
    [file_examples.alice] [] ["111122223333"].

(** A controller setting in which the status update is refused. *)
Definition Econflict : controller.Env :=
  {| controller.Canonicalize := arn.Canonicalize;
     controller.UpdateStatus := fun _ => Some (ErrorString "conflict") |}.

(** The resource of the examples once its status is written. *)
Definition devsSynced : v1alpha1.RAMIdentityMapping :=
  controller.setCanonicalARN crd_examples.devs
    "acs:ram::111122223333:role/dev-*".

End cases.
(** * Runes, bytes and lower-casing *)

(** ** UTF-8: decoding what was encoded, and encoding what was decoded *)
Module utf8_facts.
Import utf8.
#[local] Open Scope Z_scope.

Lemma byte_range (a : ascii) : 0 <= byte a < 256.
Proof.
  unfold byte. pose proof (N_ascii_bounded a). lia.
Qed.

Lemma chr_byte (a : ascii) : chr (byte a) = a.
Proof.
  unfold chr, byte. pose proof (N_ascii_bounded a) as Hb.
  change 0xFF with (Z.ones 8). rewrite Z.land_ones by lia.
  rewrite Z.mod_small by (change (2 ^ 8) with 256; lia).
  by rewrite N2Z.id, ascii_N_embedding.
Qed.

Lemma byte_chr (x : Z) : 0 <= x < 256 -> byte (chr x) = x.
Proof.
  intros Hx. unfold chr, byte.
  change 0xFF with (Z.ones 8). rewrite Z.land_ones by lia.
  rewrite Z.mod_small by (change (2 ^ 8) with 256; lia).
  rewrite N_ascii_embedding by lia. lia.
Qed.

(** Bit operations on disjoint parts are sums. *)
Lemma lor_disjoint (h l n : Z) :
  0 <= n -> h mod 2 ^ n = 0 -> 0 <= l < 2 ^ n -> Z.lor h l = h + l.
Proof.
  intros Hn Hh Hl.
  assert (Hland : Z.land h l = 0).
  { rewrite <- (Z.mod_small l (2 ^ n)) by lia.
    rewrite <- (Z.land_ones l n) by lia.
    rewrite (Z.land_comm l), Z.land_assoc, Z.land_ones by lia.
    by rewrite Hh, Z.land_0_l. }
  pose proof (Z.add_lor_land h l) as H. rewrite Hland in H. lia.
Qed.

(** The runes the decoder puts together, and the bytes the encoder takes
    apart, in arithmetic. *)
Lemma land_mod (a : Z) (k : Z) (n : Z) :
  0 <= n -> k = Z.ones n -> Z.land a k = a mod 2 ^ n.
Proof. intros Hn ->. by apply Z.land_ones. Qed.

Lemma rune2_eq (b0 b1 : Z) :
  Z.lor (Z.shiftl (Z.land b0 mask2) 6) (Z.land b1 maskx)
  = (b0 mod 32) * 64 + b1 mod 64.
Proof.
  rewrite (land_mod b0 mask2 5), (land_mod b1 maskx 6) by done.
  rewrite Z.shiftl_mul_pow2 by lia.
  change (2 ^ 5) with 32. change (2 ^ 6) with 64.
  apply (lor_disjoint _ _ 6); [lia| |].
  - change (2 ^ 6) with 64. by rewrite Z.mod_mul.
  - change (2 ^ 6) with 64. apply Z.mod_pos_bound. lia.
Qed.

Lemma rune3_eq (b0 b1 b2 : Z) :
  Z.lor (Z.lor (Z.shiftl (Z.land b0 mask3) 12)
               (Z.shiftl (Z.land b1 maskx) 6))
        (Z.land b2 maskx)
  = (b0 mod 16) * 4096 + (b1 mod 64) * 64 + b2 mod 64.
Proof.
  rewrite (land_mod b0 mask3 4), (land_mod b1 maskx 6),
    (land_mod b2 maskx 6) by done.
  rewrite !Z.shiftl_mul_pow2 by lia.
  change (2 ^ 4) with 16. change (2 ^ 6) with 64. change (2 ^ 12) with 4096.
  pose proof (Z.mod_pos_bound b1 64 ltac:(lia)).
  pose proof (Z.mod_pos_bound b2 64 ltac:(lia)).
  rewrite (lor_disjoint (b0 mod 16 * 4096) _ 12); [|lia| |].
  - apply (lor_disjoint _ _ 6); [lia| |by change (2 ^ 6) with 64].
    change (2 ^ 6) with 64.
    replace (b0 mod 16 * 4096 + b1 mod 64 * 64)
      with ((b0 mod 16 * 64 + b1 mod 64) * 64) by lia.
    by rewrite Z.mod_mul.
  - change (2 ^ 12) with 4096. by rewrite Z.mod_mul.
  - change (2 ^ 12) with 4096. lia.
Qed.

Lemma rune4_eq (b0 b1 b2 b3 : Z) :
  Z.lor (Z.lor (Z.lor (Z.shiftl (Z.land b0 mask4) 18)
                      (Z.shiftl (Z.land b1 maskx) 12))
               (Z.shiftl (Z.land b2 maskx) 6))
        (Z.land b3 maskx)
  = (b0 mod 8) * 262144 + (b1 mod 64) * 4096 + (b2 mod 64) * 64 + b3 mod 64.
Proof.
  rewrite (land_mod b0 mask4 3), (land_mod b1 maskx 6),
    (land_mod b2 maskx 6), (land_mod b3 maskx 6) by done.
  rewrite !Z.shiftl_mul_pow2 by lia.
  change (2 ^ 3) with 8. change (2 ^ 6) with 64. change (2 ^ 12) with 4096.
  change (2 ^ 18) with 262144.
  pose proof (Z.mod_pos_bound b1 64 ltac:(lia)).
  pose proof (Z.mod_pos_bound b2 64 ltac:(lia)).
  pose proof (Z.mod_pos_bound b3 64 ltac:(lia)).
  rewrite (lor_disjoint (b0 mod 8 * 262144) _ 18); [|lia| |].
  - rewrite (lor_disjoint _ (b2 mod 64 * 64) 12); [|lia| |].
    + apply (lor_disjoint _ _ 6); [lia| |by change (2 ^ 6) with 64].
      change (2 ^ 6) with 64.
      replace (b0 mod 8 * 262144 + b1 mod 64 * 4096 + b2 mod 64 * 64)
        with ((b0 mod 8 * 4096 + b1 mod 64 * 64 + b2 mod 64) * 64) by lia.
      by rewrite Z.mod_mul.
    + change (2 ^ 12) with 4096.
      replace (b0 mod 8 * 262144 + b1 mod 64 * 4096)
        with ((b0 mod 8 * 64 + b1 mod 64) * 4096) by lia.
      by rewrite Z.mod_mul.
    + change (2 ^ 12) with 4096. lia.
  - change (2 ^ 18) with 262144. by rewrite Z.mod_mul.
  - change (2 ^ 18) with 262144. lia.
Qed.

(** The bytes [EncodeRune] writes, as sums. *)
Lemma lead_eq (t r n k : Z) :
  0 <= n -> 0 <= k -> t mod 2 ^ k = 0 -> 0 <= r < 2 ^ (n + k) ->
  Z.lor t (Z.shiftr r n) = t + r / 2 ^ n.
Proof.
  intros Hn Hk Ht Hr. rewrite Z.shiftr_div_pow2 by lia.
  apply (lor_disjoint _ _ k); [lia|done|]. split.
  - apply Z.div_pos; lia.
  - apply Z.div_lt_upper_bound; [lia|]. rewrite <- Z.pow_add_r by lia. lia.
Qed.

Lemma cont_eq (x : Z) : Z.lor tx (Z.land x maskx) = 128 + x mod 64.
Proof.
  rewrite (land_mod x maskx 6) by done. change (2 ^ 6) with 64.
  apply (lor_disjoint _ _ 6); [lia|done|].
  change (2 ^ 6) with 64. apply Z.mod_pos_bound. lia.
Qed.

Lemma at_range (s : string) (i : nat) : 0 <= at_ s i < 256.
Proof.
  unfold at_. destruct (String.get i s); [apply byte_range|lia].
Qed.

Ltac eval_closed t := let v := eval vm_compute in t in change t with v.

Ltac ztest :=
  match goal with
  | |- context [Z.ltb ?a ?b] => destruct (Z.ltb_spec a b)
  | |- context [Z.leb ?a ?b] => destruct (Z.leb_spec a b)
  | |- context [Z.eqb ?a ?b] => destruct (Z.eqb_spec a b)
  | |- context [Nat.ltb ?a ?b] => destruct (Nat.ltb_spec a b)
  | |- context [Nat.leb ?a ?b] => destruct (Nat.leb_spec a b)
  end.

Lemma first_cases (b : Z) :
  0 <= b < 256 ->
  (b < 0x80 /\ first b = as_)
  \/ ((0x80 <= b < 0xC2 \/ 0xF5 <= b) /\ first b = xx)
  \/ (0xC2 <= b < 0xE0 /\ first b = s1)
  \/ (b = 0xE0 /\ first b = s2)
  \/ ((0xE1 <= b < 0xED \/ 0xEE <= b < 0xF0) /\ first b = s3)
  \/ (b = 0xED /\ first b = s4)
  \/ (b = 0xF0 /\ first b = s5)
  \/ (0xF1 <= b < 0xF4 /\ first b = s6)
  \/ (b = 0xF4 /\ first b = s7).
Proof.
  intros Hb. unfold first. repeat ztest; intuition lia.
Qed.

Lemma ValidRune_spec (r : Z) :
  ValidRune r = true <-> (0 <= r < 0xD800 \/ 0xDFFF < r <= 0x10FFFF).
Proof.
  unfold ValidRune, surrogateMin, surrogateMax, MaxRune.
  rewrite orb_true_iff, !andb_true_iff, !Z.leb_le, !Z.ltb_lt. tauto.
Qed.

Ltac with_first x :=
  eval_closed (as_ <=? x); eval_closed (x =? xx);
  eval_closed (Z.to_nat (Z.land x 7));
  eval_closed (acceptRanges (Z.shiftr x 4));
  cbv beta iota zeta; cbn [fst snd].

(** The decoder returns a valid rune, and takes at least one byte and no
    more than there are. *)
Lemma DecodeRuneInString_valid (s : string) :
  ValidRune (DecodeRuneInString s).1 = true
  /\ (s <> EmptyString ->
      (1 <= (DecodeRuneInString s).2 <= String.length s)%nat).
Proof.
  unfold DecodeRuneInString.
  pose proof (at_range s 0) as H0. pose proof (at_range s 1) as H1.
  pose proof (at_range s 2) as H2. pose proof (at_range s 3) as H3.
  assert (Hn : s <> EmptyString -> (1 <= String.length s)%nat).
  { destruct s; [done|]. cbn. lia. }
  revert H0 H1 H2 H3 Hn.
  generalize (at_ s 0) (at_ s 1) (at_ s 2) (at_ s 3) (String.length s).
  intros b0 b1 b2 b3 n H0 H1 H2 H3 Hn.
  cbv zeta. rewrite rune2_eq, rune3_eq, rune4_eq.
  destruct (Nat.ltb_spec n 1) as [Hlt|Hge].
  { split; [done|]. intros Hs. specialize (Hn Hs). lia. }
  destruct (first_cases b0 H0)
    as [[Hb ->]|[[Hb ->]|[[Hb ->]|[[Hb ->]|[[Hb ->]|[[Hb ->]|[[Hb ->]
       |[[Hb ->]|[Hb ->]]]]]]]]].
  all: match goal with |- context [as_ <=? ?x] => with_first x end.
  all: repeat (ztest; cbn [orb fst snd]); rewrite ?ValidRune_spec.
  all: first [done | split; [|lia]]; unfold RuneError.
  all: Z.div_mod_to_equations; lia.
Qed.

Lemma EncodeRune_eq (r : Z) :
  ValidRune r = true ->
  EncodeRune r =
    if r <? 0x80 then String (chr r) EmptyString
    else if r <? 0x800 then
      String (chr (0xC0 + r / 64))
        (String (chr (0x80 + r mod 64)) EmptyString)
    else if r <? 0x10000 then
      String (chr (0xE0 + r / 4096))
        (String (chr (0x80 + (r / 64) mod 64))
           (String (chr (0x80 + r mod 64)) EmptyString))
    else
      String (chr (0xF0 + r / 262144))
        (String (chr (0x80 + (r / 4096) mod 64))
           (String (chr (0x80 + (r / 64) mod 64))
              (String (chr (0x80 + r mod 64)) EmptyString))).
Proof.
  rewrite ValidRune_spec. intros Hr. unfold EncodeRune.
  unfold rune1Max, rune2Max, rune3Max, MaxRune, surrogateMin, surrogateMax.
  rewrite !cont_eq.
  repeat (ztest; cbn [andb orb]); try lia; try done.
  all: rewrite ?Z.shiftr_div_pow2 by lia.
  - by rewrite <- (Z.shiftr_div_pow2 r 6), (lead_eq t2 r 6 5) by (done || lia).
  - by rewrite <- (Z.shiftr_div_pow2 r 12), (lead_eq t3 r 12 4)
      by (done || lia).
  - by rewrite <- (Z.shiftr_div_pow2 r 12), (lead_eq t3 r 12 4)
      by (done || lia).
  - by rewrite <- (Z.shiftr_div_pow2 r 18), (lead_eq t4 r 18 3)
      by (done || lia).
Qed.

(** Decoding what [EncodeRune] wrote gives the rune back, whatever
    follows. *)
Lemma DecodeRuneInString_EncodeRune (r : Z) (rest : string) :
  ValidRune r = true ->
  DecodeRuneInString (EncodeRune r +:+ rest)
  = (r, String.length (EncodeRune r)).
Proof.
  intros Hv. rewrite (EncodeRune_eq r Hv).
  apply ValidRune_spec in Hv.
  destruct (Z.ltb_spec r 0x80);
    [|destruct (Z.ltb_spec r 0x800); [|destruct (Z.ltb_spec r 0x10000)]].
  all: cbn [String.append String.length]; unfold DecodeRuneInString.
  all: cbn [at_ String.get String.length Nat.ltb Nat.leb].
  all: rewrite ?rune2_eq, ?rune3_eq, ?rune4_eq.
  all: rewrite ?byte_chr by (Z.div_mod_to_equations; lia).
  all: match goal with
       | |- context [first ?b] =>
           let H := fresh in
           assert (H : 0 <= b < 256) by (Z.div_mod_to_equations; lia);
           destruct (first_cases b H)
             as [[Hb ->]|[[Hb ->]|[[Hb ->]|[[Hb ->]|[[Hb ->]|[[Hb ->]|[[Hb ->]
                |[[Hb ->]|[Hb ->]]]]]]]]];
           try (exfalso; Z.div_mod_to_equations; lia)
       end.
  all: match goal with |- context [as_ <=? ?x] => with_first x end.
  all: repeat
         (match goal with
          | |- context [(?a <? ?b) || (?c <? ?d)] =>
              replace ((a <? b) || (c <? d)) with false
                by (symmetry; apply orb_false_iff;
                    split; apply Z.ltb_ge; unfold locb, hicb;
                    Z.div_mod_to_equations; lia)
          end; cbn [Nat.leb]).
  all: f_equal; Z.div_mod_to_equations; lia.
Qed.

Lemma chr_eq (x : Z) (c : ascii) : x = byte c -> chr x = c.
Proof. intros ->. apply chr_byte. Qed.

Ltac bytes_eq :=
  repeat (apply (f_equal2 String);
          [apply chr_eq; Z.div_mod_to_equations; lia|]);
  reflexivity.

(** A well-formed sequence is written back byte for byte. *)
Lemma EncodeRune_DecodeRuneInString (s : string) :
  s <> EmptyString ->
  DecodeRuneInString s <> (RuneError, 1%nat) ->
  EncodeRune (DecodeRuneInString s).1 +:+ skip (DecodeRuneInString s).2 s = s.
Proof.
  intros Hs.
  destruct (DecodeRuneInString_valid s) as [Hv _]. revert Hv.
  destruct s as [|c0 s]; [done|]. clear Hs.
  unfold DecodeRuneInString.
  pose proof (byte_range c0) as H0.
  destruct s as [|c1 [|c2 [|c3 s]]].
  all: try pose proof (byte_range c1) as H1.
  all: try pose proof (byte_range c2) as H2.
  all: try pose proof (byte_range c3) as H3.
  all: cbn [String.length Nat.ltb Nat.leb at_ String.get].
  all: rewrite ?rune2_eq, ?rune3_eq, ?rune4_eq.
  all: destruct (first_cases (byte c0) H0)
    as [[Hb ->]|[[Hb ->]|[[Hb ->]|[[Hb ->]|[[Hb ->]|[[Hb ->]|[[Hb ->]
       |[[Hb ->]|[Hb ->]]]]]]]]].
  all: match goal with |- context [as_ <=? ?x] => with_first x end.
  all: cbn [Nat.leb].
  all: try done.
  all: repeat (ztest; cbn [orb fst snd]); try done.
  all: intros Hv _; rewrite (EncodeRune_eq _ Hv); clear Hv.
  all: unfold locb, hicb in *.
  all: repeat (ztest; try (exfalso; Z.div_mod_to_equations; lia)).
  all: unfold locb, hicb in *; cbn [String.append skip]; bytes_eq.
Qed.

Lemma skip_app (a b : string) : skip (String.length a) (a +:+ b) = b.
Proof. induction a as [|c a IH]; [done|]. cbn. exact IH. Qed.

Lemma length_skip (n : nat) (s : string) :
  String.length (skip n s) = (String.length s - n)%nat.
Proof.
  revert s. by induction n as [|n IH]; intros [|c s]; cbn.
Qed.

(** The bound on the steps of [range_] does not matter once it is the
    length of the string. *)
Lemma range_steps (steps1 steps2 : nat) (s : string) :
  (String.length s <= steps1)%nat -> (String.length s <= steps2)%nat ->
  range_ steps1 s = range_ steps2 s.
Proof.
  revert steps2 s. induction steps1 as [|steps1 IH]; intros steps2 s H1 H2.
  - destruct s; [|cbn in H1; lia]. by destruct steps2.
  - destruct s as [|c s]; [by destruct steps2|].
    destruct steps2 as [|steps2]; [cbn in H2; lia|].
    cbn [range_].
    destruct (DecodeRuneInString_valid (String c s)) as [_ Hw].
    specialize (Hw ltac:(done)).
    destruct (DecodeRuneInString (String c s)) as [r width].
    cbn [snd] in Hw. f_equal.
    apply IH; rewrite length_skip; cbn [String.length] in *; lia.
Qed.

Lemma runes_step (s : string) :
  s <> EmptyString ->
  runes s = (DecodeRuneInString s).1
            :: runes (skip (DecodeRuneInString s).2 s).
Proof.
  intros Hs. destruct s as [|c s]; [done|].
  unfold runes at 1. cbn [String.length range_].
  destruct (DecodeRuneInString_valid (String c s)) as [_ Hw].
  specialize (Hw ltac:(done)).
  destruct (DecodeRuneInString (String c s)) as [r width].
  cbn [fst snd] in *. f_equal.
  apply range_steps; rewrite ?length_skip; cbn [String.length] in *; lia.
Qed.

Lemma runes_valid (s : string) : Forall (fun r => ValidRune r = true) (runes s).
Proof.
  unfold runes. generalize (String.length s) as steps. intros steps.
  revert s. induction steps as [|steps IH]; intros s; [by destruct s|].
  destruct s as [|c s]; [done|]. cbn [range_].
  destruct (DecodeRuneInString_valid (String c s)) as [Hv _].
  destruct (DecodeRuneInString (String c s)) as [r width].
  constructor; [exact Hv|apply IH].
Qed.

Lemma EncodeRune_not_empty (r : Z) : EncodeRune r <> EmptyString.
Proof. unfold EncodeRune. by repeat case_match. Qed.

(** The runes of a string that starts with an encoded rune. *)
Lemma runes_EncodeRune (r : Z) (rest : string) :
  ValidRune r = true -> runes (EncodeRune r +:+ rest) = r :: runes rest.
Proof.
  intros Hv. rewrite runes_step.
  - rewrite DecodeRuneInString_EncodeRune by done. cbn [fst snd].
    by rewrite skip_app.
  - pose proof (EncodeRune_not_empty r).
    by destruct (EncodeRune r).
Qed.

End utf8_facts.

(** ** The case table *)
Module unicode_facts.
Import utf8 unicode.
#[local] Open Scope Z_scope.

Lemma all_from_spec (f : Z -> bool) (n : nat) (r0 : Z) :
  all_from f n r0 = true ->
  forall r, r0 <= r < r0 + Z.of_nat n -> f r = true.
Proof.
  revert r0. induction n as [|n IH]; intros r0 H r Hr; [lia|].
  cbn [all_from] in H. destruct (f r0) eqn:Hf; [|done].
  destruct (decide (r = r0)) as [->|Hne]; [done|].
  apply (IH (r0 + 1) H). lia.
Qed.

Lemma to_cases (r : Z) (l : list CaseRange) :
  to r l = r \/ exists cr, In cr l /\ Lo cr <= r <= Hi cr.
Proof.
  induction l as [|cr l IH]; [by left|]. cbn [to].
  destruct (Z.leb_spec (Lo cr) r); cbn [andb].
  - destruct (Z.leb_spec r (Hi cr)).
    + right. exists cr. split; [by left|lia].
    + destruct IH as [IH|(cr' & Hin & Hr)]; [by left|].
      right. exists cr'. split; [by right|done].
  - destruct IH as [IH|(cr' & Hin & Hr)]; [by left|].
    right. exists cr'. split; [by right|done].
Qed.

(** Every rune of a range of the table is mapped to a rune that the table
    leaves alone. *)
Lemma CaseRanges_settled :
  forallb (fun cr => all_from settled (Z.to_nat (Hi cr - Lo cr + 1)) (Lo cr))
    CaseRanges = true.
Proof. vm_compute. reflexivity. Qed.

Lemma ASCII_settled : all_from settled 128 0 = true.
Proof. vm_compute. reflexivity. Qed.

(** [unicode.ToLower] keeps runes valid and maps no rune twice. *)
Lemma ToLower_settled (r : Z) :
  ValidRune r = true ->
  ValidRune (ToLower r) = true /\ ToLower (ToLower r) = ToLower r.
Proof.
  intros Hv.
  assert (Hs : settled r = true ->
               ValidRune (ToLower r) = true
               /\ ToLower (ToLower r) = ToLower r).
  { unfold settled. rewrite andb_true_iff, Z.eqb_eq. tauto. }
  destruct (Z.leb_spec r MaxASCII) as [Hle|Hgt].
  - apply Hs. apply (all_from_spec _ _ _ ASCII_settled).
    unfold ValidRune in Hv. unfold MaxASCII in Hle.
    apply orb_true_iff in Hv as [Hv|Hv]; apply andb_true_iff in Hv as [H1 H2].
    + apply Z.leb_le in H1. lia.
    + apply Z.ltb_lt in H1. unfold surrogateMax in H1. lia.
  - assert (Hto : ToLower r = to r CaseRanges).
    { unfold ToLower. destruct (Z.leb_spec r MaxASCII); [lia|done]. }
    destruct (to_cases r CaseRanges) as [Heq|(cr & Hin & Hr)].
    + assert (Hid : ToLower r = r) by (by rewrite Hto).
      by rewrite !Hid.
    + apply Hs.
      pose proof CaseRanges_settled as Hall.
      rewrite forallb_forall in Hall. specialize (Hall cr Hin).
      apply (all_from_spec _ _ _ Hall). lia.
Qed.

End unicode_facts.

(** ** [strings.Map] and [strings.ToLower] *)
Module lower_facts.
Import utf8 utf8_facts unicode_facts strings.
#[local] Open Scope Z_scope.

Lemma ValidRune_nonneg (r : Z) : ValidRune r = true -> (0 <=? r) = true.
Proof. rewrite ValidRune_spec, Z.leb_le. lia. Qed.

(** The runes of a mapped string are the mapped runes. *)
Lemma runes_Map (mapping : Z -> Z) (s : string) :
  (forall r, ValidRune r = true -> ValidRune (mapping r) = true) ->
  runes (Map mapping s) = mapping <$> runes s.
Proof.
  intros Hm. unfold Map.
  induction (runes_valid s) as [|r l Hr _ IH]; [done|].
  cbn [foldr fmap list_fmap]. cbv zeta.
  rewrite (ValidRune_nonneg _ (Hm r Hr)).
  by rewrite runes_EncodeRune, IH by auto.
Qed.

Lemma Map_idemp (mapping : Z -> Z) (s : string) :
  (forall r, ValidRune r = true ->
             ValidRune (mapping r) = true
             /\ mapping (mapping r) = mapping r) ->
  Map mapping (Map mapping s) = Map mapping s.
Proof.
  intros Hm. unfold Map at 1.
  rewrite runes_Map by (intros r Hr; by apply Hm).
  unfold Map.
  induction (runes_valid s) as [|r l Hr _ IH]; [done|].
  cbn [foldr fmap list_fmap]. cbv zeta.
  destruct (Hm r Hr) as [Hv ->]. by rewrite IH.
Qed.

(** On ASCII text [Map unicode.ToLower] is the byte-wise lower-casing, so
    the two paths of [ToLower] agree. *)
Lemma ascii_cases (P : ascii -> Prop) :
  (forall b0 b1 b2 b3 b4 b5 b6, P (Ascii b0 b1 b2 b3 b4 b5 b6 false)) ->
  forall a, (byte a <? RuneSelf) = true -> P a.
Proof.
  intros H [b0 b1 b2 b3 b4 b5 b6 [|]]; [|by auto].
  intros Hlt. exfalso. revert Hlt.
  by destruct b0, b1, b2, b3, b4, b5, b6.
Qed.

Lemma runes_ascii (a : ascii) (s : string) :
  (byte a <? RuneSelf) = true -> runes (String a s) = byte a :: runes s.
Proof.
  intros Ha. rewrite runes_step by done.
  assert (Hd : DecodeRuneInString (String a s) = (byte a, 1%nat)).
  { unfold DecodeRuneInString. cbn [String.length Nat.ltb Nat.leb at_ String.get].
    apply Z.ltb_lt in Ha. unfold RuneSelf in Ha.
    pose proof (byte_range a).
    destruct (first_cases (byte a)) as [[_ ->]|H']; [done|done|].
    exfalso. intuition lia. }
  by rewrite Hd.
Qed.

Lemma lower_ascii (a : ascii) :
  (byte a <? RuneSelf) = true ->
  EncodeRune (unicode.ToLower (byte a)) = String (lower_byte a) EmptyString.
Proof.
  revert a. apply ascii_cases. intros b0 b1 b2 b3 b4 b5 b6.
  by destruct b0, b1, b2, b3, b4, b5, b6.
Qed.

Lemma Map_ascii (s : string) :
  all (fun c => byte c <? RuneSelf) s = true ->
  Map unicode.ToLower s = lower_bytes s.
Proof.
  induction s as [|a s IH]; [done|]. cbn [all]. intros [Ha Hs]%andb_true_iff.
  unfold Map. rewrite (runes_ascii a s Ha). cbn [foldr]. cbv zeta.
  fold (Map unicode.ToLower s). rewrite (IH Hs).
  destruct (ToLower_settled (byte a)) as [Hv _].
  { apply ValidRune_spec. apply Z.ltb_lt in Ha. pose proof (byte_range a).
    unfold RuneSelf in Ha. lia. }
  rewrite (ValidRune_nonneg _ Hv). by rewrite (lower_ascii a Ha).
Qed.

Lemma lower_bytes_no_upper (s : string) :
  any (fun c => (65 <=? N_of_ascii c)%N && (N_of_ascii c <=? 90)%N) s = false ->
  lower_bytes s = s.
Proof.
  induction s as [|a s IH]; [done|]. cbn [any lower_bytes].
  intros [Ha Hs]%orb_false_iff. rewrite (IH Hs).
  unfold lower_byte. by rewrite Ha.
Qed.

Lemma ToLower_Map (s : string) : ToLower s = Map unicode.ToLower s.
Proof.
  unfold ToLower.
  destruct (all _ s) eqn:Hascii; [|done].
  rewrite (Map_ascii s Hascii).
  destruct (any _ s) eqn:Hup; [done|].
  by rewrite lower_bytes_no_upper.
Qed.

(** On ASCII text [ToLower] works byte by byte. *)
Lemma ToLower_ascii (s : string) :
  all (fun c => byte c <? RuneSelf) s = true -> ToLower s = lower_bytes s.
Proof. intros H. by rewrite ToLower_Map, Map_ascii. Qed.

(** Lower-casing a lower-cased string changes nothing. *)
Lemma ToLower_idemp (s : string) : ToLower (ToLower s) = ToLower s.
Proof.
  rewrite !ToLower_Map. apply Map_idemp. apply ToLower_settled.
Qed.

End lower_facts.

(** * Properties *)

Lemma Ok_inj {T} (x y : T) : Ok x = Ok y → x = y.
Proof. by intros [= ->]. Qed.

(** ** Strings *)
Module strings_facts.
Import strings.

Lemma append_nil_r (s : string) : s +:+ EmptyString = s.
Proof. induction s as [|a s IH]; simpl; congruence. Qed.

Lemma append_assoc (s1 s2 s3 : string) :
  (s1 +:+ s2) +:+ s3 = s1 +:+ (s2 +:+ s3).
Proof. induction s1 as [|a s1 IH]; simpl; congruence. Qed.

Lemma length_append (s1 s2 : string) :
  String.length (s1 +:+ s2) = String.length s1 + String.length s2.
Proof. induction s1 as [|a s1 IH]; simpl; congruence. Qed.

Lemma all_append p (s1 s2 : string) :
  all p (s1 +:+ s2) = all p s1 && all p s2.
Proof.
  induction s1 as [|a s1 IH]; simpl; [done|].
  rewrite IH. by rewrite andb_assoc.
Qed.

Lemma any_append p (s1 s2 : string) :
  any p (s1 +:+ s2) = any p s1 || any p s2.
Proof.
  induction s1 as [|a s1 IH]; simpl; [done|].
  rewrite IH. by rewrite orb_assoc.
Qed.

Lemma all_impl (p q : ascii -> bool) (s : string) :
  (∀ a, p a = true → q a = true) → all p s = true → all q s = true.
Proof.
  intros Hpq. induction s as [|a s IH]; simpl; [done|].
  intros [Ha Hs]%andb_prop. rewrite (Hpq _ Ha). simpl. auto.
Qed.

(** A text whose bytes all satisfy [p] has no byte for which [p] fails. *)
Lemma all_not_any (p q : ascii -> bool) (s : string) :
  (∀ a, p a = true → q a = false) → all p s = true → any q s = false.
Proof.
  intros Hpq. induction s as [|a s IH]; simpl; [done|].
  intros [Ha Hs]%andb_prop. rewrite (Hpq _ Ha). simpl. auto.
Qed.

Lemma byte_eqb_eq (a b : ascii) : byte_eqb a b = true ↔ a = b.
Proof. apply Ascii.eqb_eq. Qed.

Lemma HasPrefix_append (p s : string) : HasPrefix (p +:+ s) p = true.
Proof.
  induction p as [|a p IH]; simpl; [done|].
  unfold byte_eqb. by rewrite Ascii.eqb_refl.
Qed.

Lemma drop_append (p s : string) : drop (String.length p) (p +:+ s) = s.
Proof. induction p as [|a p IH]; simpl; [by destruct s|done]. Qed.

Lemma TrimPrefix_append (p s : string) : TrimPrefix (p +:+ s) p = s.
Proof. unfold TrimPrefix. by rewrite HasPrefix_append, drop_append. Qed.

Lemma Cut_none (s : string) (c : ascii) :
  ContainsByte s c = false → Cut s c = (s, EmptyString, false).
Proof.
  unfold ContainsByte. induction s as [|a s IH]; simpl; [done|].
  intros [Ha Hs]%orb_false_elim. unfold byte_eqb in *.
  rewrite Ascii.eqb_sym, Ha. by rewrite (IH Hs).
Qed.

Lemma Cut_append (s1 s2 : string) (c : ascii) :
  ContainsByte s1 c = false →
  Cut (s1 +:+ String c s2) c = (s1, s2, true).
Proof.
  unfold ContainsByte. induction s1 as [|a s1 IH]; simpl.
  - intros _. unfold byte_eqb. by rewrite Ascii.eqb_refl.
  - intros [Ha Hs]%orb_false_elim. unfold byte_eqb in *.
    rewrite Ascii.eqb_sym, Ha. by rewrite (IH Hs).
Qed.

Lemma Split_none (s : string) (c : ascii) :
  ContainsByte s c = false → Split s c = [s].
Proof.
  unfold ContainsByte. induction s as [|a s IH]; simpl; [done|].
  intros [Ha Hs]%orb_false_elim. unfold byte_eqb in *.
  rewrite Ascii.eqb_sym, Ha. by rewrite (IH Hs).
Qed.

Lemma Split_append (s1 s2 : string) (c : ascii) :
  ContainsByte s1 c = false →
  Split (s1 +:+ String c s2) c = s1 :: Split s2 c.
Proof.
  unfold ContainsByte. induction s1 as [|a s1 IH]; simpl.
  - intros _. unfold byte_eqb. by rewrite Ascii.eqb_refl.
  - intros [Ha Hs]%orb_false_elim. unfold byte_eqb in *.
    rewrite Ascii.eqb_sym, Ha. by rewrite (IH Hs).
Qed.

(** Splitting never returns the empty list, and the number of parts is
    the number of separators plus one. *)
Lemma Split_length (s : string) (c : ascii) :
  length (Split s c) = S (CountByte s c).
Proof.
  induction s as [|a s IH]; simpl; [done|].
  destruct (byte_eqb a c); simpl; [by rewrite IH|].
  destruct (Split s c) as [|x r]; simpl in *; lia.
Qed.


Lemma last_byte_append (s1 s2 : string) :
  s2 ≠ EmptyString → last_byte (s1 +:+ s2) = last_byte s2.
Proof.
  intros Hne. induction s1 as [|a s1 IH]; simpl; [done|].
  destruct (s1 +:+ s2) eqn:Heq; [|done].
  destruct s1; simpl in Heq; [done|discriminate].
Qed.

Lemma last_byte_in (s : string) (a c : ascii) :
  last_byte s = Some a → ContainsByte s c = false → byte_eqb a c = false.
Proof.
  unfold ContainsByte. induction s as [|b s IH]; simpl; [done|].
  intros Hl [Hb Hs]%orb_false_elim. destruct s as [|b' s'].
  - injection Hl as <-. unfold byte_eqb in *. by rewrite Ascii.eqb_sym.
  - by apply IH.
Qed.

Lemma HasSuffixByte_append_none (s1 s2 : string) (c : ascii) :
  s2 ≠ EmptyString → ContainsByte s2 c = false →
  HasSuffixByte (s1 +:+ s2) c = false.
Proof.
  intros Hne Hc. unfold HasSuffixByte. rewrite last_byte_append by done.
  destruct (last_byte s2) as [a|] eqn:Hl; [|done].
  by eapply last_byte_in.
Qed.

Lemma ContainsByte_append (s1 s2 : string) (c : ascii) :
  ContainsByte (s1 +:+ s2) c = ContainsByte s1 c || ContainsByte s2 c.
Proof. apply any_append. Qed.

End strings_facts.

(** ** base64: decoding inverts encoding *)
Module base64_facts.
Import base64.

Lemma dec_enc (n : N) : (n < 64)%N → dec (enc n) = Some n.
Proof.
  intros Hn. destruct n as [|p]; [reflexivity|].
  do 6 (destruct p as [p|p|]; try reflexivity; try lia).
Qed.

Lemma dec_pad : dec padChar = None.
Proof. reflexivity. Qed.

Lemma enc_not_newline (n : N) : (n < 64)%N → is_newline (enc n) = false.
Proof.
  intros Hn. destruct n as [|p]; [reflexivity|].
  do 6 (destruct p as [p|p|]; try reflexivity; try lia).
Qed.

Lemma byte_N_of_ascii (a : ascii) : byte (N_of_ascii a) = a.
Proof.
  unfold byte. rewrite N.mod_small by apply N_ascii_bounded.
  apply ascii_N_embedding.
Qed.

Lemma div_mul_add (a b c : N) : (b < c → (a * c + b) / c = a)%N.
Proof.
  intros Hb. rewrite N.add_comm, N.div_add by lia.
  rewrite N.div_small by done. lia.
Qed.

Lemma mod_mul_add (a b c : N) : (b < c → (a * c + b) mod c = b)%N.
Proof.
  intros Hb. rewrite N.add_comm, N.Div0.mod_add. by apply N.mod_small.
Qed.

Lemma div_lt (x c d : N) : (0 < c → x < c * d → x / c < d)%N.
Proof. intros. by apply N.Div0.div_lt_upper_bound. Qed.

Lemma mod_lt (x c : N) : (0 < c → x mod c < c)%N.
Proof. intros. apply N.mod_lt. lia. Qed.

Lemma recompose (x c : N) : (0 < c → x / c * c + x mod c = x)%N.
Proof. intros. rewrite (N.div_mod x c) at 3 by lia. lia. Qed.

(** The three bytes of a quantum are recovered from its four sextets. *)
Lemma quantum_bytes (x y z : N) :
  (x < 256 → y < 256 → z < 256 →
   x / 4 * 4 + ((x mod 4) * 16 + y / 16) / 16 = x
   ∧ (((x mod 4) * 16 + y / 16) mod 16) * 16
       + ((y mod 16) * 4 + z / 64) / 4 = y
   ∧ (((y mod 16) * 4 + z / 64) mod 4) * 64 + z mod 64 = z)%N.
Proof.
  intros Hx Hy Hz.
  assert (y / 16 < 16)%N by (apply div_lt; lia).
  assert (z / 64 < 4)%N by (apply div_lt; lia).
  rewrite !div_mul_add, !mod_mul_add by done.
  rewrite !recompose by lia. done.
Qed.

Lemma quantum_bytes_pad (x y : N) :
  (x < 256 → y < 256 →
   x / 4 * 4 + ((x mod 4) * 16) / 16 = x
   ∧ (((x mod 4) * 16 + y / 16) mod 16) * 16 + ((y mod 16) * 4) / 4 = y)%N.
Proof.
  intros Hx Hy.
  assert (y / 16 < 16)%N by (apply div_lt; lia).
  rewrite !N.div_mul, !mod_mul_add by lia.
  rewrite !recompose by lia. done.
Qed.

Lemma sextet_bounds (x y z : N) :
  (x < 256 → y < 256 → z < 256 →
   x / 4 < 64 ∧ (x mod 4) * 16 + y / 16 < 64
   ∧ (y mod 16) * 4 + z / 64 < 64 ∧ z mod 64 < 64
   ∧ (x mod 4) * 16 < 64 ∧ (y mod 16) * 4 < 64)%N.
Proof.
  intros Hx Hy Hz.
  assert (x / 4 < 64)%N by (apply div_lt; lia).
  assert (y / 16 < 16)%N by (apply div_lt; lia).
  assert (z / 64 < 4)%N by (apply div_lt; lia).
  assert (x mod 4 < 4)%N by (apply mod_lt; lia).
  assert (y mod 16 < 16)%N by (apply mod_lt; lia).
  assert (z mod 64 < 64)%N by (apply mod_lt; lia).
  lia.
Qed.

(** Induction over a byte string three bytes at a time, as the encoder
    reads it. *)
Lemma string_triples_ind (P : string → Prop) :
  P EmptyString →
  (∀ a, P (String a EmptyString)) →
  (∀ a b, P (String a (String b EmptyString))) →
  (∀ a b c s, P s → P (String a (String b (String c s)))) →
  ∀ s, P s.
Proof.
  intros H0 H1 H2 H3.
  assert (Hall : ∀ s, P s ∧ (∀ a, P (String a s))
                      ∧ (∀ a b, P (String a (String b s)))).
  { induction s as [|c s (IH0 & IH1 & IH2)]; [by auto|].
    split; [apply IH1|]. split; [intros a; apply IH2|].
    intros a b. by apply H3. }
  intros s. apply Hall.
Qed.

(** The sextets of the bytes [a], [b], [c] are below 64. *)
Ltac sextets a b c :=
  pose proof (sextet_bounds (N_of_ascii a) (N_of_ascii b) (N_of_ascii c)
                (N_ascii_bounded a) (N_ascii_bounded b) (N_ascii_bounded c))
    as (? & ? & ? & ? & ? & ?).

Lemma sextet_bounds_1 (x : N) :
  (x < 256 → x / 4 < 64 ∧ (x mod 4) * 16 < 64)%N.
Proof.
  intros Hx. destruct (sextet_bounds x 0 0) as (? & ? & ? & ? & ? & ?); lia.
Qed.

Lemma sextet_bounds_2 (x y : N) :
  (x < 256 → y < 256 →
   x / 4 < 64 ∧ (x mod 4) * 16 + y / 16 < 64 ∧ (y mod 16) * 4 < 64)%N.
Proof.
  intros Hx Hy.
  destruct (sextet_bounds x y 0) as (? & ? & ? & ? & ? & ?); lia.
Qed.

Lemma strip_newlines_encode (s : string) :
  strip_newlines (EncodeToString s) = EncodeToString s.
Proof.
  induction s as [|a|a b|a b c s IH] using string_triples_ind; [done|..].
  - destruct (sextet_bounds_1 _ (N_ascii_bounded a)).
    cbn [EncodeToString strip_newlines].
    by rewrite !enc_not_newline.
  - destruct (sextet_bounds_2 _ _ (N_ascii_bounded a) (N_ascii_bounded b))
      as (? & ? & ?).
    cbn [EncodeToString strip_newlines].
    by rewrite !enc_not_newline.
  - sextets a b c. cbn [EncodeToString strip_newlines].
    rewrite !enc_not_newline by done. by rewrite IH.
Qed.

Lemma decodeQuanta_encode (s : string) :
  decodeQuanta (EncodeToString s) = Ok s.
Proof.
  induction s as [|a|a b|a b c s IH] using string_triples_ind; [done|..].
  - destruct (sextet_bounds_1 _ (N_ascii_bounded a)).
    pose proof (quantum_bytes_pad (N_of_ascii a) 0 (N_ascii_bounded a))
      as [Hx _]; [lia|].
    cbn [EncodeToString decodeQuanta].
    rewrite !dec_enc, dec_pad by done.
    change (Ascii.eqb padChar padChar) with true. cbn [andb String.eqb].
    by rewrite Hx, byte_N_of_ascii.
  - destruct (sextet_bounds_2 _ _ (N_ascii_bounded a) (N_ascii_bounded b))
      as (? & ? & ?).
    pose proof (quantum_bytes (N_of_ascii a) (N_of_ascii b) 0
                  (N_ascii_bounded a) (N_ascii_bounded b))
      as (Hx & _ & _); [lia|].
    pose proof (quantum_bytes_pad (N_of_ascii a) (N_of_ascii b)
                  (N_ascii_bounded a) (N_ascii_bounded b)) as [_ Hy].
    cbn [EncodeToString decodeQuanta].
    rewrite !dec_enc, dec_pad by done.
    change (Ascii.eqb padChar padChar) with true. cbn [andb String.eqb].
    by rewrite Hx, Hy, !byte_N_of_ascii.
  - sextets a b c.
    pose proof (quantum_bytes (N_of_ascii a) (N_of_ascii b) (N_of_ascii c)
                  (N_ascii_bounded a) (N_ascii_bounded b)
                  (N_ascii_bounded c)) as (Hx & Hy & Hz).
    cbn [EncodeToString decodeQuanta].
    rewrite !dec_enc by done. rewrite IH.
    by rewrite Hx, Hy, Hz, !byte_N_of_ascii.
Qed.

(** Decoding inverts encoding, for every byte string. *)
Lemma DecodeString_EncodeToString (s : string) :
  DecodeString (EncodeToString s) = Ok s.
Proof.
  unfold DecodeString. rewrite strip_newlines_encode.
  apply decodeQuanta_encode.
Qed.

(** The encoded text has four characters for every three bytes. *)
Lemma length_EncodeToString (s : string) :
  String.length (EncodeToString s) = 4 * ((String.length s + 2) / 3).
Proof.
  induction s as [|a|a b|a b c s IH] using string_triples_ind; [done..|].
  cbn [EncodeToString String.length]. rewrite IH.
  replace (S (S (S (String.length s))) + 2)
    with (1 * 3 + (String.length s + 2)) by lia.
  rewrite Nat.div_add_l by lia. lia.
Qed.

End base64_facts.

Module base64_alphabet.
Import base64 base64_facts.



Example standard_alphabet :
  enc 62 = "+"%char ∧ enc 63 = "/"%char
  ∧ base64char "-" = false ∧ base64char "_" = false.
Proof. by vm_compute. Qed.
End base64_alphabet.

(** ** net/url: escaping and query parsing *)
Module url_facts.
Import strings strings_facts url.

Lemma shouldEscape_query (c : ascii) :
  shouldEscape c encodeQueryComponent = negb (unreserved c).
Proof. revert c. by_bytes. Qed.

Lemma unreserved_qsafe (c : ascii) : unreserved c = true → qsafe c = true.
Proof. unfold qsafe. by intros ->. Qed.

Lemma unreserved_plain (c : ascii) :
  unreserved c = true →
  Ascii.eqb c "%" = false ∧ Ascii.eqb c "+" = false
  ∧ Ascii.eqb c " " = false.
Proof. revert c. by_bytes. Qed.

(** No separator of a URL or of a query is a byte of escaped text. *)
Lemma qsafe_plain (c : ascii) :
  qsafe c = true →
  byte_eqb "&" c = false ∧ byte_eqb "=" c = false ∧ byte_eqb ";" c = false
  ∧ byte_eqb "#" c = false ∧ byte_eqb "?" c = false ∧ isCTL c = false.
Proof. revert c. by_bytes. Qed.


Lemma upperhex_hex (n : N) :
  (n < 16)%N →
  ishex (upperhex n) = true ∧ unhex (upperhex n) = n
  ∧ unreserved (upperhex n) = true.
Proof.
  intros Hn. destruct n as [|p]; [by vm_compute|].
  repeat (destruct p as [p|p|]; try lia); by vm_compute.
Qed.

Lemma all_qsafe_escape (s : string) : all qsafe (QueryEscape s) = true.
Proof.
  unfold QueryEscape. induction s as [|c s IH]; [done|].
  cbn [escape is_query_mode]. rewrite andb_true_r.
  destruct (Ascii.eqb c " "); [by cbn [all]; rewrite IH|].
  rewrite shouldEscape_query.
  destruct (unreserved c) eqn:Hc; cbn [negb all].
  - by rewrite (unreserved_qsafe _ Hc), IH.
  - pose proof (N_ascii_bounded c).
    destruct (upperhex_hex (N_of_ascii c / 16)) as (_ & _ & H1);
      [by apply base64_facts.div_lt; lia|].
    destruct (upperhex_hex (N_of_ascii c mod 16)) as (_ & _ & H2);
      [by apply base64_facts.mod_lt; lia|].
    by rewrite (unreserved_qsafe _ H1), (unreserved_qsafe _ H2), IH.
Qed.

(** Unescaping inverts escaping, for every byte string. *)
Lemma QueryUnescape_QueryEscape (s : string) :
  QueryUnescape (QueryEscape s) = Ok s.
Proof.
  unfold QueryUnescape, QueryEscape. induction s as [|c s IH]; [done|].
  cbn [escape is_query_mode]. rewrite andb_true_r.
  destruct (Ascii.eqb c " ") eqn:Hsp.
  { apply Ascii.eqb_eq in Hsp as ->. cbn [unescape].
    change (Ascii.eqb "+" "%") with false. change (Ascii.eqb "+" "+") with true.
    cbn beta iota. by rewrite IH. }
  rewrite shouldEscape_query.
  destruct (unreserved c) eqn:Hc; cbn [negb].
  - destruct (unreserved_plain _ Hc) as (Hp & Hq & _).
    cbn [unescape]. rewrite Hp, Hq. cbn [is_host_mode andb].
    by rewrite IH.
  - pose proof (N_ascii_bounded c).
    destruct (upperhex_hex (N_of_ascii c / 16)) as (H1 & H1' & _);
      [by apply base64_facts.div_lt; lia|].
    destruct (upperhex_hex (N_of_ascii c mod 16)) as (H2 & H2' & _);
      [by apply base64_facts.mod_lt; lia|].
    cbn [unescape]. change (Ascii.eqb "%" "%") with true. cbn beta iota.
    rewrite H1, H2, H1', H2'. cbn [andb]. rewrite IH.
    rewrite base64_facts.recompose by lia. by rewrite ascii_N_embedding.
Qed.

Lemma QueryUnescape_unreserved (s : string) :
  all unreserved s = true → QueryUnescape s = Ok s.
Proof.
  unfold QueryUnescape. induction s as [|c s IH]; [done|].
  cbn [all]. intros [Hc Hs]%andb_prop.
  destruct (unreserved_plain _ Hc) as (Hp & Hq & _).
  cbn [unescape]. rewrite Hp, Hq. cbn [is_host_mode andb].
  by rewrite (IH Hs).
Qed.

Lemma qsafe_no (s : string) (c : ascii) :
  c ∈ ["&"; "="; ";"; "#"; "?"]%char → all qsafe s = true →
  ContainsByte s c = false.
Proof.
  intros Hc. apply all_not_any. intros a Ha.
  destruct (qsafe_plain _ Ha) as (? & ? & ? & ? & ? & ?).
  set_unfold. by destruct Hc as [->|[->|[->|[->|[->|[]]]]]].
Qed.


End url_facts.

(** ** net/url: parsing a query of well-formed parameters *)
Module query_facts.
Import strings strings_facts url url_facts.

Lemma Join_cons (x y : string) (r : list string) (sep : string) :
  Join (x :: y :: r) sep = x +:+ sep +:+ Join (y :: r) sep.
Proof. reflexivity. Qed.

Lemma Split_Join (segs : list string) (c : ascii) :
  segs ≠ [] →
  Forall (fun s => ContainsByte s c = false) segs →
  Split (Join segs (String c EmptyString)) c = segs.
Proof.
  induction segs as [|x [|y r] IH]; [done|..].
  - intros _ [Hx _]%Forall_cons. by apply Split_none.
  - intros _ [Hx Hr]%Forall_cons. rewrite Join_cons.
    change (String c "" +:+ Join (y :: r) (String c ""))
      with (String c (Join (y :: r) (String c ""))).
    rewrite Split_append by done. f_equal. by apply IH.
Qed.

Lemma pairText_no (kv : string * string) (c : ascii) :
  c ∈ ["&"; ";"]%char →
  all qsafe kv.1 = true → all qsafe kv.2 = true →
  ContainsByte (pairText kv) c = false.
Proof.
  intros Hc H1 H2. unfold pairText.
  assert (Hc' : c ∈ ["&"; "="; ";"; "#"; "?"]%char) by set_solver.
  rewrite ContainsByte_append. unfold ContainsByte at 2. cbn [any].
  fold (ContainsByte kv.2 c).
  rewrite (qsafe_no _ _ Hc' H1), (qsafe_no _ _ Hc' H2).
  set_unfold. by destruct Hc as [->|[->|[]]].
Qed.

(** One turn of [parseQuery] on [key=value] with a plain key and an
    escaped value adds the decoded value under the key. *)
Lemma parsePair_ok (m : Values) (err : option error) (k rv v : string) :
  all unreserved k = true → all qsafe rv = true →
  QueryUnescape rv = Ok v →
  parsePair (m, err) (pairText (k, rv)) = (Add m k v, err).
Proof.
  intros Hk Hrv Hv. unfold parsePair.
  assert (Hkq : all qsafe k = true) by (eapply all_impl; [apply unreserved_qsafe|done]).
  rewrite (pairText_no (k, rv) ";") by (done || apply list_elem_of_further, list_elem_of_here).
  assert (String.eqb (pairText (k, rv)) EmptyString = false) as ->.
  { apply String.eqb_neq. unfold pairText. by destruct k. }
  unfold pairText. cbn [fst snd].
  rewrite Cut_append
    by (apply qsafe_no; [apply list_elem_of_further, list_elem_of_here|done]).
  by rewrite (QueryUnescape_unreserved k Hk), Hv.
Qed.

Lemma foldl_parsePair (raw dec : list (string * string)) (m : Values)
      (err : option error) :
  Forall2 well_formed raw dec →
  foldl parsePair (m, err) (pairText <$> raw) = (addAll m dec, err).
Proof.
  intros H. revert m. induction H as [|[k rv] [k' v] raw dec Hwf _ IH];
    intros m; [done|].
  destruct Hwf as (Hk & Hku & Hrv & Hv). cbn [fst snd] in *. subst k'.
  cbn [fmap list_fmap foldl]. rewrite (parsePair_ok m err k rv v) by done.
  apply IH.
Qed.

(** [ParseQuery] on the parameters joined with [&]: no error, and the
    decoded values in order. *)
Lemma ParseQuery_Join (raw dec : list (string * string)) :
  raw ≠ [] → Forall2 well_formed raw dec →
  ParseQuery (Join (pairText <$> raw) "&") = (addAll ∅ dec, None).
Proof.
  intros Hne H. unfold ParseQuery. rewrite Split_Join.
  - by apply foldl_parsePair.
  - by destruct raw.
  - apply Forall_fmap, Forall_forall. intros [k rv] Hin.
    apply list_elem_of_lookup in Hin as [i Hi].
    destruct (Forall2_lookup_l _ _ _ _ _ H Hi) as ([k' v] & _ & Hwf).
    destruct Hwf as (_ & Hku & Hrv & _). cbn [fst snd] in *.
    apply (pairText_no (k, rv) "&"); [apply list_elem_of_here| |done].
    eapply all_impl; [apply unreserved_qsafe|done].
Qed.

(** With distinct keys, every parameter is found under its key with
    exactly its value, and nothing else is in the map. *)
Lemma addAll_snoc (m : Values) (kvs : list (string * string)) kv :
  addAll m (kvs ++ [kv]) = Add (addAll m kvs) kv.1 kv.2.
Proof. unfold addAll. by rewrite foldl_app. Qed.

Lemma addAll_lookup_notin (kvs : list (string * string)) (k : string) :
  k ∉ kvs.*1 → addAll ∅ kvs !! k = None.
Proof.
  induction kvs as [|[k' v'] kvs IH] using rev_ind; [done|].
  rewrite fmap_app, not_elem_of_app. cbn. intros [Hk Hk'].
  rewrite addAll_snoc. unfold Add. cbn [fst snd].
  rewrite lookup_insert_ne by set_solver. by apply IH.
Qed.

Lemma addAll_lookup (kvs : list (string * string)) (k : string)
      (vs : list string) :
  NoDup kvs.*1 →
  addAll ∅ kvs !! k = Some vs ↔ ∃ v, vs = [v] ∧ (k, v) ∈ kvs.
Proof.
  induction kvs as [|[k' v'] kvs IH] using rev_ind.
  - intros _. split; [done|]. intros (v & _ & Hin). set_solver.
  - rewrite fmap_app. cbn. intros [Hnd [Hnotin _]]%NoDup_app.
    rewrite addAll_snoc. unfold Add. cbn [fst snd].
    assert (Hk' : k' ∉ kvs.*1) by (intros Hin; apply (Hnotin _ Hin); set_solver).
    destruct (decide (k' = k)) as [->|Hne].
    + rewrite lookup_insert_eq. rewrite addAll_lookup_notin by done. cbn.
      split.
      * intros [= <-]. exists v'. set_solver.
      * intros (v & -> & Hin). apply elem_of_app in Hin as [Hin|Hin].
        -- exfalso. apply Hk'. apply list_elem_of_fmap. by exists (k, v).
        -- set_solver.
    + rewrite lookup_insert_ne by done. rewrite (IH Hnd). split.
      * intros (v & -> & Hin). exists v. set_solver.
      * intros (v & -> & Hin). exists v. split; [done|].
        apply elem_of_app in Hin as [Hin|Hin]; [done|]. set_solver.
Qed.

End query_facts.

(** ** The query string of the generator *)
Module generator_facts.
Import strings strings_facts url url_facts query_facts.

Lemma queryStr_Join (G : token.GenEnv) (cid ak st : string) :
  token.queryStr G cid ak st
  = Join (pairText <$> queryPairs G cid ak st) "&".
Proof.
  unfold token.queryStr, queryPairs, pairText.
  destruct (negb (String.eqb st EmptyString));
    cbn [app fmap list_fmap Join fst snd];
    rewrite ?append_assoc, ?append_nil_r; simpl; reflexivity.
Qed.


Lemma Join_snoc (l : list string) (x sep : string) :
  l ≠ [] → Join (l ++ [x]) sep = Join l sep +:+ sep +:+ x.
Proof.
  induction l as [|a [|b r] IH]; [done|done|].
  intros _. change ((a :: b :: r) ++ [x]) with (a :: b :: (r ++ [x])).
  rewrite !Join_cons. change (b :: r ++ [x]) with ((b :: r) ++ [x]).
  rewrite IH by done. by rewrite !append_assoc.
Qed.

Lemma qchar_plain (c : ascii) :
  qchar c = true →
  byte_eqb "#" c = false ∧ byte_eqb "?" c = false ∧ isCTL c = false.
Proof. revert c. by_bytes. Qed.

Lemma qsafe_qchar (c : ascii) : qsafe c = true → qchar c = true.
Proof. unfold qchar. by intros ->. Qed.

Lemma all_qchar_Join (kvs : list (string * string)) :
  Forall (fun kv => all qsafe kv.1 = true ∧ all qsafe kv.2 = true) kvs →
  all qchar (Join (pairText <$> kvs) "&") = true.
Proof.
  assert (Hpair : ∀ kv : string * string,
             all qsafe kv.1 = true ∧ all qsafe kv.2 = true →
             all qchar (pairText kv) = true).
  { intros kv [H1 H2]. unfold pairText. rewrite all_append. cbn [all].
    rewrite (all_impl _ _ _ qsafe_qchar H1), (all_impl _ _ _ qsafe_qchar H2).
    done. }
  induction kvs as [|x [|y r] IH]; [done|..].
  - intros [Hx _]%Forall_cons. by apply Hpair.
  - intros [Hx Hr]%Forall_cons.
    change (pairText <$> x :: y :: r)
      with (pairText x :: pairText y :: (pairText <$> r)).
    rewrite Join_cons, !all_append, (Hpair _ Hx).
    change (pairText y :: (pairText <$> r)) with (pairText <$> y :: r).
    by rewrite IH.
Qed.

(** [url.Parse] on the presigned URL of the generator. *)
Lemma Parse_presigned (q : string) :
  q ≠ EmptyString → all qchar q = true →
  url.Parse (token.stsHost +:+ "?" +:+ q) = Ok (presignedURL q).
Proof.
  intros Hne Hq.
  assert (Hhash : ContainsByte q "#" = false).
  { eapply all_not_any; [|exact Hq]. intros a Ha. by apply qchar_plain. }
  assert (Hqm : ContainsByte q "?" = false).
  { eapply all_not_any; [|exact Hq]. intros a Ha. by apply qchar_plain. }
  assert (Hctl : stringContainsCTLByte q = false).
  { eapply all_not_any; [|exact Hq]. intros a Ha. by apply qchar_plain. }
  unfold url.Parse.
  rewrite Cut_none
    by (rewrite !ContainsByte_append, Hhash; reflexivity).
  change (String.eqb "" "") with true. cbn beta iota.
  unfold url.parse.
  assert (stringContainsCTLByte (token.stsHost +:+ "?" +:+ q) = false) as ->.
  { unfold stringContainsCTLByte. rewrite !any_append.
    fold (stringContainsCTLByte q). rewrite Hctl. reflexivity. }
  assert (String.eqb (token.stsHost +:+ "?" +:+ q) "*" = false) as ->
    by reflexivity.
  assert (getScheme true (token.stsHost +:+ "?" +:+ q)
          = HasScheme "https" ("//sts.aliyuncs.com/" +:+ "?" +:+ q)) as ->
    by reflexivity.
  assert (HasSuffixByte ("//sts.aliyuncs.com/" +:+ "?" +:+ q) "?" = false)
    as ->.
  { rewrite <- append_assoc. by apply HasSuffixByte_append_none. }
  cbn [andb].
  assert (Cut ("//sts.aliyuncs.com/" +:+ "?" +:+ q) "?"
          = ("//sts.aliyuncs.com/", q, true)) as ->
    by (change ("?" +:+ q) with (String "?" q); by rewrite Cut_append).
  reflexivity.
Qed.

End generator_facts.

(** ** The parameter loop of the verifier *)
Module verifier_facts.
Import strings strings_facts url url_facts query_facts generator_facts.
Import token.

(** When every key is allow-listed and single-valued the loop runs to its
    end and stores every value under the lower-cased key. *)
Lemma checkParams_ok (E : Env) (l : list (string * list string))
      (acc : Values) :
  Forall (fun kv => parameterWhitelist (ToLower kv.1) = true
                    ∧ length kv.2 = 1) l →
  checkParams E l acc = Ok (foldl lowerStep acc l).
Proof.
  intros H. revert acc. induction H as [|[k vs] l [Hw Hl] _ IH]; intros acc;
    [done|].
  cbn [checkParams fst snd] in *. rewrite Hw, Hl. cbn [negb Nat.eqb].
  apply IH.
Qed.

(** When the loop runs to its end it has stored every value under the
    lower-cased key, in the order of the visit. *)
Lemma checkParams_Ok (E : Env) (l : list (string * list string))
      (acc lowered : Values) :
  checkParams E l acc = Ok lowered → lowered = foldl lowerStep acc l.
Proof.
  revert acc. induction l as [|[k vs] l IH]; intros acc; cbn [checkParams foldl].
  - by intros [= <-].
  - destruct (negb (parameterWhitelist (ToLower k))); [done|].
    destruct (negb (Nat.eqb (length vs) 1)); [done|]. apply IH.
Qed.

(** A failing entry stops the loop with a [FormatError]. *)
Lemma checkParams_Err (E : Env) (l : list (string * list string))
      (acc : Values) (e : error) :
  checkParams E l acc = Err e → ∃ msg, e = FormatError msg.
Proof.
  revert acc. induction l as [|[k vs] l IH]; intros acc; [done|].
  cbn [checkParams].
  destruct (negb (parameterWhitelist (ToLower k))); [intros [= <-]; eauto|].
  destruct (negb (Nat.eqb (length vs) 1)); [intros [= <-]; eauto|].
  apply IH.
Qed.

Lemma lowerStep_other (l : list (string * list string)) (acc : Values)
      (x : string) :
  x ∉ ToLower <$> l.*1 → foldl lowerStep acc l !! x = acc !! x.
Proof.
  revert acc. induction l as [|[k vs] l IH]; intros acc; [done|].
  cbn. rewrite not_elem_of_cons. intros [Hx Hl].
  rewrite IH by done. unfold lowerStep, Set_. cbn [fst snd].
  by rewrite lookup_insert_ne.
Qed.

Lemma lowerStep_lookup (l : list (string * list string)) (acc : Values)
      (k : string) (vs : list string) :
  NoDup (ToLower <$> l.*1) → (k, vs) ∈ l →
  foldl lowerStep acc l !! ToLower k = Some [hd EmptyString vs].
Proof.
  revert acc. induction l as [|[k' vs'] l IH]; intros acc.
  - intros _ Hin. by apply not_elem_of_nil in Hin.
  - cbn. intros [Hnotin Hnd]%NoDup_cons [Heq|Hin]%elem_of_cons.
    + injection Heq as <- <-. rewrite lowerStep_other by done.
      unfold lowerStep, Set_. cbn [fst snd]. by rewrite lookup_insert_eq.
    + by apply IH.
Qed.

Lemma NoDup_fmap_inj_on {A B} (f : A → B) (l : list A) (x y : A) :
  NoDup (f <$> l) → x ∈ l → y ∈ l → f x = f y → x = y.
Proof.
  induction l as [|a l IH]; [by intros _ ?%not_elem_of_nil|].
  cbn. intros [Ha Hnd]%NoDup_cons [->|Hx]%elem_of_cons [->|Hy]%elem_of_cons Hf;
    [done| | |by apply IH].
  - exfalso. apply Ha. rewrite Hf. by apply list_elem_of_fmap_2.
  - exfalso. apply Ha. rewrite <- Hf. by apply list_elem_of_fmap_2.
Qed.

(** The loop over a query with distinct keys that stay distinct in lower
    case, all allow-listed: whatever the order of the visit, every
    parameter ends up under its lower-cased key. *)
Lemma checkParams_distinct (E : Env) (dec : list (string * string)) :
  range_fair E →
  NoDup (ToLower <$> dec.*1) →
  Forall (fun k => parameterWhitelist (ToLower k) = true) dec.*1 →
  ∃ lowered,
    checkParams E (range_order E (map_to_list (addAll ∅ dec))) ∅
    = Ok lowered
    ∧ ∀ k v, (k, v) ∈ dec → url.Get lowered (ToLower k) = v.
Proof.
  intros Hfair Hlow Hwl.
  assert (Hnd : NoDup dec.*1) by (by eapply NoDup_fmap_1).
  set (M := addAll ∅ dec).
  set (l := range_order E (map_to_list M)).
  assert (Hl : l ≡ₚ map_to_list M) by apply Hfair.
  assert (Hin : ∀ k vs, (k, vs) ∈ l → ∃ v, vs = [v] ∧ (k, v) ∈ dec).
  { intros k vs Hk. rewrite Hl in Hk.
    apply elem_of_map_to_list in Hk. by apply addAll_lookup in Hk. }
  exists (foldl lowerStep ∅ l). split.
  - apply checkParams_ok, Forall_forall. intros [k vs] Hk.
    destruct (Hin _ _ Hk) as (v & -> & Hv). split; [|done].
    rewrite Forall_forall in Hwl. apply Hwl.
    apply list_elem_of_fmap. by exists (k, v).
  - intros k v Hkv.
    assert (Hkl : (k, [v]) ∈ l).
    { rewrite Hl. apply elem_of_map_to_list. apply addAll_lookup; eauto. }
    unfold url.Get. rewrite (lowerStep_lookup l ∅ k [v]); [reflexivity| |exact Hkl].
    apply NoDup_fmap_2_strong.
    + intros k1 k2 Hk1 Hk2. apply (NoDup_fmap_inj_on _ _ _ _ Hlow).
      * apply list_elem_of_fmap in Hk1 as ([k1' vs1] & -> & H1).
        destruct (Hin _ _ H1) as (v1 & -> & Hv1).
        apply list_elem_of_fmap. by exists (k1', v1).
      * apply list_elem_of_fmap in Hk2 as ([k2' vs2] & -> & H2).
        destruct (Hin _ _ H2) as (v2 & -> & Hv2).
        apply list_elem_of_fmap. by exists (k2', v2).
    + rewrite Hl. apply NoDup_fst_map_to_list.
Qed.

Lemma extractIdentity_AccessKeyID (E : Env) (accessKeyId : string)
      (response : Response) (id : Identity) :
  extractIdentity E accessKeyId response = Ok id →
  AccessKeyID id = accessKeyId.
Proof.
  unfold extractIdentity.
  destruct (negb (StatusCode response =? 200)%Z).
  { by destruct (Body response). }
  destruct (Body response) as [body|]; [|done].
  destruct (json_Unmarshal E body) as [ci|]; [|done].
  destruct (Canonicalize E (w_Arn ci)) as [c [err|]]; [done|].
  destruct (Split (w_PrincipalID ci) ":") as [|u [|s [|]]];
    try done; by intros [= <-].
Qed.

End verifier_facts.

(** ** From the generator to the verifier *)
Module roundtrip_facts.
Import strings strings_facts url url_facts query_facts generator_facts.
Import verifier_facts.

Lemma hexdigit_unreserved (n : N) :
  (n < 16)%N → unreserved (uuid.hexdigit n) = true.
Proof.
  intros Hn. destruct n as [|p]; [by vm_compute|].
  repeat (destruct p as [p|p|]; try lia); by vm_compute.
Qed.

Lemma all_unreserved_hex (s : string) : all unreserved (uuid.hex s) = true.
Proof.
  induction s as [|c s IH]; [done|]. cbn [uuid.hex all].
  pose proof (N_ascii_bounded c).
  rewrite !hexdigit_unreserved, IH; [done|..].
  - apply base64_facts.mod_lt; lia.
  - apply base64_facts.div_lt; lia.
Qed.

Lemma all_unreserved_uuid (u : string) :
  all unreserved (uuid.String_ u) = true.
Proof.
  unfold uuid.String_. rewrite !all_append, !all_unreserved_hex. done.
Qed.

Lemma all_unreserved_qsafe (s : string) :
  all unreserved s = true → all qsafe s = true.
Proof. apply all_impl, unreserved_qsafe. Qed.

Lemma well_formed_plain (k v : string) :
  all unreserved k = true → all unreserved v = true →
  well_formed (k, v) (k, v).
Proof.
  intros Hk Hv. repeat split; [done|by apply all_unreserved_qsafe|].
  by apply QueryUnescape_unreserved.
Qed.

Lemma well_formed_escaped (k v : string) :
  all unreserved k = true → well_formed (k, QueryEscape v) (k, v).
Proof.
  intros Hk. repeat split; [done|apply all_qsafe_escape|].
  apply QueryUnescape_QueryEscape.
Qed.

Lemma signedPairs_well_formed (G : token.GenEnv) (cid ak st sig : string) :
  all unreserved ak = true → all unreserved cid = true →
  Forall2 well_formed (signedPairs G cid ak st sig)
          (signedValues G cid ak st sig).
Proof.
  intros Hak Hcid. unfold signedPairs, signedValues, queryPairs, queryValues.
  pose proof (all_unreserved_uuid (uuid.NewV4 (token.random G))).
  destruct (negb (String.eqb st EmptyString)); cbn [app];
    repeat first
      [ apply Forall2_nil_2
      | apply Forall2_cons_2;
        [ first [ by apply well_formed_plain
                | by apply well_formed_escaped ] | ] ].
Qed.

Lemma queryPairs_well_formed (G : token.GenEnv) (cid ak st : string) :
  all unreserved ak = true → all unreserved cid = true →
  Forall2 well_formed (queryPairs G cid ak st) (queryValues G cid ak st).
Proof.
  intros Hak Hcid.
  pose proof (signedPairs_well_formed G cid ak st EmptyString Hak Hcid) as H.
  unfold signedPairs, signedValues in H.
  apply Forall2_app_inv in H as [H _]; [done|].
  unfold queryPairs, queryValues.
  by destruct (negb (String.eqb st EmptyString)).
Qed.

Lemma signedQuery_Join (G : token.GenEnv) (cid ak st sig : string) :
  signedQuery G cid ak st sig
  = Join (pairText <$> signedPairs G cid ak st sig) "&".
Proof.
  unfold signedQuery, signedPairs. rewrite fmap_app.
  change (pairText <$> [("Signature", QueryEscape sig)])
    with [pairText ("Signature", QueryEscape sig)].
  rewrite Join_snoc.
  - by rewrite queryStr_Join.
  - unfold queryPairs. by destruct (negb (String.eqb st EmptyString)).
Qed.

Lemma signedQuery_nonempty (G : token.GenEnv) (cid ak st sig : string) :
  signedQuery G cid ak st sig ≠ EmptyString.
Proof. unfold signedQuery, token.queryStr. done. Qed.

Lemma all_qchar_signedQuery (G : token.GenEnv) (cid ak st sig : string) :
  all unreserved ak = true → all unreserved cid = true →
  all qchar (signedQuery G cid ak st sig) = true.
Proof.
  intros Hak Hcid. rewrite signedQuery_Join. apply all_qchar_Join.
  apply Forall_forall. intros [k rv] Hin.
  apply list_elem_of_lookup in Hin as [i Hi].
  destruct (Forall2_lookup_l _ _ _ _ _
              (signedPairs_well_formed G cid ak st sig Hak Hcid) Hi)
    as ([k' v] & _ & (_ & Hk & Hrv & _)).
  split; [by apply all_unreserved_qsafe|done].
Qed.

Lemma signedValues_keys (G : token.GenEnv) (cid ak st sig : string) :
  NoDup (ToLower <$> (signedValues G cid ak st sig).*1)
  ∧ Forall (fun k => token.parameterWhitelist (ToLower k) = true)
           (signedValues G cid ak st sig).*1.
Proof.
  unfold signedValues, queryValues.
  destruct (negb (String.eqb st EmptyString));
    cbn [app fmap list_fmap fst]; split;
    by apply (bool_decide_unpack _); vm_compute.
Qed.

Lemma signedValues_elems (G : token.GenEnv) (cid ak st sig : string) :
  ("Action", "GetCallerIdentity") ∈ signedValues G cid ak st sig
  ∧ ("ClusterId", cid) ∈ signedValues G cid ak st sig
  ∧ ("AccessKeyId", ak) ∈ signedValues G cid ak st sig.
Proof. unfold signedValues, queryValues. set_solver. Qed.

(** The query of the presigned URL parses without error into its
    parameters. *)
Lemma ParseQuery_signedQuery (G : token.GenEnv) (cid ak st sig : string) :
  all unreserved ak = true → all unreserved cid = true →
  ParseQuery (signedQuery G cid ak st sig)
  = (addAll ∅ (signedValues G cid ak st sig), None).
Proof.
  intros Hak Hcid. rewrite signedQuery_Join. apply ParseQuery_Join.
  - unfold signedPairs. by destruct (queryPairs G cid ak st).
  - by apply signedPairs_well_formed.
Qed.

Lemma ParseQuery_queryStr (G : token.GenEnv) (cid ak st : string) :
  all unreserved ak = true → all unreserved cid = true →
  ParseQuery (token.queryStr G cid ak st)
  = (addAll ∅ (queryValues G cid ak st), None).
Proof.
  intros Hak Hcid. rewrite queryStr_Join. apply ParseQuery_Join.
  - unfold queryPairs. by destruct (negb (String.eqb st EmptyString)).
  - by apply queryPairs_well_formed.
Qed.

(** The v1 branch of the verifier on the presigned URL of the generator:
    it passes every check and extracts the access key id. *)
Lemma parseV1Token_signed (G : token.GenEnv) (E : token.Env)
      (v : token.tokenVerifier) (cid ak st sig : string) :
  token.range_fair E →
  all unreserved ak = true → all unreserved cid = true →
  token.clusterID v = cid →
  token.parseV1Token E v
    (token.stsHost +:+ "?" +:+ signedQuery G cid ak st sig)
  = Ok (ak,
        token.Header_Set
          (token.NewRequest "GET"
             (url.setHost (presignedURL (signedQuery G cid ak st sig))
                          (token.stsEndpoint v)))
          "User-Agent" (token.userAgentV1 E)).
Proof.
  intros Hfair Hak Hcid Hv. unfold token.parseV1Token.
  rewrite Parse_presigned
    by (apply signedQuery_nonempty || by apply all_qchar_signedQuery).
  unfold presignedURL at 1 2 3 4. unfold url.setHost at 1 2.
  cbn [url.Scheme url.Host url.Path url.RawQuery].
  change (String.eqb "https" "https") with true. cbn [negb].
  assert (token.verifyHost E v "sts.aliyuncs.com" = None) as -> by reflexivity.
  change (String.eqb "/" "/") with true.
  cbn [negb]. unfold url.Query. cbn [url.RawQuery].
  change (RawQuery (presignedURL (signedQuery G cid ak st sig)))
    with (signedQuery G cid ak st sig).
  rewrite ParseQuery_signedQuery by done. cbn [fst].
  destruct (signedValues_keys G cid ak st sig) as [Hnd Hwl].
  destruct (checkParams_distinct E _ Hfair Hnd Hwl) as (lowered & -> & Hget).
  destruct (signedValues_elems G cid ak st sig) as (Ha & Hc & Hk).
  rewrite (Hget _ _ Ha : url.Get lowered "action" = _).
  rewrite (Hget _ _ Hc : url.Get lowered "clusterid" = _).
  rewrite (Hget _ _ Hk : url.Get lowered "accesskeyid" = _).
  change (String.eqb "GetCallerIdentity" "GetCallerIdentity") with true.
  cbn [negb]. unfold token.verifyClusterID. rewrite Hv, String.eqb_refl.
  reflexivity.
Qed.

End roundtrip_facts.

Module token_facts.
Import strings strings_facts roundtrip_facts verifier_facts.
Import token.

Lemma v1_not_v2 (x : string) : HasPrefix (v1Prefix +:+ x) v2Prefix = false.
Proof. reflexivity. Qed.

Lemma TrimPrefix_payload (x : string) :
  TrimPrefix (base64.EncodeToString (stsHost +:+ x)) v2Prefix
  = base64.EncodeToString (stsHost +:+ x).
Proof.
  unfold TrimPrefix.
  assert (HasPrefix (base64.EncodeToString (stsHost +:+ x)) v2Prefix = false)
    as -> by reflexivity.
  reflexivity.
Qed.

(** A token longer than the limit is rejected before anything else. *)
Lemma Verify_too_large (E : Env) (v : tokenVerifier) (t : string) :
  maxTokenLenBytes < String.length t →
  Verify E v t = ([], Err (FormatError "token is too large")).
Proof.
  intros Hlen. unfold Verify, parseToken.
  by rewrite (proj2 (Nat.ltb_lt _ _) Hlen).
Qed.

(** The token wrapping the presigned URL of the generator is parsed by
    the verifier into the access key id of the generator and a request. *)
Lemma parseToken_signed (G : GenEnv) (E : Env) (v : tokenVerifier)
      (cid ak st sig : string) :
  range_fair E →
  all unreserved ak = true → all unreserved cid = true →
  clusterID v = cid →
  let t := v1Prefix +:+ base64.EncodeToString
                          (stsHost +:+ "?" +:+ signedQuery G cid ak st sig) in
  String.length t ≤ maxTokenLenBytes →
  parseToken E v t
  = Ok (ak,
        Header_Set
          (NewRequest "GET"
             (url.setHost (presignedURL (signedQuery G cid ak st sig))
                          (stsEndpoint v)))
          "User-Agent" (userAgentV1 E)).
Proof.
  intros Hfair Hak Hcid Hv t Hlen. unfold parseToken.
  rewrite (proj2 (Nat.ltb_ge _ _) Hlen). subst t.
  rewrite HasPrefix_append, v1_not_v2. cbn [negb andb].
  rewrite TrimPrefix_append, TrimPrefix_payload.
  rewrite base64_facts.DecodeString_EncodeToString.
  by apply parseV1Token_signed.
Qed.

End token_facts.

(** ** What the verifier rejects before it sends anything *)
Module reject_facts.
Import strings strings_facts verifier_facts.
Import token.

Lemma HasPrefix_split (s p : string) :
  HasPrefix s p = true → s = p +:+ drop (String.length p) s.
Proof.
  revert s. induction p as [|a p IH]; intros s; [done|].
  destruct s as [|b s]; [done|]. cbn [HasPrefix String.length drop].
  intros [Hb Hs]%andb_prop. apply byte_eqb_eq in Hb as ->.
  cbn [String.append]. f_equal. by apply IH.
Qed.

Lemma v1_prefix_not_v2 (t : string) :
  HasPrefix t v1Prefix = true → HasPrefix t v2Prefix = false.
Proof.
  intros H. rewrite (HasPrefix_split _ _ H). apply token_facts.v1_not_v2.
Qed.

Lemma verifyHost_Some (E : Env) (v : tokenVerifier) (host : string)
      (e : error) :
  verifyHost E v host = Some e →
  regexp.MatchString hostRegexp host = false ∧ ∃ msg, e = FormatError msg.
Proof.
  unfold verifyHost. destruct (regexp.MatchString hostRegexp host); [done|].
  intros [= <-]. eauto.
Qed.

Lemma verifyHost_None (E : Env) (v : tokenVerifier) (host : string) :
  verifyHost E v host = None → regexp.MatchString hostRegexp host = true.
Proof.
  unfold verifyHost. by destruct (regexp.MatchString hostRegexp host).
Qed.

Lemma verifyClusterID_Some (v : tokenVerifier) (cid : string) (e : error) :
  verifyClusterID v cid = Some e →
  clusterID v ≠ cid
  ∧ e = FormatError ("unexpected clusterid " +:+ cid +:+ " in token").
Proof.
  unfold verifyClusterID.
  destruct (String.eqb_spec (clusterID v) cid); [done|].
  by intros [= <-].
Qed.

(** The v1 branch, when it succeeds: the URL parsed, with the scheme
    [https] and a host matching the pattern, and the request goes to the
    configured endpoint. *)
Lemma parseV1Token_Ok (E : Env) (v : tokenVerifier) (tokenBytes : string)
      (accessKeyId : string) (req : Request) :
  parseV1Token E v tokenBytes = Ok (accessKeyId, req) →
  ∃ u, url.Parse tokenBytes = Ok u
       ∧ url.Scheme u = "https"
       ∧ regexp.MatchString hostRegexp (url.Host u) = true
       ∧ url.Path u = "/"
       ∧ req = Header_Set (NewRequest "GET" (url.setHost u (stsEndpoint v)))
                          "User-Agent" (userAgentV1 E).
Proof.
  unfold parseV1Token.
  destruct (url.Parse tokenBytes) as [u|]; [|done].
  destruct (String.eqb_spec (url.Scheme u) "https") as [Hs|]; [|done].
  cbn [negb].
  destruct (verifyHost E v (url.Host u)) as [e|] eqn:Hh; [done|].
  apply verifyHost_None in Hh.
  change (url.Path (url.setHost u (stsEndpoint v))) with (url.Path u).
  destruct (String.eqb_spec (url.Path u) "/") as [Hp|]; [|done].
  cbn [negb].
  destruct (checkParams E _ ∅) as [lowered|]; [|done].
  destruct (negb (String.eqb (url.Get lowered "action") _)); [done|].
  destruct (verifyClusterID v _); [done|].
  intros [= <- <-]. by exists u.
Qed.

(** Every failure of the v1 branch is a [FormatError]. *)
Lemma parseV1Token_Err (E : Env) (v : tokenVerifier) (tokenBytes : string)
      (e : error) :
  parseV1Token E v tokenBytes = Err e → ∃ msg, e = FormatError msg.
Proof.
  unfold parseV1Token.
  destruct (url.Parse tokenBytes) as [u|]; [|intros [= <-]; eauto].
  destruct (negb (String.eqb (url.Scheme u) "https"));
    [intros [= <-]; eauto|].
  destruct (verifyHost E v (url.Host u)) as [e'|] eqn:Hh.
  { apply verifyHost_Some in Hh as [_ [msg ->]]. intros [= <-]. eauto. }
  destruct (negb (String.eqb (url.Path _) "/")); [intros [= <-]; eauto|].
  destruct (checkParams E _ ∅) as [lowered|] eqn:Hc.
  2:{ apply checkParams_Err in Hc as [msg ->]. intros [= <-]. eauto. }
  destruct (negb (String.eqb (url.Get lowered "action") _));
    [intros [= <-]; eauto|].
  destruct (verifyClusterID v _) as [e'|] eqn:Hv; [|done].
  apply verifyClusterID_Some in Hv as [_ ->]. intros [= <-]. eauto.
Qed.

(** [parseToken] on a token with the v1 prefix. *)
Lemma parseToken_v1 (E : Env) (v : tokenVerifier) (t : string) :
  HasPrefix t v1Prefix = true →
  parseToken E v t
  = if (maxTokenLenBytes <? String.length t)%nat
    then Err (FormatError "token is too large")
    else match base64.DecodeString
                 (TrimPrefix (TrimPrefix t v1Prefix) v2Prefix) with
         | Err err => Err (FormatError (Error err))
         | Ok tokenBytes => parseV1Token E v tokenBytes
         end.
Proof.
  intros H1. unfold parseToken.
  by rewrite H1, (v1_prefix_not_v2 _ H1).
Qed.

Lemma parseToken_v1_Err (E : Env) (v : tokenVerifier) (t : string)
      (e : error) :
  HasPrefix t v1Prefix = true →
  parseToken E v t = Err e → ∃ msg, e = FormatError msg.
Proof.
  intros H1. rewrite parseToken_v1 by done.
  destruct (maxTokenLenBytes <? String.length t)%nat;
    [intros [= <-]; eauto|].
  destruct (base64.DecodeString _); [|intros [= <-]; eauto].
  apply parseV1Token_Err.
Qed.

(** An entry that is not allow-listed, or has several values, stops the
    loop with a [FormatError], wherever it is in the order of the visit. *)
Lemma checkParams_rejects (E : Env) (l : list (string * list string))
      (acc : url.Values) (k : string) (vs : list string) :
  (k, vs) ∈ l →
  parameterWhitelist (ToLower k) = false ∨ length vs ≠ 1 →
  ∃ msg, checkParams E l acc = Err (FormatError msg).
Proof.
  intros Hin Hbad. revert acc.
  induction l as [|[k' vs'] l IH]; intros acc.
  { by apply not_elem_of_nil in Hin. }
  cbn [checkParams].
  destruct (parameterWhitelist (ToLower k')) eqn:Hw; cbn [negb]; [|eauto].
  destruct (Nat.eqb_spec (length vs') 1) as [Hl|Hl]; cbn [negb]; [|eauto].
  apply elem_of_cons in Hin as [[= -> ->]|Hin].
  - destruct Hbad; congruence.
  - by apply IH.
Qed.

End reject_facts.

(** ** The parameter checks of the verifier on arbitrary v1 tokens *)
Module param_facts.
Import strings strings_facts verifier_facts reject_facts.
Import token.

(** X8: a query key that [url.Query] decodes and whose lower-cased form
    ([strings.ToLower], which case-maps every rune) is outside the
    allow-list, or that has several values, makes [Verify] return a
    [FormatError] without sending anything, in every order of the visit. *)
Lemma Verify_rejects_bad_parameter (E : Env) (v : tokenVerifier)
      (t : string) (u : url.URL) (k : string) (vs : list string) :
  range_fair E →
  HasPrefix t v1Prefix = true →
  decodedURL t = Ok u →
  url.Query u !! k = Some vs →
  parameterWhitelist (ToLower k) = false ∨ length vs ≠ 1 →
  ∃ msg, Verify E v t = ([], Err (FormatError msg)).
Proof.
  intros Hfair H1 Hu Hk Hbad. unfold Verify.
  destruct (parseToken E v t) as [[ak req]|e] eqn:Hp.
  2:{ apply parseToken_v1_Err in Hp as [msg ->]; by eauto. }
  exfalso. rewrite parseToken_v1 in Hp by done. unfold decodedURL in Hu.
  destruct (maxTokenLenBytes <? String.length t)%nat; [done|].
  destruct (base64.DecodeString _) as [tokenBytes|]; [|done].
  unfold parseV1Token in Hp. rewrite Hu in Hp.
  destruct (negb (String.eqb (url.Scheme u) "https")); [done|].
  destruct (verifyHost E v (url.Host u)); [done|].
  destruct (negb (String.eqb (url.Path _) "/")); [done|].
  change (url.Query (url.setHost u (stsEndpoint v))) with (url.Query u) in Hp.
  destruct (checkParams_rejects E
              (range_order E (map_to_list (url.Query u))) ∅ k vs)
    as [msg Hmsg]; [|done|].
  { rewrite (Hfair _). by apply elem_of_map_to_list. }
  by rewrite Hmsg in Hp.
Qed.

(** X9: when no two query keys share a lower-cased form (under
    [strings.ToLower], which case-maps every rune), a parameter whose key is
    [action] in lower case with a value other than [GetCallerIdentity], or
    one whose key is [clusterid] in lower case with a value other than the
    configured cluster id, makes [Verify] return a [FormatError] without
    sending anything. *)
Lemma Verify_rejects_action_or_cluster (E : Env) (v : tokenVerifier)
      (t : string) (u : url.URL) (k value : string) :
  range_fair E →
  HasPrefix t v1Prefix = true →
  decodedURL t = Ok u →
  NoDup (ToLower <$> (map_to_list (url.Query u)).*1) →
  url.Query u !! k = Some [value] →
  (ToLower k = "action" ∧ value ≠ "GetCallerIdentity")
  ∨ (ToLower k = "clusterid" ∧ value ≠ clusterID v) →
  ∃ msg, Verify E v t = ([], Err (FormatError msg)).
Proof.
  intros Hfair H1 Hu Hnd Hk Hbad. unfold Verify.
  destruct (parseToken E v t) as [[ak req]|e] eqn:Hp.
  2:{ apply parseToken_v1_Err in Hp as [msg ->]; by eauto. }
  exfalso. rewrite parseToken_v1 in Hp by done. unfold decodedURL in Hu.
  destruct (maxTokenLenBytes <? String.length t)%nat; [done|].
  destruct (base64.DecodeString _) as [tokenBytes|]; [|done].
  unfold parseV1Token in Hp. rewrite Hu in Hp.
  destruct (negb (String.eqb (url.Scheme u) "https")); [done|].
  destruct (verifyHost E v (url.Host u)); [done|].
  destruct (negb (String.eqb (url.Path _) "/")); [done|].
  change (url.Query (url.setHost u (stsEndpoint v))) with (url.Query u) in Hp.
  set (l := range_order E (map_to_list (url.Query u))) in *.
  assert (Hl : l ≡ₚ map_to_list (url.Query u)) by apply Hfair.
  destruct (checkParams E l ∅) as [lowered|] eqn:Hc; [|done].
  assert (Hlow := checkParams_Ok _ _ _ _ Hc).
  assert (Hget : url.Get lowered (ToLower k) = value).
  { unfold url.Get. rewrite Hlow.
    rewrite (lowerStep_lookup l ∅ k [value]); [done| |].
    - by rewrite Hl.
    - rewrite Hl. by apply elem_of_map_to_list. }
  destruct Hbad as [[Hka Hva]|[Hkc Hvc]].
  - rewrite Hka in Hget. rewrite Hget in Hp.
    by destruct (String.eqb_spec value "GetCallerIdentity").
  - rewrite Hkc in Hget. rewrite Hget in Hp.
    destruct (negb (String.eqb (url.Get lowered "action") _)); [done|].
    unfold verifyClusterID in Hp.
    by destruct (String.eqb_spec (clusterID v) value).
Qed.

End param_facts.

(** ** The dynamic mapping file *)
Module file_facts.
Import dynamicfile.

Lemma waitUntilFileAvailable_found (E : Env) (k fuel n : nat) :
  (∀ i, i < k → stat E (n + i) = StatNotExist) →
  stat E (n + k) = StatOk → k < fuel →
  waitUntilFileAvailable E fuel n = Some None.
Proof.
  revert fuel n. induction k as [|k IH]; intros fuel n Hbefore Hk Hfuel.
  - destruct fuel as [|fuel]; [lia|]. cbn [waitUntilFileAvailable].
    rewrite Nat.add_0_r in Hk. by rewrite Hk.
  - destruct fuel as [|fuel]; [lia|]. cbn [waitUntilFileAvailable].
    pose proof (Hbefore 0 ltac:(lia)) as H0. rewrite Nat.add_0_r in H0.
    rewrite H0. apply IH; [|by rewrite Nat.add_succ_comm|lia].
    intros i Hi. rewrite Nat.add_succ_comm. apply Hbefore. lia.
Qed.

Lemma parseUsers_spec (l : list config.UserMapping) (errs : list error)
      (acc : list config.UserMapping) :
  parseUsers l errs acc
  = (errs ++ replicate (length (List.filter lacksUserARN l)) userarnError,
     acc ++ List.filter (fun u => negb (lacksUserARN u)) l).
Proof.
  unfold lacksUserARN. revert errs acc.
  induction l as [|u l IH]; intros errs acc.
  - cbn. by rewrite !app_nil_r.
  - cbn [parseUsers List.filter].
    destruct (String.eqb (config.UserARN u) ""); cbn [negb];
      rewrite IH; cbn [length replicate]; by rewrite <- !app_assoc.
Qed.

Lemma parseRoles_spec (l : list config.RoleMapping) (errs : list error)
      (acc : list config.RoleMapping) :
  parseRoles l errs acc
  = (errs ++ replicate (length (List.filter lacksRoleARN l)) rolearnError,
     acc ++ List.filter (fun r => negb (lacksRoleARN r)) l).
Proof.
  unfold lacksRoleARN. revert errs acc.
  induction l as [|r l IH]; intros errs acc.
  - cbn. by rewrite !app_nil_r.
  - cbn [parseRoles List.filter].
    destruct (String.eqb (config.RoleARN r) ""); cbn [negb];
      rewrite IH; cbn [length replicate]; by rewrite <- !app_assoc.
Qed.

(** [ParseMap] on a file that decodes: the entries with an ARN, the
    accounts, and an error exactly when some entry has none. *)
Lemma ParseMap_decoded (E : Env) (content : string) (data : DynamicFileData) :
  ReadFile E = Ok content → json_Unmarshal E content = Ok data →
  ParseMap E
  = (List.filter (fun u => negb (lacksUserARN u)) (UserMappings data),
     List.filter (fun r => negb (lacksRoleARN r)) (RoleMappings data),
     AutoMappedAlibabaCloudAccounts data,
     if (0 <? length (complaints data))%nat
     then Some (ErrParsingMap (complaints data)) else None).
Proof.
  intros Hread Hjson. unfold ParseMap. rewrite Hread, Hjson.
  rewrite parseUsers_spec, parseRoles_spec. cbn [app]. reflexivity.
Qed.

(** The last entry stored under a key is the one found there. *)
Lemma foldl_insert_last {A} (key : A → string) (l1 l2 : list A) (x : A)
      (m0 : gmap string A) :
  Forall (fun y => key y ≠ key x) l2 →
  foldl (fun m y => <[key y := y]> m) m0 (l1 ++ x :: l2) !! key x = Some x.
Proof.
  intros Hl2. rewrite foldl_app. cbn [foldl].
  generalize (foldl (fun m y => <[key y := y]> m) m0 l1). intros m.
  assert (Hm : <[key x := x]> m !! key x = Some x) by apply lookup_insert_eq.
  revert Hm. generalize (<[key x := x]> m). clear m.
  induction Hl2 as [|y l2 Hy _ IH]; intros m Hm; [done|].
  cbn [foldl]. apply IH. by rewrite lookup_insert_ne.
Qed.

Lemma arn_Canonicalize_empty_on_error : empty_on_error arn.Canonicalize.
Proof.
  intros s e. unfold arn.Canonicalize.
  destruct (strings.Split s ":") as [|? [|? [|? [|? [|? [|]]]]]]; try done.
  destruct (_ && _); [|done].
  destruct (strings.Split _ "/") as [|kind rest]; [done|].
  destruct (String.eqb kind "assumed-role").
  { by destruct rest as [|? [|]]. }
  by destruct (_ || _).
Qed.

End file_facts.

(** * The properties of the specification *)

(** ** The CRD mapper and accounts *)

(** C9: for every account id, [IsAccountAllowed] of the CRD mapper is
    [false]; in a logical OR with the answers of the other mappers it
    contributes nothing. *)
Theorem C9_crd_never_allows_account (m : crd.CRDMapper) (accountID : string) :
  crd.IsAccountAllowed m accountID = false
  ∧ ∀ others : bool,
      others || crd.IsAccountAllowed m accountID = others
      ∧ crd.IsAccountAllowed m accountID || others = others.
Proof.
  split; [reflexivity|]. intros others. unfold crd.IsAccountAllowed.
  by rewrite orb_false_r.
Qed.

(** ** The endpoint of the generator *)

(** The endpoint handed to the STS client is the one resolved from the
    options, with or without the credential cache. *)
Lemma newClient_Endpoint (G : token.GenEnv) (g : token.generator)
      (options : token.GetTokenOptions) (cred : token.Credential) :
  token.Endpoint (token.newClient G g options cred)
  = token.resolveEndpoint G options.
Proof.
  unfold token.newClient. destruct (token.cache g); [|done].
  by destruct (token.fileCacheCredential _ _ _ _ _) as [[]|].
Qed.

(** C7, the resolution of the region as the code has it: the region is the
    one of the options or, when that is empty, the one of the instance
    metadata.  Without any region the endpoint of the STS client is
    ["sts.aliyuncs.com"]; with a region it is not, and it names the host
    ["sts-vpc.<region>.aliyuncs.com"] of that region. *)
Theorem C7_endpoint (G : token.GenEnv) (g : token.generator)
        (options : token.GetTokenOptions) (cred : token.Credential) :
  let region :=
    if String.eqb (token.Region options) EmptyString
    then token.metaRegionID G else token.Region options in
  let endpoint := token.Endpoint (token.newClient G g options cred) in
  (region = EmptyString → endpoint = "sts.aliyuncs.com")
  ∧ (region ≠ EmptyString →
     endpoint ≠ "sts.aliyuncs.com"
     ∧ ∃ before,
         endpoint = before +:+ "sts-vpc." +:+ region +:+ ".aliyuncs.com").
Proof.
  lazy zeta. rewrite newClient_Endpoint.
  unfold token.resolveEndpoint, token.vpcStsEndpoint.
  set (region := if String.eqb (token.Region options) "" then _ else _).
  destruct (String.eqb_spec region "") as [Hr|Hr].
  - split; [done|]. intros Hne. by destruct Hne.
  - split; [done|]. intros _. split; [discriminate|].
    by exists "https://".
Qed.

(** C7 as stated fails: the options give no region, the instance metadata
    give [cn-hangzhou], and the endpoint is not the default one. *)
Lemma C7_counterexample :
  let options := {| token.Region := ""; token.ClusterID := "c123";
                    token.AssumeRoleARN := "" |} in
  let endpoint :=
    token.Endpoint
      (token.newClient (examples.G "cn-hangzhou") examples.g options
         (examples.credential "LTAI5txxxxxxxxxxxxxxxxxx" "")) in
  token.Region options = ""
  ∧ endpoint ≠ "sts.aliyuncs.com"
  ∧ ∃ before, endpoint = before +:+ "sts-vpc.cn-hangzhou.aliyuncs.com".
Proof.
  cbv zeta. split; [reflexivity|]. split; [discriminate|].
  by exists "https://".
Qed.

(** ** The token of the generator *)




(** ** From the generator to the verifier *)

(** C1, as the code has it: when the access key id and the cluster id are
    made of letters, digits and [-_.~], [GetWithSTS] returns a token; the
    generator does not bound its length.  If the token is at most 4096 bytes
    long, [Verify] with the same cluster id passes every check, sends one
    request, and any identity it returns carries the access key id of the
    generator; a longer token is rejected as too large. *)
Theorem C1_generated_token_verifies
        (G : token.GenEnv) (E : token.Env) (g : token.generator)
        (v : token.tokenVerifier) (stsClient : token.Client)
        (clusterID : string) (accessKey accessSecret securityToken : option string) :
  token.range_fair E →
  token.GetAccessKeyId (token.Credential_ stsClient) = Ok accessKey →
  token.GetAccessKeySecret (token.Credential_ stsClient) = Ok accessSecret →
  token.GetSecurityToken (token.Credential_ stsClient) = Ok securityToken →
  strings.all unreserved (token.StringValue accessKey) = true →
  strings.all unreserved clusterID = true →
  token.clusterID v = clusterID →
  ∃ tok,
    token.GetWithSTS G g clusterID stsClient = Ok tok
    ∧ (String.length (token.Token_ tok) ≤ token.maxTokenLenBytes →
       ∃ req,
         token.parseToken E v (token.Token_ tok)
         = Ok (token.StringValue accessKey, req)
         ∧ (token.Verify E v (token.Token_ tok)).1
           = [token.Header_Set req "accept" "application/json"]
         ∧ ∀ id, (token.Verify E v (token.Token_ tok)).2 = Ok id →
                 token.AccessKeyID id = token.StringValue accessKey)
    ∧ (token.maxTokenLenBytes < String.length (token.Token_ tok) →
       token.Verify E v (token.Token_ tok)
       = ([], Err (FormatError "token is too large"))).
Proof.
  intros Hfair Hak Hsecret Hst Hakc Hcidc Hv.
  unfold token.GetWithSTS. rewrite Hak, Hsecret, Hst.
  rewrite roundtrip_facts.ParseQuery_queryStr by done.
  eexists. split; [reflexivity|].
  lazy beta iota delta [token.Token_].
  set (sig := token.signature _ _).
  change (token.getCallerIdentityURL
            (token.queryStr G clusterID (token.StringValue accessKey)
               (token.StringValue securityToken)) sig)
    with (token.stsHost +:+ "?"
            +:+ signedQuery G clusterID (token.StringValue accessKey)
                  (token.StringValue securityToken) sig).
  split; [|apply token_facts.Verify_too_large].
  intros Hlen.
  pose proof (token_facts.parseToken_signed G E v clusterID
                (token.StringValue accessKey)
                (token.StringValue securityToken) sig
                Hfair Hakc Hcidc Hv Hlen) as Hparse.
  eexists. split; [exact Hparse|].
  unfold token.Verify. rewrite Hparse. split; [reflexivity|].
  intros id. cbn [snd].
  destruct (token.client v _) as [response| |]; [|done..].
  apply verifier_facts.extractIdentity_AccessKeyID.
Qed.

(** The happy-path run of the generator and the verifier satisfies C1. *)
Lemma C1_witness :
  token.range_fair examples.Efwd
  ∧ strings.all unreserved "LTAI5txxxxxxxxxxxxxxxxxx" = true
  ∧ strings.all unreserved "c123" = true
  ∧ ∃ tok,
      token.GetWithSTS (examples.G "") examples.g "c123"
        (examples.stsClient "LTAI5txxxxxxxxxxxxxxxxxx" "") = Ok tok
      ∧ (String.length (token.Token_ tok) ≤ token.maxTokenLenBytes →
         ∃ req,
           token.parseToken examples.Efwd (examples.verifier "c123")
             (token.Token_ tok)
           = Ok ("LTAI5txxxxxxxxxxxxxxxxxx", req)
           ∧ (token.Verify examples.Efwd (examples.verifier "c123")
                (token.Token_ tok)).1
             = [token.Header_Set req "accept" "application/json"]
           ∧ ∀ id,
               (token.Verify examples.Efwd (examples.verifier "c123")
                  (token.Token_ tok)).2 = Ok id →
               token.AccessKeyID id = "LTAI5txxxxxxxxxxxxxxxxxx")
      ∧ (token.maxTokenLenBytes < String.length (token.Token_ tok) →
         token.Verify examples.Efwd (examples.verifier "c123")
           (token.Token_ tok)
         = ([], Err (FormatError "token is too large"))).
Proof.
  assert (Hfair : token.range_fair examples.Efwd) by (intros l; reflexivity).
  assert (Hak : strings.all unreserved "LTAI5txxxxxxxxxxxxxxxxxx" = true)
    by (vm_compute; reflexivity).
  assert (Hcid : strings.all unreserved "c123" = true)
    by (vm_compute; reflexivity).
  split; [exact Hfair|]. split; [exact Hak|]. split; [exact Hcid|].
  exact (C1_generated_token_verifies (examples.G "") examples.Efwd examples.g
           (examples.verifier "c123")
           (examples.stsClient "LTAI5txxxxxxxxxxxxxxxxxx" "") "c123"
           (Some "LTAI5txxxxxxxxxxxxxxxxxx") (Some "secret") (Some "")
           Hfair eq_refl eq_refl eq_refl Hak Hcid eq_refl).
Defined.

(** The happy path on a concrete run: access key [LTAI5txxxxxxxxxxxxxxxxxx],
    cluster [c123], STS answering with principal [33333:sess1]. *)
Example happy_v1_verify :
  String.length (token.Token_ examples.happyToken) = 423
  ∧ (token.Verify examples.Efwd (examples.verifier "c123")
       (token.Token_ examples.happyToken)).2
    = Ok {| token.ARN := "acs:ram::111122223333:role/admin";
            token.CanonicalARN := "acs:ram::111122223333:role/admin";
            token.AccountID := "111122223333";
            token.UserID := "33333";
            token.SessionName := "sess1";
            token.AccessKeyID := "LTAI5txxxxxxxxxxxxxxxxxx" |}.
Proof. split; vm_compute; reflexivity. Qed.

(** C1 as stated fails: with a security token of 3000 bytes the generator
    returns a token of more than 4096 bytes, which the verifier rejects; and
    an access key id with a [+] is read back with a space. *)
Lemma C1_counterexample :
  (∃ tok,
     token.GetWithSTS (examples.G "") examples.g "c123"
       (examples.stsClient "LTAI5txxxxxxxxxxxxxxxxxx"
          (examples.repeat_byte 3000 "A")) = Ok tok
     ∧ token.maxTokenLenBytes < String.length (token.Token_ tok)
     ∧ token.Verify examples.Efwd (examples.verifier "c123")
         (token.Token_ tok)
       = ([], Err (FormatError "token is too large")))
  ∧ (∃ tok id,
       token.GetWithSTS (examples.G "") examples.g "c123"
         (examples.stsClient "AK+1" "") = Ok tok
       ∧ String.length (token.Token_ tok) ≤ token.maxTokenLenBytes
       ∧ (token.Verify examples.Efwd (examples.verifier "c123")
            (token.Token_ tok)).2 = Ok id
       ∧ token.AccessKeyID id = "AK 1"
       ∧ token.AccessKeyID id ≠ "AK+1").
Proof.
  split.
  - eexists. split; [vm_compute; reflexivity|].
    split; [vm_compute; lia|]. vm_compute. reflexivity.
  - eexists _, _. split; [vm_compute; reflexivity|].
    split; [vm_compute; lia|]. split; [vm_compute; reflexivity|].
    split; [reflexivity|discriminate].
Qed.

(** ** The host of the presigned URL *)

(** C5: for a v1 token whose decoded URL has a host that does not match
    [hostRegexp], [Verify] returns a [FormatError] and sends nothing; every
    request [Verify] sends for a v1 token comes from a URL whose host
    matched, with the host replaced by the configured STS endpoint. *)
Theorem C5_host_check (E : token.Env) (v : token.tokenVerifier)
        (token_ : string) :
  strings.HasPrefix token_ token.v1Prefix = true →
  (∀ u, decodedURL token_ = Ok u →
        regexp.MatchString token.hostRegexp (url.Host u) = false →
        ∃ msg, token.Verify E v token_ = ([], Err (FormatError msg)))
  ∧ (∀ req, req ∈ (token.Verify E v token_).1 →
        ∃ u, decodedURL token_ = Ok u
             ∧ regexp.MatchString token.hostRegexp (url.Host u) = true
             ∧ token.URL req = url.setHost u (token.stsEndpoint v)
             ∧ url.Host (token.URL req) = token.stsEndpoint v).
Proof.
  intros H1. unfold token.Verify, decodedURL.
  rewrite reject_facts.parseToken_v1 by done. split.
  - intros u Hu Hhost.
    destruct (token.maxTokenLenBytes <? String.length token_)%nat; [by eauto|].
    destruct (base64.DecodeString _) as [tokenBytes|]; [|done].
    unfold token.parseV1Token. rewrite Hu.
    destruct (negb (String.eqb (url.Scheme u) "https")); [by eauto|].
    unfold token.verifyHost. rewrite Hhost. cbn [negb]. by eauto.
  - intros req.
    destruct (token.maxTokenLenBytes <? String.length token_)%nat.
    { by intros ?%not_elem_of_nil. }
    destruct (base64.DecodeString _) as [tokenBytes|].
    2:{ by intros ?%not_elem_of_nil. }
    destruct (token.parseV1Token E v tokenBytes) as [[ak req0]|] eqn:Hp.
    2:{ by intros ?%not_elem_of_nil. }
    apply reject_facts.parseV1Token_Ok in Hp as (u & Hu & _ & Hhost & _ & ->).
    cbn [fst]. intros ->%list_elem_of_singleton.
    exists u. by repeat split.
Qed.

(** The two hosts of the specification: the spoofed one is rejected, the
    regional one is accepted and replaced. *)
Example host_spoofing :
  regexp.MatchString token.hostRegexp "sts.evil.aliyuncs.com.cn.attacker.tld"
  = false
  ∧ regexp.MatchString token.hostRegexp "sts.cn-hangzhou.aliyuncs.com" = true
  ∧ token.Verify examples.Efwd (examples.verifier "c123")
      (examples.v1Token
         "https://sts.evil.aliyuncs.com.cn.attacker.tld/?Action=GetCallerIdentity&ClusterId=c123")
    = ([], Err (FormatError
                  ("unexpected hostname "
                     +:+ examples.quote "sts.evil.aliyuncs.com.cn.attacker.tld"
                     +:+ " in pre-signed URL")))
  ∧ (url.Host ∘ token.URL)
      <$> (token.Verify examples.Efwd (examples.verifier "c123")
             (examples.v1Token
                "https://sts.cn-hangzhou.aliyuncs.com/?Action=GetCallerIdentity&ClusterId=c123")).1
    = ["sts-vpc.cn-hangzhou.aliyuncs.com"].
Proof. repeat split; vm_compute; reflexivity. Qed.

(** The host check on the token with the spoofed host. *)
Lemma C5_witness :
  let t := examples.v1Token
             "https://sts.evil.aliyuncs.com.cn.attacker.tld/?Action=GetCallerIdentity&ClusterId=c123" in
  strings.HasPrefix t token.v1Prefix = true
  ∧ (∀ u, decodedURL t = Ok u →
          regexp.MatchString token.hostRegexp (url.Host u) = false →
          ∃ msg, token.Verify examples.Efwd (examples.verifier "c123") t
                 = ([], Err (FormatError msg)))
  ∧ (∀ req,
       req ∈ (token.Verify examples.Efwd (examples.verifier "c123") t).1 →
       ∃ u, decodedURL t = Ok u
            ∧ regexp.MatchString token.hostRegexp (url.Host u) = true
            ∧ token.URL req
              = url.setHost u (token.stsEndpoint (examples.verifier "c123"))
            ∧ url.Host (token.URL req)
              = token.stsEndpoint (examples.verifier "c123")).
Proof.
  intros t.
  assert (H : strings.HasPrefix t token.v1Prefix = true) by reflexivity.
  split; [exact H|].
  exact (C5_host_check examples.Efwd (examples.verifier "c123") t H).
Defined.

(** ** The principal of the STS response *)

(** C8: on a successful STS response [Verify] splits the [PrincipalId] on
    [:]; two parts give [UserID] and [SessionName], one part gives [UserID]
    and an empty [SessionName], and any other number of parts gives a
    malformed-principal error and no identity.  The number of parts is the
    number of colons plus one. *)
Theorem C8_principal_split (E : token.Env) (v : token.tokenVerifier)
        (token_ accessKeyId : string) (req : token.Request)
        (response : token.Response) (body canonicalARN : string)
        (callerIdentity : token.getCallerIdentityWrapper) :
  token.parseToken E v token_ = Ok (accessKeyId, req) →
  token.client v (token.Header_Set req "accept" "application/json")
  = token.DoResponse response →
  token.StatusCode response = 200%Z →
  token.Body response = Ok body →
  token.json_Unmarshal E body = Ok callerIdentity →
  token.Canonicalize E (token.w_Arn callerIdentity) = (canonicalARN, None) →
  let principal := token.w_PrincipalID callerIdentity in
  let identity userID sessionName :=
    {| token.ARN := token.w_Arn callerIdentity;
       token.CanonicalARN := canonicalARN;
       token.AccountID := token.w_AccountID callerIdentity;
       token.UserID := userID;
       token.SessionName := sessionName;
       token.AccessKeyID := accessKeyId |} in
  length (strings.Split principal ":")
  = S (strings.CountByte principal ":")
  ∧ match strings.Split principal ":" with
    | [userID; sessionName] =>
        (token.Verify E v token_).2 = Ok (identity userID sessionName)
    | [userID] =>
        (token.Verify E v token_).2 = Ok (identity userID EmptyString)
    | _ =>
        (token.Verify E v token_).2
        = Err (OpenAPIErr 400 None
                 (Some (ErrorString ("malformed UserID "
                                       +:+ token.fmt_q E principal))))
    end.
Proof.
  intros Hparse Hdo Hstatus Hbody Hjson Hcanon principal identity.
  split; [apply strings_facts.Split_length|].
  unfold token.Verify. rewrite Hparse. cbn [snd]. rewrite Hdo.
  unfold token.extractIdentity.
  rewrite Hstatus, Hbody, Hjson, Hcanon. cbn [negb Z.eqb Pos.eqb].
  fold principal.
  by destruct (strings.Split principal ":") as [|u [|s [|]]].
Qed.

(** The happy-path token, with STS answering [33333:sess1]. *)
Lemma C8_witness :
  let t := token.Token_ examples.happyToken in
  let v := examples.verifier "c123" in
  ∃ req,
    token.parseToken examples.Efwd v t = Ok ("LTAI5txxxxxxxxxxxxxxxxxx", req)
    ∧ (token.Verify examples.Efwd v t).2
      = Ok {| token.ARN := "acs:ram::111122223333:role/admin";
              token.CanonicalARN := "acs:ram::111122223333:role/admin";
              token.AccountID := "111122223333";
              token.UserID := "33333";
              token.SessionName := "sess1";
              token.AccessKeyID := "LTAI5txxxxxxxxxxxxxxxxxx" |}.
Proof.
  intros t v.
  destruct (token.parseToken examples.Efwd v t) as [[ak req]|] eqn:Hparse;
    [|vm_compute in Hparse; discriminate].
  assert (ak = "LTAI5txxxxxxxxxxxxxxxxxx") as ->.
  { vm_compute in Hparse. by injection Hparse as <- _. }
  exists req. split; [reflexivity|].
  exact (proj2 (C8_principal_split examples.Efwd v t _ req
                  {| token.StatusCode := 200;
                     token.Body := Ok examples.identityBody |}
                  examples.identityBody "acs:ram::111122223333:role/admin"
                  examples.callerIdentity
                  Hparse eq_refl eq_refl eq_refl eq_refl eq_refl)).
Defined.

(** ** Loading the dynamic mapping file *)

(** C3, as the code has it: when the file is there, decodes, and has
    entries without [userarn] or [rolearn], [ParseMap] drops exactly those
    entries and returns the others with a [ParseError] holding one complaint
    for each of them; [loadDynamicFile] returns that error and leaves the
    map store as it was. *)
Theorem C3_offending_entries_block_the_load
        (E : dynamicfile.Env) (fuel k : nat)
        (m : dynamicfile.DynamicFileMapStore) (content : string)
        (data : dynamicfile.DynamicFileData) :
  (∀ i, i < k → dynamicfile.stat E i = dynamicfile.StatNotExist) →
  dynamicfile.stat E k = dynamicfile.StatOk →
  k < fuel →
  dynamicfile.ReadFile E = Ok content →
  dynamicfile.json_Unmarshal E content = Ok data →
  0 < length (List.filter lacksUserARN (dynamicfile.UserMappings data))
      + length (List.filter lacksRoleARN (dynamicfile.RoleMappings data)) →
  dynamicfile.ParseMap E
  = (List.filter (fun u => negb (lacksUserARN u))
                 (dynamicfile.UserMappings data),
     List.filter (fun r => negb (lacksRoleARN r))
                 (dynamicfile.RoleMappings data),
     dynamicfile.AutoMappedAlibabaCloudAccounts data,
     Some (ErrParsingMap (complaints data)))
  ∧ dynamicfile.loadDynamicFile E fuel m
    = Some (m, Some (ErrParsingMap (complaints data))).
Proof.
  intros Hbefore Hk Hfuel Hread Hjson Hbad.
  assert (Hlen : (0 <? length (complaints data))%nat = true).
  { apply Nat.ltb_lt. unfold complaints.
    by rewrite length_app, !length_replicate. }
  assert (Hparse := file_facts.ParseMap_decoded E content data Hread Hjson).
  rewrite Hlen in Hparse. split; [exact Hparse|].
  unfold dynamicfile.loadDynamicFile.
  rewrite (file_facts.waitUntilFileAvailable_found E k fuel 0) by done.
  by rewrite Hparse.
Qed.

(** A file with one good entry and one entry without [userarn]. *)
Lemma C3_witness :
  dynamicfile.ParseMap file_examples.E
  = ([file_examples.alice], [], [],
     Some (ErrParsingMap [dynamicfile.userarnError]))
  ∧ dynamicfile.loadDynamicFile file_examples.E 1 file_examples.store
    = Some (file_examples.store,
            Some (ErrParsingMap [dynamicfile.userarnError])).
Proof.
  exact (C3_offending_entries_block_the_load file_examples.E 1 0
           file_examples.store file_examples.content file_examples.data
           ltac:(intros i Hi; lia) eq_refl ltac:(lia) eq_refl eq_refl
           ltac:(vm_compute; lia)).
Defined.

(** Without offending entries the snapshot is installed. *)
Lemma load_installs_clean_file
      (E : dynamicfile.Env) (fuel k : nat)
      (m : dynamicfile.DynamicFileMapStore) (content : string)
      (data : dynamicfile.DynamicFileData) :
  (∀ i, i < k → dynamicfile.stat E i = dynamicfile.StatNotExist) →
  dynamicfile.stat E k = dynamicfile.StatOk →
  k < fuel →
  dynamicfile.ReadFile E = Ok content →
  dynamicfile.json_Unmarshal E content = Ok data →
  complaints data = [] →
  dynamicfile.loadDynamicFile E fuel m
  = Some (dynamicfile.saveMap E m
            (List.filter (fun u => negb (lacksUserARN u))
                         (dynamicfile.UserMappings data))
            (List.filter (fun r => negb (lacksRoleARN r))
                         (dynamicfile.RoleMappings data))
            (dynamicfile.AutoMappedAlibabaCloudAccounts data), None).
Proof.
  intros Hbefore Hk Hfuel Hread Hjson Hclean.
  assert (Hparse := file_facts.ParseMap_decoded E content data Hread Hjson).
  rewrite Hclean in Hparse. cbn [length Nat.ltb Nat.leb] in Hparse.
  unfold dynamicfile.loadDynamicFile.
  rewrite (file_facts.waitUntilFileAvailable_found E k fuel 0) by done.
  by rewrite Hparse.
Qed.

(** C3 as stated fails: a file with one good entry and one entry without
    [userarn] parses to the good entry, but the load returns the error and
    the store does not get the partial snapshot; installing it would have
    made the good entry resolvable. *)
Lemma C3_counterexample :
  dynamicfile.ParseMap file_examples.E
  = ([file_examples.alice], [], [],
     Some (ErrParsingMap [dynamicfile.userarnError]))
  ∧ (∃ after,
       dynamicfile.loadDynamicFile file_examples.E 1 file_examples.store
       = Some (after, Some (ErrParsingMap [dynamicfile.userarnError]))
       ∧ dynamicfile.UserMapping after "acs:ram::111122223333:user/alice"
         = Err dynamicfile.UserNotFound)
  ∧ dynamicfile.UserMapping
      (dynamicfile.saveMap file_examples.E file_examples.store
         [file_examples.alice] [] [])
      "acs:ram::111122223333:user/alice"
    = Ok file_examples.alice.
Proof.
  split; [by vm_compute|]. split; [|by vm_compute].
  eexists. split; by vm_compute.
Qed.

(** ** Entries whose ARN cannot be canonicalized *)

(** C10: [saveMap] discards the error of [arn.Canonicalize]; an entry whose
    lower-cased ARN fails to canonicalize is stored under the key the
    canonicalizer returns with its error, the empty string, and of several
    such entries the last one is the one found there.  This holds for user
    and for role entries, and [saveMap] reports nothing. *)
Theorem C10_failed_canonicalization_is_stored
        (E : dynamicfile.Env) (ms : dynamicfile.DynamicFileMapStore) :
  empty_on_error (dynamicfile.Canonicalize E) →
  (∀ users1 user users2 roleMappings aliAccounts,
     (dynamicfile.Canonicalize E
        (strings.ToLower (config.UserARN user))).2 ≠ None →
     Forall (fun u => userKey E u ≠ EmptyString) users2 →
     dynamicfile.users
       (dynamicfile.saveMap E ms (users1 ++ user :: users2)
          roleMappings aliAccounts) !! EmptyString = Some user)
  ∧ (∀ userMappings roles1 role roles2 aliAccounts,
       (dynamicfile.Canonicalize E
          (strings.ToLower (config.RoleARN role))).2 ≠ None →
       Forall (fun r => roleKey E r ≠ EmptyString) roles2 →
       dynamicfile.roles
         (dynamicfile.saveMap E ms userMappings (roles1 ++ role :: roles2)
            aliAccounts) !! EmptyString = Some role).
Proof.
  intros Hconv. split.
  - intros users1 user users2 roleMappings aliAccounts Hfail Hlater.
    assert (Hkey : userKey E user = EmptyString).
    { unfold userKey.
      destruct (dynamicfile.Canonicalize E _).2 as [e|] eqn:He; [|done].
      by eapply Hconv. }
    cbn [dynamicfile.saveMap dynamicfile.users].
    rewrite <- Hkey at 1.
    apply (file_facts.foldl_insert_last (userKey E)).
    by rewrite Hkey.
  - intros userMappings roles1 role roles2 aliAccounts Hfail Hlater.
    assert (Hkey : roleKey E role = EmptyString).
    { unfold roleKey.
      destruct (dynamicfile.Canonicalize E _).2 as [e|] eqn:He; [|done].
      by eapply Hconv. }
    cbn [dynamicfile.saveMap dynamicfile.roles].
    rewrite <- Hkey at 1.
    apply (file_facts.foldl_insert_last (roleKey E)).
    by rewrite Hkey.
Qed.

(** Entries with ARNs the canonicalizer rejects. *)
Lemma C10_witness :
  empty_on_error (dynamicfile.Canonicalize file_examples.E)
  ∧ dynamicfile.users
      (dynamicfile.saveMap file_examples.E file_examples.store
         ([file_examples.badUser "a"] ++ file_examples.badUser "b"
            :: [file_examples.alice]) [] []) !! EmptyString
    = Some (file_examples.badUser "b")
  ∧ dynamicfile.roles
      (dynamicfile.saveMap file_examples.E file_examples.store []
         ([file_examples.badRole "a"] ++ file_examples.badRole "b" :: [])
         []) !! EmptyString
    = Some (file_examples.badRole "b").
Proof.
  assert (H : empty_on_error (dynamicfile.Canonicalize file_examples.E))
    by exact file_facts.arn_Canonicalize_empty_on_error.
  split; [exact H|].
  destruct (C10_failed_canonicalization_is_stored file_examples.E
              file_examples.store H) as [Husers Hroles].
  split.
  - apply Husers; [by vm_compute|].
    apply Forall_cons. split; [by vm_compute|apply Forall_nil_2].
  - apply Hroles; [by vm_compute|apply Forall_nil_2].
Defined.

(** Two entries that fail to canonicalize share the empty key: the store
    keeps one entry for both, and the good entry keeps its own key. *)
Example failing_entries_overwrite :
  let ms := dynamicfile.saveMap file_examples.E file_examples.store
              [file_examples.badUser "a"; file_examples.badUser "b";
               file_examples.alice] [] [] in
  size (dynamicfile.users ms) = 2
  ∧ dynamicfile.UserMapping ms "" = Ok (file_examples.badUser "b")
  ∧ dynamicfile.UserMapping ms "acs:ram::111122223333:user/alice"
    = Ok file_examples.alice.
Proof. by vm_compute. Qed.

(** ** Query parameters that differ only in case *)

(** The cluster mismatch of the specification: a token generated for
    [c123], verified for [c999]. *)
Example cluster_mismatch :
  token.Verify examples.Efwd (examples.verifier "c999")
    (token.Token_ examples.happyToken)
  = ([], Err (FormatError "unexpected clusterid c123 in token")).
Proof. by vm_compute. Qed.

(** A parameter outside the allow-list. *)
Example non_allow_listed_parameter :
  token.Verify examples.Efwd (examples.verifier "c123")
    (examples.v1Token
       "https://sts.aliyuncs.com/?Action=GetCallerIdentity&ClusterId=c123&Attack=1")
  = ([], Err (FormatError ("non-whitelisted query parameter "
                             +:+ examples.quote "Attack"))).
Proof. by vm_compute. Qed.

(** C4 at a token whose query has [Action=Evil] next to
    [action=GetCallerIdentity]: both keys are allow-listed and single-valued,
    and when the loop visits [action] after [Action] the lower-cased map
    holds [GetCallerIdentity]; [Verify] sends the request and returns an
    identity instead of a [FormatError].  The same happens with
    [ClusterId=c123] next to [clusterid=other] in the other order. *)
Theorem C4_case_variant_parameters_accepted :
  let v := examples.verifier "c123" in
  let t1 := examples.v1Token
              "https://sts.aliyuncs.com/?Action=Evil&action=GetCallerIdentity&ClusterId=c123" in
  let t2 := examples.v1Token
              "https://sts.aliyuncs.com/?Action=GetCallerIdentity&ClusterId=c123&clusterid=other" in
  token.range_fair examples.Erev ∧ token.range_fair examples.Efwd
  ∧ (∃ u, decodedURL t1 = Ok u ∧ url.Query u !! "Action" = Some ["Evil"])
  ∧ length (token.Verify examples.Erev v t1).1 = 1
  ∧ (∃ id, (token.Verify examples.Erev v t1).2 = Ok id)
  ∧ (∃ u, decodedURL t2 = Ok u ∧ url.Query u !! "clusterid" = Some ["other"])
  ∧ length (token.Verify examples.Efwd v t2).1 = 1
  ∧ (∃ id, (token.Verify examples.Efwd v t2).2 = Ok id).
Proof.
  intros v t1 t2.
  split; [intros l; symmetry; apply Permutation_rev|].
  split; [intros l; reflexivity|].
  split.
  { exists (presignedURL "Action=Evil&action=GetCallerIdentity&ClusterId=c123").
    split; vm_compute; reflexivity. }
  split; [vm_compute; reflexivity|].
  split.
  { exists {| token.ARN := "acs:ram::111122223333:role/admin";
              token.CanonicalARN := "acs:ram::111122223333:role/admin";
              token.AccountID := "111122223333"; token.UserID := "33333";
              token.SessionName := "sess1"; token.AccessKeyID := "" |}.
    vm_compute; reflexivity. }
  split.
  { exists (presignedURL
              "Action=GetCallerIdentity&ClusterId=c123&clusterid=other").
    split; vm_compute; reflexivity. }
  split; [vm_compute; reflexivity|].
  exists {| token.ARN := "acs:ram::111122223333:role/admin";
            token.CanonicalARN := "acs:ram::111122223333:role/admin";
            token.AccountID := "111122223333"; token.UserID := "33333";
            token.SessionName := "sess1"; token.AccessKeyID := "" |}.
  vm_compute; reflexivity.
Qed.

(** ** The lookup of the CRD mapper *)

(** C2, as the code has it: [Map] lower-cases the query, does the exact
    lookup in the [canonicalARN] index and returns the mapping of the first
    object that is a resource; otherwise it returns [NotMapped].  The
    wildcard cache of the controller is never read, so [Map] agrees with the
    lookup of the specification exactly when no cached wildcard resource
    matches after an exact miss. *)
Theorem C2_exact_lookup_only (m : crd.CRDMapper) (canonicalARN : string) :
  let key := strings.ToLower canonicalARN in
  crd.Map m canonicalARN
  = match ByIndex (crd.ramMappingsIndex m) "canonicalARN" key with
    | Err err => Err err
    | Ok objects =>
        match crd.firstIdentity objects with
        | Some r => Ok (crdspec.toMapping key r)
        | None => Err ErrNotMapped
        end
    end
  ∧ (∀ c, crd.Map {| crd.Controller_ := c;
                     crd.ramMappingsIndex := crd.ramMappingsIndex m |}
                  canonicalARN
          = crd.Map m canonicalARN)
  ∧ (∀ snapshot, crdspec.wildMatches snapshot key = [] →
                 crd.Map m canonicalARN
                 = crdspec.Map m snapshot canonicalARN).
Proof.
  intros key.
  assert (Heq : crd.Map m canonicalARN
                = match ByIndex (crd.ramMappingsIndex m) "canonicalARN" key with
                  | Err err => Err err
                  | Ok objects =>
                      match crd.firstIdentity objects with
                      | Some r => Ok (crdspec.toMapping key r)
                      | None => Err ErrNotMapped
                      end
                  end).
  { unfold crd.Map. fold key.
    destruct (ByIndex _ _ _) as [objects|]; [|done].
    by destruct objects. }
  split; [exact Heq|]. split; [done|].
  intros snapshot Hnone. rewrite Heq. unfold crdspec.Map. fold key.
  destruct (ByIndex _ _ _) as [objects|]; [|done].
  destruct (crd.firstIdentity objects); [done|]. by rewrite Hnone.
Qed.

(** A query that no cached wildcard resource matches. *)
Lemma C2_witness :
  crdspec.wildMatches (crd_examples.snapshot crd_examples.synced)
    (strings.ToLower "acs:ram::111122223333:role/ops") = []
  ∧ crd.Map crd_examples.mapper "acs:ram::111122223333:role/ops"
    = crdspec.Map crd_examples.mapper
        (crd_examples.snapshot crd_examples.synced)
        "acs:ram::111122223333:role/ops".
Proof.
  assert (H : crdspec.wildMatches (crd_examples.snapshot crd_examples.synced)
                (strings.ToLower "acs:ram::111122223333:role/ops") = [])
    by (by vm_compute).
  split; [exact H|].
  exact (proj2 (proj2 (C2_exact_lookup_only crd_examples.mapper
                         "acs:ram::111122223333:role/ops")) _ H).
Defined.

(** C2 as stated fails on the wildcard scenario of the specification: the
    controller has cached the resource with [spec.arn] ending in [dev-*],
    the exact lookup of [.../role/dev-alice] misses, the cached resource
    glob-matches the query, and [Map] returns [NotMapped] where the lookup
    of the specification returns the mapping. *)
Lemma C2_counterexample :
  let query := "acs:ram::111122223333:role/dev-alice" in
  let snapshot := crd_examples.snapshot crd_examples.synced in
  ByIndex (crd.ramMappingsIndex crd_examples.mapper) "canonicalARN" query
  = Ok []
  ∧ (∃ r, snapshot = [r]
          ∧ v1alpha1.CanonicalARN (v1alpha1.Status r)
            = "acs:ram::111122223333:role/dev-*"
          ∧ crdspec.globMatch (v1alpha1.CanonicalARN (v1alpha1.Status r))
                              query = true)
  ∧ crd.Map crd_examples.mapper query = Err ErrNotMapped
  ∧ crdspec.Map crd_examples.mapper snapshot query
    = Ok {| config.IdentityARN := query; config.Username := "dev";
            config.Groups := ["developers"] |}.
Proof.
  intros query snapshot. split; [vm_compute; reflexivity|].
  split.
  { exists (controller.setCanonicalARN crd_examples.devs
              "acs:ram::111122223333:role/dev-*").
    repeat split; vm_compute; reflexivity. }
  split; vm_compute; reflexivity.
Qed.

(** * Further properties of the code *)

(** ** The outcomes of the verifier *)
Module verify_extra.
Import strings strings_facts verifier_facts reject_facts token_facts.
Import token.

(** Every failure before the request is a [FormatError], for v1 and v2
    tokens alike. *)
Lemma parseToken_Err (E : Env) (v : tokenVerifier) (t : string) (e : error) :
  parseToken E v t = Err e → ∃ msg, e = FormatError msg.
Proof.
  unfold parseToken.
  destruct (maxTokenLenBytes <? String.length t)%nat; [intros [= <-]; eauto|].
  destruct (HasPrefix t v1Prefix) eqn:H1, (HasPrefix t v2Prefix) eqn:H2;
    cbn [negb andb]; try (intros [= <-]; by eauto);
    (destruct (base64.DecodeString _) as [tokenBytes|];
     [|intros [= <-]; by eauto]).
  - destruct (parseV2Token E v tokenBytes); [done|intros [= <-]; eauto].
  - apply parseV1Token_Err.
  - destruct (parseV2Token E v tokenBytes); [done|intros [= <-]; eauto].
Qed.

Lemma extractIdentity_Err (E : Env) (ak : string) (response : Response)
      (e : error) :
  extractIdentity E ak response = Err e →
  ∃ status body cause, e = OpenAPIErr status body cause.
Proof.
  unfold extractIdentity, newOpenAPIErr.
  destruct (negb (StatusCode response =? 200)%Z).
  { destruct (Body response); intros [= <-]; eauto. }
  destruct (Body response) as [body|]; [|intros [= <-]; eauto].
  destruct (json_Unmarshal E body) as [ci|]; [|intros [= <-]; eauto].
  destruct (Canonicalize E (w_Arn ci)) as [c [err|]]; [intros [= <-]; eauto|].
  destruct (Split (w_PrincipalID ci) ":") as [|u [|s [|]]];
    try done; intros [= <-]; eauto.
Qed.

End verify_extra.

(** X1: whatever the token, [Verify] ends in one of three ways: a
    [FormatError] with nothing sent; one request sent and an [OpenAPIErr];
    one request sent and an identity.  The request always carries the
    header [Accept: application/json]. *)
Theorem Verify_outcomes (E : token.Env) (v : token.tokenVerifier)
        (token_ : string) :
  (∃ msg, token.Verify E v token_ = ([], Err (FormatError msg)))
  ∨ ∃ req,
      (token.Verify E v token_).1 = [req]
      ∧ token.Header req !! "Accept" = Some ["application/json"]
      ∧ ((∃ id, (token.Verify E v token_).2 = Ok id)
         ∨ ∃ status body cause,
             (token.Verify E v token_).2
             = Err (OpenAPIErr status body cause)).
Proof.
  unfold token.Verify.
  destruct (token.parseToken E v token_) as [[ak req0]|e] eqn:Hp.
  - right. exists (token.Header_Set req0 "accept" "application/json").
    split; [reflexivity|]. split.
    { unfold token.Header_Set. cbn [token.Header].
      change (token.canonicalKey true "accept") with "Accept".
      apply lookup_insert_eq. }
    cbn [snd]. unfold token.newOpenAPIErr.
    destruct (token.client v _) as [response|cause|err];
      [|right; by eauto..].
    destruct (token.extractIdentity E ak response) as [id|e] eqn:He;
      [left; by eauto|].
    right. apply verify_extra.extractIdentity_Err in He as (st & b & c & ->).
    by eauto.
  - left. apply verify_extra.parseToken_Err in Hp as [msg ->]. by eauto.
Qed.

(** X2: [Verify] returns an identity only when STS answered the one
    request with status 200 and a body that decodes; the ARN and the
    account of the identity are those of the response, and the canonical
    ARN is the one [arn.Canonicalize] gives for that ARN. *)
Theorem Verify_identity_only_from_200 (E : token.Env)
        (v : token.tokenVerifier) (token_ : string) (id : token.Identity) :
  (token.Verify E v token_).2 = Ok id →
  ∃ req response body callerIdentity,
    (token.Verify E v token_).1 = [req]
    ∧ token.client v req = token.DoResponse response
    ∧ token.StatusCode response = 200%Z
    ∧ token.Body response = Ok body
    ∧ token.json_Unmarshal E body = Ok callerIdentity
    ∧ token.ARN id = token.w_Arn callerIdentity
    ∧ token.AccountID id = token.w_AccountID callerIdentity
    ∧ token.Canonicalize E (token.w_Arn callerIdentity)
      = (token.CanonicalARN id, None)
    ∧ length (strings.Split (token.w_PrincipalID callerIdentity) ":") ≤ 2.
Proof.
  unfold token.Verify.
  destruct (token.parseToken E v token_) as [[ak req0]|e]; [|done].
  cbn [fst snd].
  destruct (token.client v _) as [response|cause|err] eqn:Hdo; [|done..].
  unfold token.extractIdentity.
  destruct (Z.eqb_spec (token.StatusCode response) 200) as [Hs|Hs];
    cbn [negb]; [|by destruct (token.Body response)].
  destruct (token.Body response) as [body|] eqn:Hb; [|done].
  destruct (token.json_Unmarshal E body) as [ci|] eqn:Hj; [|done].
  destruct (token.Canonicalize E (token.w_Arn ci)) as [c [err|]] eqn:Hc;
    [done|].
  intros Hid. eexists _, response, body, ci.
  split; [reflexivity|]. split; [exact Hdo|].
  destruct (strings.Split (token.w_PrincipalID ci) ":") as [|u [|s [|]]];
    try done; injection Hid as <-; cbn; by repeat split; try lia.
Qed.

(** The happy-path token is answered with status 200. *)
Lemma Verify_identity_only_from_200_witness :
  ∃ id req response body callerIdentity,
    (token.Verify examples.Efwd (examples.verifier "c123")
       (token.Token_ examples.happyToken)).2 = Ok id
    ∧ (token.Verify examples.Efwd (examples.verifier "c123")
         (token.Token_ examples.happyToken)).1 = [req]
    ∧ token.client (examples.verifier "c123") req
      = token.DoResponse response
    ∧ token.StatusCode response = 200%Z
    ∧ token.Body response = Ok body
    ∧ token.json_Unmarshal examples.Efwd body = Ok callerIdentity
    ∧ token.ARN id = token.w_Arn callerIdentity
    ∧ token.AccountID id = token.w_AccountID callerIdentity
    ∧ token.Canonicalize examples.Efwd (token.w_Arn callerIdentity)
      = (token.CanonicalARN id, None)
    ∧ length (strings.Split (token.w_PrincipalID callerIdentity) ":") ≤ 2.
Proof.
  eexists.
  assert (H : (token.Verify examples.Efwd (examples.verifier "c123")
                 (token.Token_ examples.happyToken)).2 = Ok _)
    by (vm_compute; reflexivity).
  destruct (Verify_identity_only_from_200 _ _ _ _ H)
    as (req & response & body & ci & H').
  exists req, response, body, ci. split; [exact H|exact H'].
Defined.

(** X3: when STS answers the request with a status other than 200,
    [Verify] returns an [OpenAPIErr] with that status and the body that was
    read, never an identity; when the request itself fails, the error has
    status 400 and carries the cause. *)
Theorem Verify_passes_on_the_failure (E : token.Env)
        (v : token.tokenVerifier) (token_ accessKeyId : string)
        (req : token.Request) :
  token.parseToken E v token_ = Ok (accessKeyId, req) →
  match token.client v (token.Header_Set req "accept" "application/json")
  with
  | token.DoResponse response =>
      token.StatusCode response ≠ 200%Z →
      (token.Verify E v token_).2
      = Err (OpenAPIErr (token.StatusCode response)
               (match token.Body response with
                | Ok body => Some body
                | Err _ => None
                end) None)
  | token.DoURLError cause | token.DoError cause =>
      (token.Verify E v token_).2 = Err (OpenAPIErr 400 None (Some cause))
  end.
Proof.
  intros Hp. unfold token.Verify. rewrite Hp. cbn [snd].
  destruct (token.client v _) as [response|cause|err]; [|done..].
  intros Hs. unfold token.extractIdentity, token.newOpenAPIErr.
  destruct (Z.eqb_spec (token.StatusCode response) 200) as [|_]; [done|].
  cbn [negb]. by destruct (token.Body response).
Qed.

(** The happy-path token, with STS answering 403. *)
Lemma Verify_passes_on_the_failure_witness :
  ∃ req,
    token.parseToken examples.Efwd cases.verifier403
      (token.Token_ examples.happyToken)
    = Ok ("LTAI5txxxxxxxxxxxxxxxxxx", req)
    ∧ (token.Verify examples.Efwd cases.verifier403
         (token.Token_ examples.happyToken)).2
      = Err (OpenAPIErr 403 (Some "Forbidden") None).
Proof.
  destruct (token.parseToken examples.Efwd cases.verifier403
              (token.Token_ examples.happyToken)) as [[ak req]|] eqn:Hp;
    [|vm_compute in Hp; discriminate].
  assert (ak = "LTAI5txxxxxxxxxxxxxxxxxx") as ->.
  { vm_compute in Hp. by injection Hp as <- _. }
  exists req. split; [reflexivity|].
  exact (Verify_passes_on_the_failure examples.Efwd cases.verifier403
           _ _ req Hp ltac:(discriminate)).
Defined.

(** X4: a token with neither the v1 nor the v2 prefix, the empty token
    included, is rejected with a [FormatError] before anything is decoded
    or sent; the length is looked at first. *)
Theorem Verify_rejects_unprefixed (E : token.Env) (v : token.tokenVerifier)
        (token_ : string) :
  strings.HasPrefix token_ token.v1Prefix = false →
  strings.HasPrefix token_ token.v2Prefix = false →
  token.Verify E v token_
  = ([], Err (FormatError
                (if (token.maxTokenLenBytes <? String.length token_)%nat
                 then "token is too large"
                 else "token is missing expected prefix"))).
Proof.
  intros H1 H2. unfold token.Verify, token.parseToken. rewrite H1, H2.
  by destruct (token.maxTokenLenBytes <? String.length token_)%nat.
Qed.

(** The empty token. *)
Lemma Verify_rejects_unprefixed_witness :
  token.Verify examples.Efwd (examples.verifier "c123") ""
  = ([], Err (FormatError "token is missing expected prefix")).
Proof.
  exact (Verify_rejects_unprefixed examples.Efwd (examples.verifier "c123")
           "" eq_refl eq_refl).
Defined.

(** X5: for a v1 token of at most 4096 bytes whose payload decodes to a
    URL, a scheme other than [https] is rejected with the scheme in the
    message, and with scheme [https] and an accepted host a path other than
    [/] is rejected; nothing is sent in either case. *)
Theorem Verify_rejects_scheme_and_path (E : token.Env)
        (v : token.tokenVerifier) (token_ : string) (u : url.URL) :
  strings.HasPrefix token_ token.v1Prefix = true →
  String.length token_ ≤ token.maxTokenLenBytes →
  decodedURL token_ = Ok u →
  (url.Scheme u ≠ "https" →
   token.Verify E v token_
   = ([], Err (FormatError ("unexpected scheme "
                              +:+ token.fmt_q E (url.Scheme u)
                              +:+ " in pre-signed URL"))))
  ∧ (url.Scheme u = "https" →
     regexp.MatchString token.hostRegexp (url.Host u) = true →
     url.Path u ≠ "/" →
     token.Verify E v token_
     = ([], Err (FormatError "unexpected path in pre-signed URL"))).
Proof.
  intros H1 Hlen Hu. unfold token.Verify, decodedURL in *.
  rewrite reject_facts.parseToken_v1 by done.
  rewrite (proj2 (Nat.ltb_ge _ _) Hlen).
  destruct (base64.DecodeString _) as [tokenBytes|]; [|done].
  unfold token.parseV1Token. rewrite Hu. split.
  - intros Hs. by destruct (String.eqb_spec (url.Scheme u) "https").
  - intros Hs Hh Hp. rewrite Hs. change (String.eqb "https" "https") with true.
    cbn [negb]. unfold token.verifyHost. rewrite Hh. cbn [negb].
    change (url.Path (url.setHost u (token.stsEndpoint v))) with (url.Path u).
    by destruct (String.eqb_spec (url.Path u) "/").
Qed.

(** A token with scheme [http], and one with the path [/evil]. *)
Lemma Verify_rejects_scheme_and_path_witness :
  token.Verify examples.Efwd (examples.verifier "c123")
    (examples.v1Token
       "http://sts.aliyuncs.com/?Action=GetCallerIdentity&ClusterId=c123")
  = ([], Err (FormatError ("unexpected scheme " +:+ examples.quote "http"
                             +:+ " in pre-signed URL")))
  ∧ token.Verify examples.Efwd (examples.verifier "c123")
      (examples.v1Token
         "https://sts.aliyuncs.com/evil?Action=GetCallerIdentity&ClusterId=c123")
    = ([], Err (FormatError "unexpected path in pre-signed URL")).
Proof.
  split.
  - refine (proj1 (Verify_rejects_scheme_and_path examples.Efwd
                     (examples.verifier "c123")
                     (examples.v1Token
                        "http://sts.aliyuncs.com/?Action=GetCallerIdentity&ClusterId=c123")
                     {| url.Scheme := "http"; url.Opaque := "";
                        url.User := None; url.Host := "sts.aliyuncs.com";
                        url.Path := "/"; url.ForceQuery := false;
                        url.RawQuery :=
                          "Action=GetCallerIdentity&ClusterId=c123";
                        url.Fragment := "" |} eq_refl _ _) _).
    + vm_compute. lia.
    + vm_compute. reflexivity.
    + discriminate.
  - refine (proj2 (Verify_rejects_scheme_and_path examples.Efwd
                     (examples.verifier "c123")
                     (examples.v1Token
                        "https://sts.aliyuncs.com/evil?Action=GetCallerIdentity&ClusterId=c123")
                     {| url.Scheme := "https"; url.Opaque := "";
                        url.User := None; url.Host := "sts.aliyuncs.com";
                        url.Path := "/evil"; url.ForceQuery := false;
                        url.RawQuery :=
                          "Action=GetCallerIdentity&ClusterId=c123";
                        url.Fragment := "" |} eq_refl _ _) eq_refl eq_refl _).
    + vm_compute. lia.
    + vm_compute. reflexivity.
    + discriminate.
Defined.

(** X6: the payload is stripped of the v1 prefix and then of the v2
    prefix; a v1 token with ["k8s-ack-v2."] written after its prefix is
    therefore verified exactly as the token without it. *)
Theorem Verify_strips_a_second_prefix (E : token.Env)
        (v : token.tokenVerifier) (payload : string) :
  strings.HasPrefix payload token.v2Prefix = false →
  String.length (token.v1Prefix +:+ token.v2Prefix +:+ payload)
  ≤ token.maxTokenLenBytes →
  token.Verify E v (token.v1Prefix +:+ token.v2Prefix +:+ payload)
  = token.Verify E v (token.v1Prefix +:+ payload).
Proof.
  intros H2 Hlen.
  assert (Hlen' : String.length (token.v1Prefix +:+ payload)
                  ≤ token.maxTokenLenBytes).
  { rewrite !strings_facts.length_append in *. lia. }
  unfold token.Verify.
  rewrite !reject_facts.parseToken_v1
    by apply strings_facts.HasPrefix_append.
  rewrite (proj2 (Nat.ltb_ge _ _) Hlen), (proj2 (Nat.ltb_ge _ _) Hlen').
  rewrite !strings_facts.TrimPrefix_append.
  unfold strings.TrimPrefix. by rewrite H2.
Qed.

(** The happy-path token with a second prefix is accepted like the
    token itself. *)
Lemma Verify_strips_a_second_prefix_witness :
  let v := examples.verifier "c123" in
  token.Verify examples.Efwd v
    (token.v1Prefix +:+ token.v2Prefix +:+ cases.happyPayload)
  = token.Verify examples.Efwd v (token.v1Prefix +:+ cases.happyPayload)
  ∧ token.v1Prefix +:+ cases.happyPayload
    = token.Token_ examples.happyToken.
Proof.
  split; [|vm_compute; reflexivity].
  apply (Verify_strips_a_second_prefix examples.Efwd
           (examples.verifier "c123") cases.happyPayload).
  - vm_compute. reflexivity.
  - vm_compute. lia.
Defined.

(** ** The language of the host pattern *)
Module regexp_facts.
Import strings strings_facts regexp.

Lemma append_eq_nil (s1 s2 : string) :
  s1 +:+ s2 = EmptyString → s1 = EmptyString ∧ s2 = EmptyString.
Proof. by destruct s1. Qed.

Lemma nullable_matches (r : regex) :
  nullable r = true ↔ matches r EmptyString.
Proof.
  split.
  - induction r as [| |rs|r1 IH1 r2 IH2|r1 IH1 r2 IH2|r IH]; cbn [nullable];
      try done.
    + intros _. constructor.
    + intros [H1 H2]%andb_prop.
      apply (matches_cat r1 r2 EmptyString EmptyString); auto.
    + intros [H|H]%orb_prop; [apply matches_alt_l|apply matches_alt_r]; auto.
    + intros _. constructor.
  - intros H. remember EmptyString as s eqn:Hs.
    induction H as [|rs a Ha|r1 r2 s1 s2 _ IH1 _ IH2|r1 r2 s _ IH
                   |r1 r2 s _ IH| |r s1 s2 _ _ _ _]; cbn [nullable];
      try done.
    + apply append_eq_nil in Hs as [-> ->]. by rewrite IH1, IH2.
    + by rewrite IH.
    + rewrite IH by done. apply orb_true_r.
Qed.

Lemma deriv_sound (a : ascii) (r : regex) (s : string) :
  matches (deriv a r) s → matches r (String a s).
Proof.
  revert s.
  induction r as [| |rs|r1 IH1 r2 IH2|r1 IH1 r2 IH2|r IH]; intros s;
    cbn [deriv].
  - inversion 1.
  - inversion 1.
  - destruct (in_class rs a) eqn:Ha; inversion 1; subst. by constructor.
  - assert (Hcat : matches (Cat (deriv a r1) r2) s →
                   matches (Cat r1 r2) (String a s)).
    { inversion 1 as [| |? ? s1 s2 H1 H2| | | |]; subst.
      apply (matches_cat r1 r2 (String a s1) s2); auto. }
    destruct (nullable r1) eqn:Hn; [|exact Hcat].
    inversion 1 as [| | |? ? ? H1|? ? ? H2| |]; subst; [by apply Hcat|].
    apply (matches_cat r1 r2 EmptyString (String a s)); [|by auto].
    by apply nullable_matches.
  - inversion 1; subst; [apply matches_alt_l|apply matches_alt_r]; auto.
  - inversion 1 as [| |? ? s1 s2 H1 H2| | | |]; subst.
    apply (matches_star_cons r (String a s1) s2); auto.
Qed.

Lemma deriv_complete (a : ascii) (r : regex) (s0 s : string) :
  matches r s0 → s0 = String a s → matches (deriv a r) s.
Proof.
  intros H. revert s.
  induction H as [|rs b Hb|r1 r2 s1 s2 H1 IH1 H2 IH2|r1 r2 s0 _ IH
                 |r1 r2 s0 _ IH| |r s1 s2 H1 IH1 H2 IH2]; intros s Hs;
    cbn [deriv]; try done.
  - injection Hs as -> <-. rewrite Hb. constructor.
  - destruct s1 as [|b s1]; cbn in Hs.
    + apply nullable_matches in H1 as ->. apply matches_alt_r. by apply IH2.
    + injection Hs as -> <-.
      assert (matches (Cat (deriv a r1) r2) (s1 +:+ s2))
        by (constructor; auto).
      destruct (nullable r1); [by apply matches_alt_l|done].
  - apply matches_alt_l. by apply IH.
  - apply matches_alt_r. by apply IH.
  - destruct s1 as [|b s1]; cbn in Hs.
    + by apply IH2.
    + injection Hs as -> <-. constructor; auto.
Qed.

(** The matcher accepts exactly the texts the pattern denotes. *)
Lemma MatchString_matches (r : regex) (s : string) :
  MatchString r s = true ↔ matches r s.
Proof.
  revert r. induction s as [|a s IH]; intros r; cbn [MatchString].
  - apply nullable_matches.
  - rewrite IH. split; [apply deriv_sound|].
    intros H. by eapply deriv_complete.
Qed.

Lemma matches_Eps (s : string) : matches Eps s ↔ s = EmptyString.
Proof. split; [by inversion 1|intros ->; constructor]. Qed.

Lemma matches_Lit (a : ascii) (s : string) :
  matches (Lit a) s ↔ s = String a EmptyString.
Proof.
  unfold Lit. split.
  - inversion 1 as [|? b Hb| | | | |]; subst. f_equal.
    cbn in Hb. rewrite orb_false_r in Hb.
    apply andb_prop in Hb as [H1%N.leb_le H2%N.leb_le].
    rewrite <- (ascii_N_embedding a), <- (ascii_N_embedding b).
    f_equal. lia.
  - intros ->. constructor. cbn. by rewrite N.leb_refl.
Qed.

Lemma matches_Cat (r1 r2 : regex) (s : string) :
  matches (Cat r1 r2) s
  ↔ ∃ s1 s2, s = s1 +:+ s2 ∧ matches r1 s1 ∧ matches r2 s2.
Proof.
  split.
  - inversion 1; subst. eauto.
  - intros (s1 & s2 & -> & H1 & H2). by constructor.
Qed.

Lemma matches_Str (t s : string) : matches (Str t) s ↔ s = t.
Proof.
  revert s. induction t as [|a t IH]; intros s; cbn [Str].
  - apply matches_Eps.
  - rewrite matches_Cat. split.
    + intros (s1 & s2 & -> & ->%matches_Lit & ->%IH). done.
    + intros ->. exists (String a EmptyString), t.
      split; [done|]. split; [by apply matches_Lit|by apply IH].
Qed.

Lemma matches_Opt (r : regex) (s : string) :
  matches (Opt r) s ↔ matches r s ∨ s = EmptyString.
Proof.
  unfold Opt. split.
  - inversion 1; subst; [by left|]. right. by apply matches_Eps.
  - intros [H| ->]; [by apply matches_alt_l|].
    apply matches_alt_r. constructor.
Qed.

Lemma matches_Star_Class (rs : list (N * N)) (s : string) :
  matches (Star (Class rs)) s ↔ all (in_class rs) s = true.
Proof.
  split.
  - intros H. remember (Star (Class rs)) as r eqn:Hr.
    induction H as [| | | | | |r s1 s2 H1 _ H2 IH2]; try done.
    injection Hr as ->. inversion H1; subst. cbn [String.append all].
    rewrite IH2 by done. by rewrite andb_true_r.
  - induction s as [|a s IH]; cbn [all]; [constructor|].
    intros [Ha Hs]%andb_prop.
    apply (matches_star_cons (Class rs) (String a EmptyString) s);
      [by constructor|by apply IH].
Qed.

Lemma matches_Plus_Class (rs : list (N * N)) (s : string) :
  matches (Plus (Class rs)) s
  ↔ s ≠ EmptyString ∧ all (in_class rs) s = true.
Proof.
  unfold Plus. rewrite matches_Cat. split.
  - intros (s1 & s2 & -> & H1 & H2%matches_Star_Class).
    inversion H1; subst. cbn [String.append all]. split; [done|].
    by rewrite H2, andb_true_r.
  - intros [Hne Hs]. destruct s as [|a s]; [done|].
    cbn [all] in Hs. apply andb_prop in Hs as [Ha Hs].
    exists (String a EmptyString), s. split; [done|].
    split; [by constructor|by apply matches_Star_Class].
Qed.

Lemma in_class_label (c : ascii) :
  in_class [(97, 122); (49, 57); (45, 45)]%N c = labelByte c.
Proof.
  unfold in_class, labelByte, url.in_range. cbn [existsb].
  rewrite orb_false_r, orb_assoc. f_equal.
  destruct (Ascii.eqb_spec c "-") as [->|Hne]; [done|].
  apply andb_false_iff.
  destruct (N.leb_spec 45 (N_of_ascii c)); [|by left]. right.
  apply N.leb_gt. assert (N_of_ascii c ≠ 45%N); [|lia].
  intros Heq. apply Hne. rewrite <- (ascii_N_embedding c), Heq. done.
Qed.

Lemma all_ext (p q : ascii → bool) (s : string) :
  (∀ c, p c = q c) → all p s = all q s.
Proof.
  intros H. induction s as [|a s IH]; cbn [all]; [done|]. by rewrite H, IH.
Qed.

End regexp_facts.

(** X7: the host check accepts exactly the names [sts.aliyuncs.com] and
    [sts.<label>.aliyuncs.com], each also with [.cn] appended, where the
    label is a non-empty text of lower-case letters, digits from 1 to 9 and
    dashes: no dot, no upper-case letter, no [0], no port. *)
Theorem verifyHost_accepts_exactly (E : token.Env) (v : token.tokenVerifier)
        (host : string) :
  token.verifyHost E v host = None ↔ stsHostName host.
Proof.
  assert (token.verifyHost E v host = None
          ↔ regexp.MatchString token.hostRegexp host = true) as ->.
  { unfold token.verifyHost.
    by destruct (regexp.MatchString token.hostRegexp host). }
  rewrite regexp_facts.MatchString_matches. unfold token.hostRegexp.
  unfold stsHostName. split.
  - intros (s1 & s' & -> & ->%regexp_facts.matches_Str & H)
             %regexp_facts.matches_Cat.
    apply regexp_facts.matches_Cat in H as (label & s'' & -> & Hl & H).
    apply regexp_facts.matches_Cat
      in H as (s3 & tail & -> & ->%regexp_facts.matches_Str & Ht).
    exists label, tail. split; [done|]. split.
    + apply regexp_facts.matches_Opt in Hl as [Hl| ->]; [|by left].
      right. apply regexp_facts.matches_Cat
        in Hl as (d & l & -> & ->%regexp_facts.matches_Lit & Hl).
      apply regexp_facts.matches_Plus_Class in Hl as [Hne Hl].
      exists l. split; [done|]. split; [done|].
      rewrite <- Hl. symmetry. apply regexp_facts.all_ext.
      apply regexp_facts.in_class_label.
    + apply regexp_facts.matches_Opt in Ht as [Ht| ->]; [|by left].
      right. by apply regexp_facts.matches_Str.
  - intros (label & tail & -> & Hl & Ht).
    apply regexp_facts.matches_Cat.
    exists "sts", (label +:+ ".aliyuncs.com" +:+ tail).
    split; [done|]. split; [by apply regexp_facts.matches_Str|].
    apply regexp_facts.matches_Cat. exists label, (".aliyuncs.com" +:+ tail).
    split; [done|]. split.
    + apply regexp_facts.matches_Opt.
      destruct Hl as [->|(l & -> & Hne & Hl)]; [by right|]. left.
      apply regexp_facts.matches_Cat. exists ".", l.
      split; [done|]. split; [by apply regexp_facts.matches_Lit|].
      apply regexp_facts.matches_Plus_Class. split; [done|].
      rewrite <- Hl. apply regexp_facts.all_ext.
      apply regexp_facts.in_class_label.
    + apply regexp_facts.matches_Cat. exists ".aliyuncs.com", tail.
      split; [done|]. split; [by apply regexp_facts.matches_Str|].
      apply regexp_facts.matches_Opt.
      destruct Ht as [->| ->]; [by right|left].
      by apply regexp_facts.matches_Str.
Qed.

(** X8 on the token with a parameter outside the allow-list. *)
Lemma Verify_rejects_bad_parameter_witness :
  ∃ msg,
    token.Verify examples.Efwd (examples.verifier "c123")
      (stsToken "Action=GetCallerIdentity&ClusterId=c123&Attack=1")
    = ([], Err (FormatError msg)).
Proof.
  apply (param_facts.Verify_rejects_bad_parameter examples.Efwd
           (examples.verifier "c123")
           (stsToken "Action=GetCallerIdentity&ClusterId=c123&Attack=1")
           (presignedURL "Action=GetCallerIdentity&ClusterId=c123&Attack=1")
           "Attack" ["1"]).
  - intros l. reflexivity.
  - reflexivity.
  - vm_compute. reflexivity.
  - vm_compute. reflexivity.
  - left. vm_compute. reflexivity.
Defined.

(** X9 on a token for the cluster [c123], verified for [c999]. *)
Lemma Verify_rejects_action_or_cluster_witness :
  ∃ msg,
    token.Verify examples.Efwd (examples.verifier "c999")
      (stsToken "Action=GetCallerIdentity&ClusterId=c123")
    = ([], Err (FormatError msg)).
Proof.
  apply (param_facts.Verify_rejects_action_or_cluster examples.Efwd
           (examples.verifier "c999")
           (stsToken "Action=GetCallerIdentity&ClusterId=c123")
           (presignedURL "Action=GetCallerIdentity&ClusterId=c123")
           "ClusterId" "c123").
  - intros l. reflexivity.
  - reflexivity.
  - vm_compute. reflexivity.
  - apply (bool_decide_unpack _). vm_compute. reflexivity.
  - vm_compute. reflexivity.
  - right. split; [vm_compute; reflexivity|discriminate].
Defined.

(** ** Query keys outside ASCII

    [strings.ToLower] case-maps every rune: the Kelvin sign becomes [k] and
    the capital I with a dot becomes [i], so [Access\u212AeyId] is
    allow-listed as [accesskeyid] and [Act\u0130on] is read as [action];
    bytes that are no UTF-8 come out as U+FFFD. *)
Example ToLower_maps_runes :
  strings.ToLower ("Access" +:+ cases.kelvin +:+ "eyId") = "accesskeyid"
  ∧ token.parameterWhitelist
      (strings.ToLower ("Access" +:+ cases.kelvin +:+ "eyId")) = true
  ∧ strings.ToLower ("Act" +:+ cases.dottedI +:+ "on") = "action"
  ∧ strings.ToLower "AccessKeyId" = "accesskeyid"
  ∧ strings.ToLower (String "195" (String "132" "B"))
    = String "195" (String "164" "b")
  ∧ strings.ToLower (String "255" "A")
    = String "239" (String "191" (String "189" "a")).
Proof. repeat split; vm_compute; reflexivity. Qed.

(** The missed case of C4 with a key outside ASCII: [Action=Evil] next to
    [Act\u0130on=GetCallerIdentity].  The two keys have the same lower-cased
    form, so X9 does not apply; visited in the order of the map, the second
    overwrites the first and the request is sent. *)
Example Verify_reads_keys_outside_ASCII :
  let t := examples.v1Token
             "https://sts.aliyuncs.com/?Action=Evil&Act%C4%B0on=GetCallerIdentity&ClusterId=c123" in
  (∃ u, decodedURL t = Ok u
        ∧ url.Query u !! "Action" = Some ["Evil"]
        ∧ url.Query u !! ("Act" +:+ cases.dottedI +:+ "on")
          = Some ["GetCallerIdentity"]
        ∧ ¬ NoDup (strings.ToLower <$> (map_to_list (url.Query u)).*1))
  ∧ length (token.Verify examples.Efwd (examples.verifier "c123") t).1 = 1
  ∧ ∃ id, (token.Verify examples.Efwd (examples.verifier "c123") t).2 = Ok id.
Proof.
  intros t. split; [|split].
  - exists (presignedURL
              "Action=Evil&Act%C4%B0on=GetCallerIdentity&ClusterId=c123").
    split; [vm_compute; reflexivity|].
    split; [vm_compute; reflexivity|].
    split; [vm_compute; reflexivity|].
    intros Hnd. apply (bool_decide_pack _) in Hnd. vm_compute in Hnd.
    exact Hnd.
  - vm_compute. reflexivity.
  - destruct (token.Verify examples.Efwd (examples.verifier "c123") t).2
      as [id|] eqn:Hid; [by exists id|].
    vm_compute in Hid. discriminate.
Qed.

(** X10: for a token of the generator (access key id and cluster id made
    of letters, digits and [-_.~]) that is at most 4096 bytes long, the one
    request [Verify] sends is a GET of the configured endpoint with path
    [/], whose raw query is byte for byte the query the generator wrote,
    signature included, with the headers [Accept] and [User-Agent]. *)
Theorem Verify_replays_the_signed_query
        (G : token.GenEnv) (E : token.Env) (g : token.generator)
        (v : token.tokenVerifier) (stsClient : token.Client)
        (clusterID : string)
        (accessKey accessSecret securityToken : option string) :
  token.range_fair E →
  token.GetAccessKeyId (token.Credential_ stsClient) = Ok accessKey →
  token.GetAccessKeySecret (token.Credential_ stsClient) = Ok accessSecret →
  token.GetSecurityToken (token.Credential_ stsClient) = Ok securityToken →
  strings.all unreserved (token.StringValue accessKey) = true →
  strings.all unreserved clusterID = true →
  token.clusterID v = clusterID →
  ∃ tok sig,
    let query :=
      token.queryStr G clusterID (token.StringValue accessKey)
        (token.StringValue securityToken)
        +:+ "&Signature=" +:+ url.QueryEscape sig in
    token.GetWithSTS G g clusterID stsClient = Ok tok
    ∧ token.Token_ tok = stsToken query
    ∧ (String.length (token.Token_ tok) ≤ token.maxTokenLenBytes →
       (token.Verify E v (token.Token_ tok)).1 = [replay E v query]).
Proof.
  intros Hfair Hak Hsecret Hst Hakc Hcidc Hv.
  unfold token.GetWithSTS. rewrite Hak, Hsecret, Hst.
  rewrite roundtrip_facts.ParseQuery_queryStr by done.
  eexists _, (token.signature (token.StringValue accessSecret) _).
  lazy zeta. split; [reflexivity|].
  lazy beta iota delta [token.Token_].
  set (sig := token.signature _ _).
  change (token.getCallerIdentityURL
            (token.queryStr G clusterID (token.StringValue accessKey)
               (token.StringValue securityToken)) sig)
    with (token.stsHost +:+ "?"
            +:+ signedQuery G clusterID (token.StringValue accessKey)
                  (token.StringValue securityToken) sig).
  split; [reflexivity|]. intros Hlen.
  pose proof (token_facts.parseToken_signed G E v clusterID
                (token.StringValue accessKey)
                (token.StringValue securityToken) sig
                Hfair Hakc Hcidc Hv Hlen) as Hparse.
  unfold token.Verify. rewrite Hparse. reflexivity.
Qed.

(** The happy-path run. *)
Lemma Verify_replays_the_signed_query_witness :
  ∃ tok sig,
    let query :=
      token.queryStr (examples.G "") "c123" "LTAI5txxxxxxxxxxxxxxxxxx" ""
        +:+ "&Signature=" +:+ url.QueryEscape sig in
    token.GetWithSTS (examples.G "") examples.g "c123"
      (examples.stsClient "LTAI5txxxxxxxxxxxxxxxxxx" "") = Ok tok
    ∧ token.Token_ tok = stsToken query
    ∧ (String.length (token.Token_ tok) ≤ token.maxTokenLenBytes →
       (token.Verify examples.Efwd (examples.verifier "c123")
          (token.Token_ tok)).1
       = [replay examples.Efwd (examples.verifier "c123") query]).
Proof.
  apply (Verify_replays_the_signed_query (examples.G "") examples.Efwd
           examples.g (examples.verifier "c123")
           (examples.stsClient "LTAI5txxxxxxxxxxxxxxxxxx" "") "c123"
           (Some "LTAI5txxxxxxxxxxxxxxxxxx") (Some "secret") (Some ""));
    try reflexivity.
  intros l. reflexivity.
Defined.

(** ** What the verifier sends *)
Module replay_facts.
Import strings strings_facts url url_facts query_facts generator_facts.
Import verifier_facts roundtrip_facts token_facts reject_facts.
Import token.

Lemma Header_Set_replay (E : Env) (v : tokenVerifier) (q : string) :
  Header_Set
    (Header_Set
       (NewRequest "GET" (url.setHost (presignedURL q) (stsEndpoint v)))
       "User-Agent" (userAgentV1 E))
    "accept" "application/json"
  = replay E v q.
Proof. reflexivity. Qed.

Lemma plain_parts (q : string) :
  plain q = true →
  ContainsByte q "#" = false ∧ ContainsByte q "?" = false
  ∧ stringContainsCTLByte q = false.
Proof.
  unfold plain. intros [[H1 H2]%andb_prop H3]%andb_prop.
  by repeat split; apply negb_true_iff.
Qed.

Lemma plain_append (s1 s2 : string) :
  plain (s1 +:+ s2) = plain s1 && plain s2.
Proof.
  unfold plain, stringContainsCTLByte.
  rewrite !ContainsByte_append, any_append.
  destruct (ContainsByte s1 "#"), (ContainsByte s1 "?"), (any isCTL s1),
    (ContainsByte s2 "#"), (ContainsByte s2 "?"), (any isCTL s2); done.
Qed.

(** [url.Parse] on the URL of STS with a query that has no [#], no [?]
    and no control character. *)
Lemma Parse_sts (q : string) :
  q ≠ EmptyString → plain q = true →
  url.Parse (stsHost +:+ "?" +:+ q) = Ok (presignedURL q).
Proof.
  intros Hne (Hhash & Hqm & Hctl)%plain_parts.
  unfold url.Parse.
  rewrite Cut_none
    by (rewrite !ContainsByte_append, Hhash; reflexivity).
  change (String.eqb "" "") with true. cbn beta iota.
  unfold url.parse.
  assert (stringContainsCTLByte (stsHost +:+ "?" +:+ q) = false) as ->.
  { unfold stringContainsCTLByte. rewrite !any_append.
    fold (stringContainsCTLByte q). rewrite Hctl. reflexivity. }
  assert (String.eqb (stsHost +:+ "?" +:+ q) "*" = false) as ->
    by reflexivity.
  assert (getScheme true (stsHost +:+ "?" +:+ q)
          = HasScheme "https" ("//sts.aliyuncs.com/" +:+ "?" +:+ q)) as ->
    by reflexivity.
  assert (HasSuffixByte ("//sts.aliyuncs.com/" +:+ "?" +:+ q) "?" = false)
    as ->.
  { rewrite <- append_assoc. by apply HasSuffixByte_append_none. }
  cbn [andb].
  assert (Cut ("//sts.aliyuncs.com/" +:+ "?" +:+ q) "?"
          = ("//sts.aliyuncs.com/", q, true)) as ->
    by (change ("?" +:+ q) with (String "?" q); by rewrite Cut_append).
  reflexivity.
Qed.

Lemma parseToken_sts (E : Env) (v : tokenVerifier) (q : string) :
  q ≠ EmptyString → plain q = true →
  String.length (stsToken q) ≤ maxTokenLenBytes →
  parseToken E v (stsToken q)
  = match checked E v (ParseQuery q).1 with
    | Err err => Err err
    | Ok accessKeyId =>
        Ok (accessKeyId,
            Header_Set
              (NewRequest "GET"
                 (url.setHost (presignedURL q) (stsEndpoint v)))
              "User-Agent" (userAgentV1 E))
    end.
Proof.
  intros Hne Hq Hlen. unfold stsToken in *.
  rewrite parseToken_v1 by apply HasPrefix_append.
  rewrite (proj2 (Nat.ltb_ge _ _) Hlen).
  rewrite TrimPrefix_append, TrimPrefix_payload.
  rewrite base64_facts.DecodeString_EncodeToString.
  unfold parseV1Token. rewrite Parse_sts by done.
  unfold presignedURL at 1 2 3 4. unfold url.setHost at 1 2.
  cbn [url.Scheme url.Host url.Path url.RawQuery].
  change (String.eqb "https" "https") with true. cbn [negb].
  assert (verifyHost E v "sts.aliyuncs.com" = None) as -> by reflexivity.
  change (String.eqb "/" "/") with true. cbn [negb].
  unfold url.Query, checked. cbn [url.RawQuery].
  destruct (checkParams E _ ∅) as [lowered|]; [|done].
  destruct (negb (String.eqb (url.Get lowered "action") _)); [done|].
  by destruct (verifyClusterID v _).
Qed.

Lemma Split_snoc (q seg : string) (c : ascii) :
  ContainsByte seg c = false →
  Split (q +:+ String c seg) c = Split q c ++ [seg].
Proof.
  intros Hseg. induction q as [|a q IH].
  - cbn [String.append Split]. unfold byte_eqb. rewrite Ascii.eqb_refl.
    by rewrite Split_none.
  - cbn [String.append Split]. rewrite IH.
    destruct (byte_eqb a c); [done|].
    pose proof (Split_length q c). by destruct (Split q c).
Qed.

Lemma parsePair_undecodable (m : Values) (err : option error)
      (seg : string) :
  undecodable seg = true → (parsePair (m, err) seg).1 = m.
Proof.
  unfold undecodable, parsePair. intros H.
  destruct (ContainsByte seg ";"); [done|].
  destruct (String.eqb seg EmptyString); [done|].
  destruct (Cut seg "=") as [[key value] found]. cbn [fst snd orb] in H.
  destruct (QueryUnescape key); [|done].
  by destruct (QueryUnescape value).
Qed.

(** [ParseQuery] leaves out a last segment it cannot decode. *)
Lemma ParseQuery_undecodable (q seg : string) :
  ContainsByte seg "&" = false → undecodable seg = true →
  (ParseQuery (q +:+ "&" +:+ seg)).1 = (ParseQuery q).1.
Proof.
  intros Hamp Hseg. unfold ParseQuery.
  change ("&" +:+ seg) with (String "&" seg).
  rewrite Split_snoc, foldl_app by done. cbn [foldl].
  destruct (foldl parsePair (∅, None) (Split q "&")) as [m err].
  by apply parsePair_undecodable.
Qed.

End replay_facts.

(** X11: the checks of [Verify] look at the parameters [url.Query]
    decodes, and the request carries the raw query.  A segment of the query
    that cannot be decoded (it holds a semicolon or a malformed escape) is
    therefore not checked at all: a v1 token that passes still passes with
    such a segment appended, whatever its key, and the segment is sent to
    STS with the rest. *)
Theorem Verify_does_not_check_undecodable_segments
        (E : token.Env) (v : token.tokenVerifier)
        (query seg accessKeyId : string) (req : token.Request) :
  query ≠ EmptyString → plain query = true → plain seg = true →
  strings.ContainsByte seg "&" = false →
  undecodable seg = true →
  String.length (stsToken (query +:+ "&" +:+ seg))
  ≤ token.maxTokenLenBytes →
  token.parseToken E v (stsToken query) = Ok (accessKeyId, req) →
  ∃ req',
    token.parseToken E v (stsToken (query +:+ "&" +:+ seg))
    = Ok (accessKeyId, req')
    ∧ (token.Verify E v (stsToken (query +:+ "&" +:+ seg))).1
      = [replay E v (query +:+ "&" +:+ seg)].
Proof.
  intros Hne Hq Hseg Hamp Hun Hlen Hp.
  assert (Hne' : query +:+ "&" +:+ seg ≠ EmptyString) by (by destruct query).
  assert (Hq' : plain (query +:+ "&" +:+ seg) = true).
  { rewrite !replay_facts.plain_append, Hq, Hseg. reflexivity. }
  assert (Hlen0 : String.length (stsToken query) ≤ token.maxTokenLenBytes).
  { unfold token.parseToken in Hp.
    destruct (Nat.ltb_spec token.maxTokenLenBytes
                (String.length (stsToken query))); [done|lia]. }
  rewrite replay_facts.parseToken_sts in Hp by done.
  unfold token.Verify.
  rewrite (replay_facts.parseToken_sts E v (query +:+ "&" +:+ seg)) by done.
  rewrite replay_facts.ParseQuery_undecodable by done.
  destruct (checked E v (url.ParseQuery query).1) as [ak|];
    [|done].
  injection Hp as -> _. eexists. split; [reflexivity|].
  cbn [fst]. by rewrite replay_facts.Header_Set_replay.
Qed.

(** A token that passes, with the segment [Evil=1;] appended: the key is
    not in the allow-list, and the request carries it. *)
Lemma Verify_does_not_check_undecodable_segments_witness :
  token.parameterWhitelist (strings.ToLower "Evil") = false
  ∧ (token.Verify examples.Efwd (examples.verifier "c123")
       (stsToken "Action=GetCallerIdentity&ClusterId=c123&Evil=1;")).1
    = [replay examples.Efwd (examples.verifier "c123")
         "Action=GetCallerIdentity&ClusterId=c123&Evil=1;"].
Proof.
  split; [vm_compute; reflexivity|].
  destruct (token.parseToken examples.Efwd (examples.verifier "c123")
              (stsToken "Action=GetCallerIdentity&ClusterId=c123"))
    as [[ak req]|] eqn:Hp; [|vm_compute in Hp; discriminate].
  assert (Hlen : String.length
                   (stsToken
                      ("Action=GetCallerIdentity&ClusterId=c123"
                         +:+ "&" +:+ "Evil=1;"))
                 ≤ token.maxTokenLenBytes) by (vm_compute; lia).
  destruct (Verify_does_not_check_undecodable_segments examples.Efwd
              (examples.verifier "c123")
              "Action=GetCallerIdentity&ClusterId=c123" "Evil=1;" ak req
              ltac:(discriminate) ltac:(vm_compute; reflexivity)
              ltac:(vm_compute; reflexivity) ltac:(vm_compute; reflexivity)
              ltac:(vm_compute; reflexivity) Hlen Hp)
    as (req' & _ & H).
  exact H.
Defined.

(** ** What a request of the verifier stands for *)
Module passed_facts.
Import strings strings_facts verifier_facts reject_facts.
Import token.

(** When the loop runs to its end, every entry it visited was allow-listed
    and single-valued. *)
Lemma checkParams_passed (E : Env) (l : list (string * list string))
      (acc lowered : url.Values) :
  checkParams E l acc = Ok lowered →
  Forall (fun kv => parameterWhitelist (ToLower kv.1) = true
                    ∧ length kv.2 = 1) l.
Proof.
  revert acc. induction l as [|[k vs] l IH]; intros acc; [by constructor|].
  cbn [checkParams].
  destruct (parameterWhitelist (ToLower k)) eqn:Hw; cbn [negb]; [|done].
  destruct (Nat.eqb_spec (length vs) 1) as [Hl|Hl]; cbn [negb]; [|done].
  intros H. constructor; [done|]. by eapply IH.
Qed.

(** A value found in the lower-cased map was there at the start or was
    stored for a visited key with that lower-cased form. *)
Lemma lowerStep_origin (l : list (string * list string)) (acc : url.Values)
      (x : string) (vs : list string) :
  foldl lowerStep acc l !! x = Some vs →
  acc !! x = Some vs
  ∨ ∃ k vs', (k, vs') ∈ l ∧ ToLower k = x ∧ vs = [hd EmptyString vs'].
Proof.
  revert acc. induction l as [|[k vs'] l IH]; intros acc; [by left|].
  cbn [foldl]. intros [H|(k0 & vs0 & Hin & Hk & Hv)]%IH.
  - unfold lowerStep, url.Set_ in H. cbn [fst snd] in H.
    destruct (decide (ToLower k = x)) as [Hk|Hk].
    + rewrite Hk, lookup_insert_eq in H. injection H as <-.
      right. exists k, vs'. split; [apply list_elem_of_here|done].
    + rewrite lookup_insert_ne in H by done. by left.
  - right. exists k0, vs0. split; [by apply list_elem_of_further|done].
Qed.

(** A non-empty value read from the lower-cased map of a loop that ran to
    its end is the single value of a visited key. *)
Lemma Get_origin (E : Env) (l : list (string * list string))
      (lowered : url.Values) (x value : string) :
  checkParams E l ∅ = Ok lowered →
  url.Get lowered x = value → value ≠ EmptyString →
  ∃ k, (k, [value]) ∈ l ∧ ToLower k = x.
Proof.
  intros Hc Hget Hne.
  pose proof (checkParams_passed _ _ _ _ Hc) as Hall.
  apply checkParams_Ok in Hc as ->. unfold url.Get in Hget.
  destruct (foldl lowerStep ∅ l !! x) as [[|v rest]|] eqn:Hx;
    try (by subst value).
  apply lowerStep_origin in Hx as [Hx|(k & vs' & Hin & Hk & Hv)].
  { by rewrite lookup_empty in Hx. }
  injection Hv as -> ->. subst value. exists k. split; [|done].
  rewrite Forall_forall in Hall. destruct (Hall _ Hin) as [_ Hlen].
  cbn [snd] in Hlen. by destruct vs' as [|v [|]].
Qed.

End passed_facts.

(** X30: every request [Verify] sends for a v1 token stands for a URL that
    passed the checks: its scheme is [https] and its path [/]; every
    parameter [url.Query] decodes from it is allow-listed in lower case and
    has one value; some parameter whose key is [action] in lower case has
    the value [GetCallerIdentity]; and, when the verifier has a cluster id,
    some parameter whose key is [clusterid] in lower case has that cluster
    id as its value. *)
Theorem Verify_sends_only_checked_queries
        (E : token.Env) (v : token.tokenVerifier) (token_ : string)
        (req : token.Request) :
  token.range_fair E →
  strings.HasPrefix token_ token.v1Prefix = true →
  req ∈ (token.Verify E v token_).1 →
  ∃ u,
    decodedURL token_ = Ok u
    ∧ url.Scheme u = "https" ∧ url.Path u = "/"
    ∧ (∀ k vs, url.Query u !! k = Some vs →
               token.parameterWhitelist (strings.ToLower k) = true
               ∧ length vs = 1)
    ∧ (∃ k, strings.ToLower k = "action"
            ∧ url.Query u !! k = Some ["GetCallerIdentity"])
    ∧ (token.clusterID v ≠ EmptyString →
       ∃ k, strings.ToLower k = "clusterid"
            ∧ url.Query u !! k = Some [token.clusterID v]).
Proof.
  intros Hfair H1. unfold token.Verify, decodedURL.
  rewrite reject_facts.parseToken_v1 by done.
  destruct (token.maxTokenLenBytes <? String.length token_)%nat.
  { by intros ?%not_elem_of_nil. }
  destruct (base64.DecodeString _) as [tokenBytes|].
  2:{ by intros ?%not_elem_of_nil. }
  destruct (token.parseV1Token E v tokenBytes) as [[ak req0]|] eqn:Hp.
  2:{ by intros ?%not_elem_of_nil. }
  intros _. unfold token.parseV1Token in Hp.
  destruct (url.Parse tokenBytes) as [u|]; [|done]. exists u.
  destruct (String.eqb_spec (url.Scheme u) "https") as [Hs|]; [|done].
  cbn [negb] in Hp.
  destruct (token.verifyHost E v (url.Host u)); [done|].
  change (url.Path (url.setHost u (token.stsEndpoint v)))
    with (url.Path u) in Hp.
  destruct (String.eqb_spec (url.Path u) "/") as [Hpath|]; [|done].
  cbn [negb] in Hp.
  change (url.Query (url.setHost u (token.stsEndpoint v)))
    with (url.Query u) in Hp.
  set (l := token.range_order E (map_to_list (url.Query u))) in *.
  assert (Hl : ∀ k vs, (k, vs) ∈ l ↔ url.Query u !! k = Some vs).
  { intros k vs. unfold l. rewrite (Hfair _). apply elem_of_map_to_list. }
  destruct (token.checkParams E l ∅) as [lowered|] eqn:Hc; [|done].
  destruct (String.eqb_spec (url.Get lowered "action") "GetCallerIdentity")
    as [Ha|]; [|done].
  cbn [negb] in Hp.
  destruct (token.verifyClusterID v _) as [e|] eqn:Hv; [done|].
  split; [done|]. split; [done|]. split; [done|]. split; [|split].
  - intros k vs Hk%Hl.
    pose proof (passed_facts.checkParams_passed _ _ _ _ Hc) as Hall.
    rewrite Forall_forall in Hall. exact (Hall _ Hk).
  - destruct (passed_facts.Get_origin E l lowered "action"
                "GetCallerIdentity" Hc Ha) as (k & Hin & Hk); [done|].
    exists k. split; [done|]. by apply Hl.
  - intros Hne. unfold token.verifyClusterID in Hv.
    destruct (String.eqb_spec (token.clusterID v)
                (url.Get lowered "clusterid")) as [Hcid|]; [|done].
    destruct (passed_facts.Get_origin E l lowered "clusterid"
                (token.clusterID v) Hc (eq_sym Hcid) Hne) as (k & Hin & Hk).
    exists k. split; [done|]. by apply Hl.
Qed.

(** The request sent for the happy-path token. *)
Lemma Verify_sends_only_checked_queries_witness :
  ∃ req u,
    (token.Verify examples.Efwd (examples.verifier "c123")
       (token.Token_ examples.happyToken)).1 = [req]
    ∧ decodedURL (token.Token_ examples.happyToken) = Ok u
    ∧ url.Scheme u = "https" ∧ url.Path u = "/"
    ∧ (∃ k, strings.ToLower k = "action"
            ∧ url.Query u !! k = Some ["GetCallerIdentity"])
    ∧ ∃ k, strings.ToLower k = "clusterid"
           ∧ url.Query u !! k = Some ["c123"].
Proof.
  destruct (token.Verify examples.Efwd (examples.verifier "c123")
              (token.Token_ examples.happyToken)).1 as [|req [|]] eqn:Hsent;
    [vm_compute in Hsent; discriminate| |vm_compute in Hsent; discriminate].
  destruct (Verify_sends_only_checked_queries examples.Efwd
              (examples.verifier "c123") (token.Token_ examples.happyToken)
              req ltac:(intros l; reflexivity) eq_refl)
    as (u & Hu & Hs & Hp & _ & Ha & Hc).
  { rewrite Hsent. apply list_elem_of_here. }
  exists req, u. repeat (split; [done|]). apply Hc. discriminate.
Defined.

(** ** The generator: lengths and failures *)
Module generator_extra.
Import strings strings_facts url url_facts.

Lemma length_be_bytes (n : nat) (x : N) : length (sha1.be_bytes n x) = n.
Proof.
  revert x. induction n as [|n IH]; intros x; cbn [sha1.be_bytes]; [done|].
  rewrite length_app, IH. cbn [length]. lia.
Qed.

Lemma length_string_of (l : list N) :
  String.length (sha1.string_of l) = length l.
Proof. induction l as [|x l IH]; cbn; [done|by rewrite IH]. Qed.

(** A SHA-1 digest has twenty bytes. *)
Lemma length_Sum (msg : string) : String.length (sha1.Sum msg) = 20.
Proof.
  unfold sha1.Sum.
  destruct (sha1.blocks _ _ _) as [[[[h0 h1] h2] h3] h4].
  by rewrite length_string_of, !length_app, !length_be_bytes.
Qed.

Lemma length_signature (accessSecret : string) (queryParams : Values) :
  String.length (token.signature accessSecret queryParams) = 28.
Proof.
  unfold token.signature, hmac.SumSHA1. lazy zeta.
  by rewrite base64_facts.length_EncodeToString, length_Sum.
Qed.

Lemma parseDigits_nondigit (s : string) (acc : N) :
  any (fun c => negb (isdigit c)) s = true → strconv.parseDigits s acc = None.
Proof.
  revert acc. induction s as [|c s IH]; intros acc; [done|].
  cbn [any strconv.parseDigits]. unfold isdigit, in_range at 1.
  destruct ((48 <=? N_of_ascii c)%N && (N_of_ascii c <=? 57)%N); [|done].
  cbn [negb orb]. apply IH.
Qed.

(** [strconv.Atoi] fails on a text with a byte after the first that is
    not a digit. *)
Lemma Atoi_nondigit (s : string) :
  any (fun c => negb (isdigit c)) (drop 1 s) = true →
  ∃ err, strconv.Atoi s = Err err.
Proof.
  destruct s as [|c r]; [done|]. cbn [drop]. intros Hr.
  unfold strconv.Atoi.
  assert (Hr0 : strconv.parseDigits r 0 = None)
    by (by apply parseDigits_nondigit).
  assert (Hs0 : strconv.parseDigits (String c r) 0 = None).
  { cbn [strconv.parseDigits].
    destruct (_ && _); [by apply parseDigits_nondigit|done]. }
  destruct (Ascii.eqb c "-"); [|destruct (Ascii.eqb c "+")];
    cbn beta iota zeta.
  - destruct r; [by eauto|]. rewrite Hr0. by eauto.
  - destruct r; [by eauto|]. rewrite Hr0. by eauto.
  - rewrite Hs0. by eauto.
Qed.

Lemma any_Split (p : ascii → bool) (s : string) (sep : ascii) :
  p sep = false → any p s = true →
  Exists (fun seg => any p seg = true) (Split s sep).
Proof.
  intros Hsep. induction s as [|a s IH]; [done|].
  cbn [any Split]. destruct (byte_eqb a sep) eqn:Ha.
  - apply byte_eqb_eq in Ha as ->. rewrite Hsep. cbn [orb].
    intros H. apply Exists_cons_tl. by apply IH.
  - destruct (p a) eqn:Hpa; cbn [orb].
    + intros _. destruct (Split s sep); apply Exists_cons_hd; cbn [any];
        by rewrite Hpa.
    + intros H. specialize (IH H).
      destruct (Split s sep) as [|x r]; [by apply Exists_nil in IH|].
      apply Exists_cons in IH as [Hx|Hr].
      * apply Exists_cons_hd. cbn [any]. by rewrite Hx, orb_true_r.
      * by apply Exists_cons_tl.
Qed.

Lemma parsePair_semicolon_kept (m : Values) (seg : string) :
  ∃ m', parsePair (m, Some semicolonError) seg = (m', Some semicolonError).
Proof.
  unfold parsePair. destruct (ContainsByte seg ";"); [by eauto|].
  destruct (String.eqb seg EmptyString); [by eauto|].
  destruct (Cut seg "=") as [[key value] found].
  destruct (QueryUnescape key); [|by eauto].
  destruct (QueryUnescape value); by eauto.
Qed.

Lemma foldl_parsePair_semicolon_kept (segs : list string) (m : Values) :
  (foldl parsePair (m, Some semicolonError) segs).2 = Some semicolonError.
Proof.
  revert m. induction segs as [|seg segs IH]; intros m; [done|].
  cbn [foldl]. destruct (parsePair_semicolon_kept m seg) as [m' ->].
  apply IH.
Qed.

Lemma foldl_parsePair_semicolon (segs : list string)
      (st : Values * option error) :
  Exists (fun seg => ContainsByte seg ";" = true) segs →
  (foldl parsePair st segs).2 = Some semicolonError.
Proof.
  intros H. revert st. induction H as [seg segs Hseg|seg segs _ IH];
    intros [m err]; cbn [foldl]; [|apply IH].
  unfold parsePair at 2. rewrite Hseg. apply foldl_parsePair_semicolon_kept.
Qed.

(** [ParseQuery] reports a semicolon anywhere in the query. *)
Lemma ParseQuery_semicolon (q : string) :
  ContainsByte q ";" = true → (ParseQuery q).2 = Some semicolonError.
Proof.
  intros H. unfold ParseQuery. apply foldl_parsePair_semicolon.
  by apply (any_Split (byte_eqb ";") q "&").
Qed.

End generator_extra.

(** X12: the token of a successful [GetWithSTS] is 11 bytes of prefix and
    four bytes for every three bytes of the presigned URL, rounded up; the
    signature in that URL is the 28-character base64 text of a 20-byte
    digest.  The token is within the 4096 bytes the verifier accepts exactly
    when the presigned URL is at most 3063 bytes long. *)
Theorem GetWithSTS_token_length (G : token.GenEnv) (g : token.generator)
        (clusterID : string) (stsClient : token.Client) (tok : token.Token) :
  token.GetWithSTS G g clusterID stsClient = Ok tok →
  ∃ query sig,
    let presigned := token.getCallerIdentityURL query sig in
    token.Token_ tok = token.v1Prefix +:+ base64.EncodeToString presigned
    ∧ String.length sig = 28
    ∧ String.length (token.Token_ tok)
      = 11 + 4 * ((String.length presigned + 2) / 3)
    ∧ (String.length (token.Token_ tok) ≤ token.maxTokenLenBytes
       ↔ String.length presigned ≤ 3063).
Proof.
  unfold token.GetWithSTS.
  destruct (token.GetAccessKeyId _) as [ak|]; [|done].
  destruct (token.GetAccessKeySecret _) as [secret|]; [|done].
  destruct (token.GetSecurityToken _) as [st|]; [|done].
  destruct (url.ParseQuery _) as [queryParams [err|]]; [done|].
  intros Hsts%Ok_inj. subst tok.
  lazy beta iota delta [token.Token_].
  eexists _, (token.signature (token.StringValue secret) queryParams).
  lazy zeta. split; [reflexivity|].
  split; [apply generator_extra.length_signature|].
  rewrite strings_facts.length_append, base64_facts.length_EncodeToString.
  change (String.length token.v1Prefix) with 11.
  change token.maxTokenLenBytes with 4096.
  set (n := String.length _). split; [reflexivity|].
  pose proof (Nat.div_mod_eq (n + 2) 3).
  pose proof (Nat.mod_upper_bound (n + 2) 3). lia.
Qed.

(** The happy-path token has 423 bytes for a URL of 309 bytes. *)
Lemma GetWithSTS_token_length_witness :
  ∃ query sig,
    let presigned := token.getCallerIdentityURL query sig in
    token.Token_ examples.happyToken
    = token.v1Prefix +:+ base64.EncodeToString presigned
    ∧ String.length sig = 28
    ∧ String.length (token.Token_ examples.happyToken)
      = 11 + 4 * ((String.length presigned + 2) / 3)
    ∧ (String.length (token.Token_ examples.happyToken)
       ≤ token.maxTokenLenBytes
       ↔ String.length presigned ≤ 3063).
Proof.
  apply (GetWithSTS_token_length (examples.G "") examples.g "c123"
           (examples.stsClient "LTAI5txxxxxxxxxxxxxxxxxx" "")).
  vm_compute. reflexivity.
Defined.

(** X13: the endpoint of the STS client does not reach the token:
    [GetWithSTS] writes the host [sts.aliyuncs.com] whatever the endpoint
    and the protocol of its client, and without a role to assume and
    without the credential cache [GetWithOptions] returns for every region
    what [Get] returns. *)
Theorem GetWithOptions_ignores_the_region_without_a_role
        (G : token.GenEnv) (g : token.generator) (region clusterID : string) :
  token.cache g = false →
  (∀ endpoint protocol stsClient,
     token.GetWithSTS G g clusterID
       {| token.Endpoint := endpoint; token.Protocol := protocol;
          token.Credential_ := token.Credential_ stsClient |}
     = token.GetWithSTS G g clusterID stsClient)
  ∧ token.GetWithOptions G g
      {| token.Region := region; token.ClusterID := clusterID;
         token.AssumeRoleARN := "" |}
    = token.Get G g clusterID.
Proof.
  intros Hcache. split; [reflexivity|].
  unfold token.Get, token.GetWithRole, token.GetWithOptions.
  cbn [token.ClusterID token.AssumeRoleARN String.eqb negb].
  destruct (String.eqb clusterID ""); [done|].
  destruct (token.NewCredential G None) as [cred|]; [|done].
  unfold token.newClient. by rewrite Hcache.
Qed.

(** The happy-path run, asked for the region [cn-beijing]. *)
Lemma GetWithOptions_ignores_the_region_without_a_role_witness :
  token.GetWithOptions (examples.G "") examples.g
    {| token.Region := "cn-beijing"; token.ClusterID := "c123";
       token.AssumeRoleARN := "" |}
  = token.Get (examples.G "") examples.g "c123".
Proof.
  exact (proj2 (GetWithOptions_ignores_the_region_without_a_role
                  (examples.G "") examples.g "cn-beijing" "c123" eq_refl)).
Defined.

(** X14: when a role is to be assumed, [GetWithOptions] reads the
    expiration of the assumed credentials with [strconv.Atoi]; if that text
    has, after its first byte, a byte that is not a digit (a timestamp such
    as [2015-04-09T11:52:19Z]), no token is returned but the error
    [failed to parse assumed credential expiration]. *)
Theorem GetWithOptions_role_needs_integer_expiration
        (G : token.GenEnv) (g : token.generator)
        (options : token.GetTokenOptions) (cred : token.Credential)
        (assumeRes : token.AssumeRoleCredentials) :
  token.ClusterID options ≠ EmptyString →
  token.AssumeRoleARN options ≠ EmptyString →
  token.NewCredential G None = Ok cred →
  token.AssumeRole G (token.newClient G g options cred)
    {| token.RoleArn := token.AssumeRoleARN options;
       token.RoleSessionName :=
         token.defaultRoleSessionName +:+ "-"
           +:+ strconv.Itoa (token.nowSession G) |}
  = Ok assumeRes →
  strings.any (fun c => negb (url.isdigit c))
    (strings.drop 1 (token.StringValue (token.rExpiration assumeRes)))
  = true →
  ∃ msg,
    token.GetWithOptions G g options
    = Err (ErrorString
             ("failed to parse assumed credential expiration "
                +:+ token.StringValue (token.rExpiration assumeRes)
                +:+ ", err " +:+ msg)).
Proof.
  intros Hcid Hrole Hcred Hassume Hexp. unfold token.GetWithOptions.
  apply String.eqb_neq in Hcid as ->. apply String.eqb_neq in Hrole as ->.
  rewrite Hcred. cbn [negb]. rewrite Hassume.
  destruct (generator_extra.Atoi_nondigit _ Hexp) as [err ->]. by eauto.
Qed.

(** STS answering with the timestamp [2015-04-09T11:52:19Z]. *)
Lemma GetWithOptions_role_needs_integer_expiration_witness :
  ∃ msg,
    token.GetWithOptions cases.Grole examples.g cases.roleOptions
    = Err (ErrorString
             ("failed to parse assumed credential expiration "
                +:+ "2015-04-09T11:52:19Z" +:+ ", err " +:+ msg)).
Proof.
  refine (GetWithOptions_role_needs_integer_expiration cases.Grole examples.g
            cases.roleOptions
            (examples.credential "LTAI5txxxxxxxxxxxxxxxxxx" "")
            {| token.rAccessKeyId := Some "STS.NTxxxxxxxxxxxxxxxx";
               token.rAccessKeySecret := Some "secret2";
               token.rSecurityToken := Some "CAIS";
               token.rExpiration := Some "2015-04-09T11:52:19Z" |}
            _ _ eq_refl eq_refl eq_refl); discriminate.
Defined.

(** X15: [GetWithSTS] writes the access key id and the cluster id into
    the query as they are and parses the query back; when either holds a
    semicolon no token is returned but the error of [url.ParseQuery]. *)
Theorem GetWithSTS_rejects_semicolons
        (G : token.GenEnv) (g : token.generator) (stsClient : token.Client)
        (clusterID : string)
        (accessKey accessSecret securityToken : option string) :
  token.GetAccessKeyId (token.Credential_ stsClient) = Ok accessKey →
  token.GetAccessKeySecret (token.Credential_ stsClient) = Ok accessSecret →
  token.GetSecurityToken (token.Credential_ stsClient) = Ok securityToken →
  strings.ContainsByte clusterID ";" = true
  ∨ strings.ContainsByte (token.StringValue accessKey) ";" = true →
  token.GetWithSTS G g clusterID stsClient = Err url.semicolonError.
Proof.
  intros Hak Hsecret Hst Hsemi. unfold token.GetWithSTS.
  rewrite Hak, Hsecret, Hst.
  assert (Hq : strings.ContainsByte
                 (token.queryStr G clusterID (token.StringValue accessKey)
                    (token.StringValue securityToken)) ";" = true).
  { unfold token.queryStr. rewrite !strings_facts.ContainsByte_append.
    destruct Hsemi as [-> | ->]; cbn [orb]; by rewrite ?orb_true_r. }
  apply generator_extra.ParseQuery_semicolon in Hq.
  destruct (url.ParseQuery _) as [queryParams [err|]]; [|done].
  cbn [snd] in Hq. by injection Hq as ->.
Qed.

(** A cluster id with a semicolon. *)
Lemma GetWithSTS_rejects_semicolons_witness :
  token.GetWithSTS (examples.G "") examples.g "c123;c456"
    (examples.stsClient "LTAI5txxxxxxxxxxxxxxxxxx" "")
  = Err url.semicolonError.
Proof.
  apply (GetWithSTS_rejects_semicolons (examples.G "") examples.g
           (examples.stsClient "LTAI5txxxxxxxxxxxxxxxxxx" "") "c123;c456"
           (Some "LTAI5txxxxxxxxxxxxxxxxxx") (Some "secret") (Some ""));
    try reflexivity.
  left. reflexivity.
Defined.

(** X16: [NewVerifier] binds the verifier to the cluster id it is given
    and to the endpoint of the region, the VPC endpoint exactly when a
    region is given; every request its [Verify] sends for a v1 token goes to
    that endpoint.  Its client uses a transport whose number of idle
    connections per host is the value of [STS_MAX_IDLE_CONNS_PER_HOST]
    whenever that is an integer above 1, and 5 in every other case (the
    variable is no integer, or one that is at most 1); so it is never below
    2. *)
Theorem NewVerifier_settings (V : token.VerifierEnv)
        (region clusterID : string) :
  let v := token.NewVerifier V region clusterID in
  let endpoint :=
    token.GetSTSEndpoint V region (negb (String.eqb region EmptyString)) in
  let idle := token.MaxIdleConnsPerHost (token.newTransport V) in
  token.getClusterID v = clusterID
  ∧ token.stsEndpoint v = endpoint
  ∧ (∀ E token_ req,
       strings.HasPrefix token_ token.v1Prefix = true →
       req ∈ (token.Verify E v token_).1 →
       url.Host (token.URL req) = endpoint)
  ∧ token.client v = token.httpDo V (token.newTransport V)
  ∧ (∀ n, strconv.Atoi (token.envMaxIdleConnsPerHost V) = Ok n →
          (1 < n)%Z → idle = n)
  ∧ ((∀ n, strconv.Atoi (token.envMaxIdleConnsPerHost V) = Ok n →
           (n ≤ 1)%Z) →
     idle = 5%Z)
  ∧ (2 ≤ idle)%Z.
Proof.
  intros v endpoint idle.
  assert (Hend : token.stsEndpoint v = endpoint).
  { unfold v, endpoint, token.NewVerifier. cbn [token.stsEndpoint].
    by destruct (String.eqb region ""). }
  split; [reflexivity|]. split; [exact Hend|]. split.
  - intros E token_ req H1. unfold token.Verify.
    rewrite reject_facts.parseToken_v1 by done.
    destruct (token.maxTokenLenBytes <? String.length token_)%nat.
    { by intros ?%not_elem_of_nil. }
    destruct (base64.DecodeString _) as [tokenBytes|].
    2:{ by intros ?%not_elem_of_nil. }
    destruct (token.parseV1Token E v tokenBytes) as [[ak req0]|] eqn:Hp.
    2:{ by intros ?%not_elem_of_nil. }
    apply reject_facts.parseV1Token_Ok in Hp as (u & _ & _ & _ & _ & ->).
    cbn [fst]. intros ->%list_elem_of_singleton. exact Hend.
  - split; [reflexivity|]. unfold idle, token.newTransport.
    destruct (strconv.Atoi _) as [n|e]; cbn.
    + destruct (Z.ltb_spec 1 n) as [Hn|Hn]; cbn.
      * split; [by intros ? [= <-] _|]. split; [|lia].
        intros Hall. specialize (Hall n eq_refl). lia.
      * split; [intros ? [= <-] ?; lia|]. split; [done|lia].
    + split; [by intros ? [=]|]. split; [done|lia].
Qed.

(** A verifier for the region [cn-hangzhou] and one without a region, with
    the variable set to [20]. *)
Example NewVerifier_example :
  token.stsEndpoint (token.NewVerifier cases.V "cn-hangzhou" "c123")
  = "sts-vpc.cn-hangzhou.aliyuncs.com"
  ∧ token.stsEndpoint (token.NewVerifier cases.V "" "c123")
    = "sts.aliyuncs.com"
  ∧ token.MaxIdleConnsPerHost (token.newTransport cases.V) = 20%Z.
Proof. repeat split; vm_compute; reflexivity. Qed.

(** ** The map store of the dynamic file *)
Module store_facts.
Import dynamicfile.

(** What is found under a key after the entries of a list were stored
    one after the other, each under its own key. *)
Lemma foldl_insert_lookup {A} (key : A → string) (l : list A)
      (m0 : gmap string A) (k : string) :
  foldl (fun m y => <[key y := y]> m) m0 l !! k
  = match last (filter (fun y => key y = k) l) with
    | Some y => Some y
    | None => m0 !! k
    end.
Proof.
  revert m0. induction l as [|x l IH]; intros m0; [done|].
  cbn [foldl]. rewrite IH, filter_cons.
  destruct (decide (key x = k)) as [Hk|Hk].
  - rewrite last_cons.
    destruct (last (filter _ l)); [done|]. rewrite <- Hk.
    apply lookup_insert_eq.
  - destruct (last (filter _ l)); [done|]. by apply lookup_insert_ne.
Qed.

Lemma foldl_union_elem_of (l : list string) (s0 : gset string) (x : string) :
  x ∈ foldl (fun (s : gset string) a => {[a]} ∪ s) s0 l ↔ x ∈ l ∨ x ∈ s0.
Proof.
  revert s0. induction l as [|a l IH]; intros s0; cbn [foldl].
  - set_solver.
  - rewrite IH. set_solver.
Qed.

Lemma saveMap_nil (E : Env) (ms : DynamicFileMapStore) (k : string) :
  UserMapping (saveMap E ms [] [] []) k = Err UserNotFound
  ∧ RoleMapping (saveMap E ms [] [] []) k = Err RoleNotFound
  ∧ AliAccount (saveMap E ms [] [] []) k = false.
Proof. done. Qed.

End store_facts.

(** X17: [waitUntilFileAvailable] polls as long as [os.Stat] says that
    the file does not exist, and returns with the first other answer: [nil]
    when the file is there, the error of [os.Stat] otherwise. *)
Theorem waitUntilFileAvailable_returns_the_first_answer
        (E : dynamicfile.Env) (k fuel n : nat) :
  (∀ i, i < k → dynamicfile.stat E (n + i) = dynamicfile.StatNotExist) →
  (fuel ≤ k → dynamicfile.waitUntilFileAvailable E fuel n = None)
  ∧ (k < fuel →
     dynamicfile.stat E (n + k) ≠ dynamicfile.StatNotExist →
     dynamicfile.waitUntilFileAvailable E fuel n
     = Some match dynamicfile.stat E (n + k) with
            | dynamicfile.StatErr err => Some err
            | _ => None
            end).
Proof.
  revert fuel n. induction k as [|k IH]; intros fuel n Hbefore.
  - split.
    + intros Hfuel. by assert (fuel = 0) as -> by lia.
    + intros Hfuel Hk. destruct fuel as [|fuel]; [lia|].
      cbn [dynamicfile.waitUntilFileAvailable].
      rewrite Nat.add_0_r in *. by destruct (dynamicfile.stat E n).
  - assert (H0 : dynamicfile.stat E n = dynamicfile.StatNotExist).
    { rewrite <- (Nat.add_0_r n). apply Hbefore. lia. }
    assert (Hnext : ∀ i, i < k →
              dynamicfile.stat E (S n + i) = dynamicfile.StatNotExist).
    { intros i Hi. rewrite Nat.add_succ_comm. apply Hbefore. lia. }
    destruct fuel as [|fuel]; [split; [done|lia]|].
    cbn [dynamicfile.waitUntilFileAvailable]. rewrite H0.
    destruct (IH fuel (S n) Hnext) as [IH1 IH2]. split.
    + intros Hfuel. apply IH1. lia.
    + intros Hfuel. rewrite <- Nat.add_succ_comm. apply IH2. lia.
Qed.

(** A file that appears at the third poll: two polls are not enough,
    three are. *)
Lemma waitUntilFileAvailable_returns_the_first_answer_witness :
  dynamicfile.waitUntilFileAvailable cases.Elate 2 0 = None
  ∧ dynamicfile.waitUntilFileAvailable cases.Elate 3 0 = Some None.
Proof.
  assert (H : ∀ i, i < 2 →
            dynamicfile.stat cases.Elate (0 + i) = dynamicfile.StatNotExist).
  { intros [|[|i]] Hi; (reflexivity || lia). }
  split.
  - apply (waitUntilFileAvailable_returns_the_first_answer
             cases.Elate 2 2 0 H). lia.
  - apply (waitUntilFileAvailable_returns_the_first_answer
             cases.Elate 2 3 0 H); [lia|discriminate].
Defined.

(** X18: [loadDynamicFile] changes the map store only when it returns no
    error: on any error (of [os.Stat], of reading, of decoding, or entries
    without an ARN) the store is left as it was, and without error the three
    maps are the ones [saveMap] builds from the result of [ParseMap], for
    the same file name. *)
Theorem loadDynamicFile_changes_the_store_only_on_success
        (E : dynamicfile.Env) (fuel : nat)
        (m m' : dynamicfile.DynamicFileMapStore) (err : option error) :
  dynamicfile.loadDynamicFile E fuel m = Some (m', err) →
  match err with
  | Some _ => m' = m
  | None =>
      ∃ userMappings roleMappings aliAccounts,
        dynamicfile.ParseMap E
        = (userMappings, roleMappings, aliAccounts, None)
        ∧ m' = dynamicfile.saveMap E m userMappings roleMappings aliAccounts
        ∧ dynamicfile.filename m' = dynamicfile.filename m
  end.
Proof.
  unfold dynamicfile.loadDynamicFile.
  destruct (dynamicfile.waitUntilFileAvailable E fuel 0) as [[e|]|];
    [by intros [= <- <-]| |done].
  destruct (dynamicfile.ParseMap E) as [[[us rs] accts] [e|]].
  - by intros [= <- <-].
  - intros [= <- <-]. by exists us, rs, accts.
Qed.

(** The file with an entry without [userarn], loaded over a store that
    holds a mapping: the mapping stays. *)
Lemma loadDynamicFile_changes_the_store_only_on_success_witness :
  ∃ err,
    dynamicfile.loadDynamicFile file_examples.E 1 cases.loaded
    = Some (cases.loaded, Some err).
Proof.
  destruct (dynamicfile.loadDynamicFile file_examples.E 1 cases.loaded)
    as [[m' [err|]]|] eqn:Hload;
    [|vm_compute in Hload; discriminate..].
  exists err.
  by rewrite (loadDynamicFile_changes_the_store_only_on_success
                file_examples.E 1 cases.loaded m' (Some err) Hload).
Defined.

(** X19: a mapping file that is there but empty is not an error: the
    decoder fails on it, [ParseMap] returns no mappings and no error, and
    [loadDynamicFile] replaces the store by an empty one, in which no user,
    role or account is found. *)
Theorem loadDynamicFile_empty_file_clears_the_store
        (E : dynamicfile.Env) (fuel k : nat)
        (m : dynamicfile.DynamicFileMapStore) (err : error) :
  (∀ i, i < k → dynamicfile.stat E i = dynamicfile.StatNotExist) →
  dynamicfile.stat E k = dynamicfile.StatOk →
  k < fuel →
  dynamicfile.ReadFile E = Ok EmptyString →
  dynamicfile.json_Unmarshal E EmptyString = Err err →
  ∃ m',
    dynamicfile.loadDynamicFile E fuel m = Some (m', None)
    ∧ ∀ key,
        dynamicfile.UserMapping m' key = Err dynamicfile.UserNotFound
        ∧ dynamicfile.RoleMapping m' key = Err dynamicfile.RoleNotFound
        ∧ dynamicfile.AliAccount m' key = false.
Proof.
  intros Hbefore Hk Hfuel Hread Hjson.
  unfold dynamicfile.loadDynamicFile.
  rewrite (file_facts.waitUntilFileAvailable_found E k fuel 0) by done.
  unfold dynamicfile.ParseMap. rewrite Hread, Hjson.
  cbn [String.length Nat.eqb].
  eexists. split; [reflexivity|]. apply store_facts.saveMap_nil.
Qed.

(** The store with the mapping of alice, and the file emptied. *)
Lemma loadDynamicFile_empty_file_clears_the_store_witness :
  dynamicfile.UserMapping cases.loaded "acs:ram::111122223333:user/alice"
  = Ok file_examples.alice
  ∧ ∃ m',
      dynamicfile.loadDynamicFile cases.Eempty 1 cases.loaded
      = Some (m', None)
      ∧ ∀ key,
          dynamicfile.UserMapping m' key = Err dynamicfile.UserNotFound
          ∧ dynamicfile.RoleMapping m' key = Err dynamicfile.RoleNotFound
          ∧ dynamicfile.AliAccount m' key = false.
Proof.
  split; [vm_compute; reflexivity|].
  apply (loadDynamicFile_empty_file_clears_the_store cases.Eempty 1 0
           cases.loaded (ErrorString "unexpected end of JSON input"));
    try reflexivity; [|lia].
  intros i Hi. lia.
Defined.

(** X20: after [saveMap], a key resolves to the last of the given user
    mappings whose lower-cased ARN canonicalizes to that key, and to
    [UserNotFound] when there is none; likewise for the role mappings.
    Nothing of what the store held before survives. *)
Theorem saveMap_resolves_the_last_entry
        (E : dynamicfile.Env) (ms : dynamicfile.DynamicFileMapStore)
        (userMappings : list config.UserMapping)
        (roleMappings : list config.RoleMapping)
        (aliAccounts : list string) (key : string) :
  let ms' := dynamicfile.saveMap E ms userMappings roleMappings aliAccounts in
  dynamicfile.UserMapping ms' key
  = match last (filter (fun u => userKey E u = key) userMappings) with
    | Some user => Ok user
    | None => Err dynamicfile.UserNotFound
    end
  ∧ dynamicfile.RoleMapping ms' key
    = match last (filter (fun r => roleKey E r = key) roleMappings) with
      | Some role => Ok role
      | None => Err dynamicfile.RoleNotFound
      end.
Proof.
  intros ms'. unfold dynamicfile.UserMapping, dynamicfile.RoleMapping, ms'.
  cbn [dynamicfile.saveMap dynamicfile.users dynamicfile.roles].
  rewrite (store_facts.foldl_insert_lookup (userKey E)).
  rewrite (store_facts.foldl_insert_lookup (roleKey E)).
  rewrite !lookup_empty. split.
  - by destruct (last (filter _ userMappings)).
  - by destruct (last (filter _ roleMappings)).
Qed.

(** X21: after [saveMap], [AliAccount] holds exactly for the account ids
    of the given list, whatever the store held before. *)
Theorem saveMap_allows_exactly_the_listed_accounts
        (E : dynamicfile.Env) (ms : dynamicfile.DynamicFileMapStore)
        (userMappings : list config.UserMapping)
        (roleMappings : list config.RoleMapping)
        (aliAccounts : list string) (id : string) :
  dynamicfile.AliAccount
    (dynamicfile.saveMap E ms userMappings roleMappings aliAccounts) id
  = bool_decide (id ∈ aliAccounts).
Proof.
  unfold dynamicfile.AliAccount.
  cbn [dynamicfile.saveMap dynamicfile.aliAccounts].
  apply bool_decide_ext. rewrite store_facts.foldl_union_elem_of.
  set_solver.
Qed.

(** X22: in the watch loop of [startLoadDynamicFile], an event that is
    neither a write nor a create but a remove or a rename ends the turn of
    the loop; the store is emptied when [os.Stat] then says that the file
    does not exist, and left as it is otherwise.  An event that is none of
    the four (a chmod), and an error of the watcher, change nothing and the
    loop goes on. *)
Theorem watchStep_empties_the_store_when_the_file_is_gone
        (E : dynamicfile.Env) (fuel : nat)
        (m : dynamicfile.DynamicFileMapStore) (op : N) :
  fsnotify.has op fsnotify.Write = false →
  fsnotify.has op fsnotify.Create = false →
  (if fsnotify.has op fsnotify.Rename || fsnotify.has op fsnotify.Remove
   then
     match dynamicfile.stat E 0 with
     | dynamicfile.StatNotExist =>
         ∃ m',
           dynamicfile.watchStep E fuel m (dynamicfile.Event op)
           = Some (m', false)
           ∧ ∀ key,
               dynamicfile.UserMapping m' key
               = Err dynamicfile.UserNotFound
               ∧ dynamicfile.RoleMapping m' key
                 = Err dynamicfile.RoleNotFound
               ∧ dynamicfile.AliAccount m' key = false
     | _ =>
         dynamicfile.watchStep E fuel m (dynamicfile.Event op)
         = Some (m, false)
     end
   else
     dynamicfile.watchStep E fuel m (dynamicfile.Event op) = Some (m, true))
  ∧ ∀ err,
      dynamicfile.watchStep E fuel m (dynamicfile.WatchError err)
      = Some (m, true).
Proof.
  intros Hw Hc. split; [|done]. unfold dynamicfile.watchStep.
  rewrite Hw, Hc. cbn [orb].
  destruct (fsnotify.has op fsnotify.Rename
            || fsnotify.has op fsnotify.Remove); [|done].
  destruct (dynamicfile.stat E 0); try done.
  eexists. split; [reflexivity|]. apply store_facts.saveMap_nil.
Qed.

(** A remove event when the file is gone, on the store with the mapping of
    alice; and a chmod event. *)
Lemma watchStep_empties_the_store_when_the_file_is_gone_witness :
  (∃ m',
     dynamicfile.watchStep cases.Egone 1 cases.loaded
       (dynamicfile.Event fsnotify.Remove) = Some (m', false)
     ∧ ∀ key,
         dynamicfile.UserMapping m' key = Err dynamicfile.UserNotFound
         ∧ dynamicfile.RoleMapping m' key = Err dynamicfile.RoleNotFound
         ∧ dynamicfile.AliAccount m' key = false)
  ∧ dynamicfile.watchStep cases.Egone 1 cases.loaded
      (dynamicfile.Event fsnotify.Chmod) = Some (cases.loaded, true).
Proof.
  split.
  - exact (proj1 (watchStep_empties_the_store_when_the_file_is_gone
                    cases.Egone 1 cases.loaded fsnotify.Remove
                    eq_refl eq_refl)).
  - exact (proj1 (watchStep_empties_the_store_when_the_file_is_gone
                    cases.Egone 1 cases.loaded fsnotify.Chmod
                    eq_refl eq_refl)).
Defined.

(** ** The wildcard cache of the controller *)
Module controller_facts.
Import controller.

Lemma keepWild_lookup (w : WildMappingMap)
      (l : list v1alpha1.RAMIdentityMapping) (acc : WildMappingMap)
      (k : string) :
  foldl (keepWild w) acc l !! k
  = if existsb
         (fun mapping =>
            hasWildDedinedInMappingArn
              (v1alpha1.CanonicalARN (v1alpha1.Status mapping))
            && String.eqb (v1alpha1.Name mapping) k) l
    then match w !! k with Some x => Some x | None => acc !! k end
    else acc !! k.
Proof.
  revert acc. induction l as [|m l IH]; intros acc; [done|].
  cbn [foldl existsb]. rewrite IH. unfold keepWild.
  destruct (hasWildDedinedInMappingArn _) eqn:Hw; cbn [negb andb orb];
    [|done].
  destruct (String.eqb_spec (v1alpha1.Name m) k) as [Heq|Hne]; cbn [orb].
  - subst k. destruct (w !! v1alpha1.Name m) as [cached|] eqn:Hc.
    + rewrite lookup_insert_eq. by destruct (existsb _ l).
    + by destruct (existsb _ l).
  - destruct (w !! v1alpha1.Name m); [|done].
    by rewrite lookup_insert_ne.
Qed.

(** What [removeWildMapping] stores: the cached entries whose name is
    listed with a wildcard. *)
Lemma removeWildMapping_Some (c : Controller) (w : WildMappingMap) :
  WildMappingCache c = Some w →
  ∃ w', removeWildMapping c = Ok (withCache c w')
        ∧ ∀ name,
            w' !! name = if listedWild c name then w !! name else None.
Proof.
  intros Hc. exists (foldl (keepWild w) ∅ (List_ c)). split.
  - unfold removeWildMapping. by rewrite Hc.
  - intros name. rewrite keepWild_lookup. unfold listedWild.
    destruct (existsb _ (List_ c)); [|done]. by destruct (w !! name).
Qed.

(** When the lister holds every resource under its name, a name is listed
    with a wildcard when the resource of that name has one. *)
Lemma listedWild_byName (c : Controller) (name : string) :
  listedByName c →
  listedWild c name
  = match ramMappingLister c !! name with
    | Some r =>
        hasWildDedinedInMappingArn
          (v1alpha1.CanonicalARN (v1alpha1.Status r))
    | None => false
    end.
Proof.
  intros Hby. unfold listedWild.
  destruct (existsb _ (List_ c)) eqn:Hex.
  - apply existsb_exists in Hex as (x & Hx & [Hw Hn]%andb_prop).
    apply list_elem_of_In, list_elem_of_fmap in Hx as ([k x'] & -> & Hx).
    apply elem_of_map_to_list in Hx. cbn [snd] in *.
    apply String.eqb_eq in Hn. rewrite (Hby _ _ Hx) in Hn. subst k.
    by rewrite Hx.
  - destruct (ramMappingLister c !! name) as [r|] eqn:Hr; [|done].
    destruct (hasWildDedinedInMappingArn _) eqn:Hw; [|done].
    assert (existsb
              (fun mapping =>
                 hasWildDedinedInMappingArn
                   (v1alpha1.CanonicalARN (v1alpha1.Status mapping))
                 && String.eqb (v1alpha1.Name mapping) name) (List_ c)
            = true) as Htrue; [|congruence].
    apply existsb_exists. exists r. split.
    + apply list_elem_of_In. unfold List_.
      apply (list_elem_of_fmap_2' snd _ (name, r)); [|done].
      by apply elem_of_map_to_list.
    + by rewrite Hw, (Hby _ _ Hr), String.eqb_refl.
Qed.

Lemma syncHandler_synced (E : Env) (c : Controller) (key : string) :
  synced E c key (syncHandler E c key).1 (syncHandler E c key).2.
Proof.
  unfold syncHandler.
  destruct (SplitMetaNamespaceKey key) as [name|] eqn:Hkey;
    [|apply synced_skip; intros ?; by rewrite Hkey].
  destruct (ramMappingLister c !! name) as [r|] eqn:Hr.
  2:{ apply synced_skip. intros ?. rewrite Hkey. by intros [= <-]. }
  destruct (String.eqb_spec (v1alpha1.ARN (v1alpha1.Spec r)) "") as [Ha|Ha];
    cbn [negb].
  { by eapply synced_no_arn. }
  destruct (Canonicalize E _) as [carn [err|]] eqn:Hcan.
  { by eapply synced_invalid. }
  destruct (UpdateStatus E _) as [err|] eqn:Hup.
  { by eapply synced_refused. }
  destruct (hasWildDedinedInMappingArn carn) eqn:Hw.
  2:{ by eapply synced_plain. }
  cbn [WildMappingCache].
  destruct (WildMappingCache c) as [w|] eqn:Hc.
  - change (v1alpha1.Name (setCanonicalARN r carn)) with (v1alpha1.Name r).
    by eapply synced_wild.
  - replace {| ramMappingLister := ramMappingLister c;
               WildMappingCache := None;
               statusUpdates := statusUpdates c ++ [setCanonicalARN r carn];
               events := events c |}
      with (updated c (setCanonicalARN r carn))
      by (unfold updated; by rewrite Hc).
    by eapply synced_unstored.
Qed.

End controller_facts.

(** X23: the wildcard cache is well kept throughout: [Run] stores an
    empty cache, and [syncHandler] and [removeWildMapping] each leave every
    entry stored under the name of its resource, with a wildcard in its
    canonical ARN, when they found the cache so. *)
Theorem wildcard_cache_stays_well_kept (E : controller.Env)
        (c : controller.Controller) (key : string) :
  wildCacheOk (controller.storeEmptyCache c)
  ∧ (wildCacheOk c → wildCacheOk (controller.syncHandler E c key).1)
  ∧ (wildCacheOk c →
     ∀ c', controller.removeWildMapping c = Ok c' → wildCacheOk c').
Proof.
  split; [|split].
  - intros w name r [= <-]. by rewrite lookup_empty.
  - intros Hok.
    destruct (controller_facts.syncHandler_synced E c key)
      as [ | | | | | |name r Hkey Hr Ha carn Hcan Hup Hw w Hc];
      try exact Hok.
    intros w' name' r'. cbn [controller.WildMappingCache].
    intros [= <-].
    destruct (decide (v1alpha1.Name r = name')) as [<-|Hne].
    + rewrite lookup_insert_eq. by intros [= <-].
    + rewrite lookup_insert_ne by done. by apply Hok.
  - intros Hok c' Hrm.
    destruct (controller.WildMappingCache c) as [w|] eqn:Hc.
    2:{ unfold controller.removeWildMapping in Hrm. by rewrite Hc in Hrm. }
    destruct (controller_facts.removeWildMapping_Some c w Hc)
      as (w' & Hrm' & Hw').
    rewrite Hrm' in Hrm. injection Hrm as <-.
    intros w0 name r. cbn [withCache controller.WildMappingCache].
    intros [= <-]. rewrite Hw'.
    destruct (listedWild c name); [|done]. by apply Hok.
Qed.

(** X24: [syncHandler] never takes an entry out of the wildcard cache.
    It leaves the cache as it is, or, when the resource of the key has an
    ARN that canonicalizes to one with [?] or [*] and its status was
    updated, stores the copy with that canonical ARN under the name of the
    resource.  A resource whose ARN no longer has a wildcard keeps the entry
    cached for it earlier. *)
Theorem syncHandler_only_adds_to_the_cache (E : controller.Env)
        (c : controller.Controller) (key : string)
        (w : controller.WildMappingMap) :
  controller.WildMappingCache c = Some w →
  ∃ w',
    controller.WildMappingCache (controller.syncHandler E c key).1 = Some w'
    ∧ (∀ name, is_Some (w !! name) → is_Some (w' !! name))
    ∧ (w' = w
       ∨ ∃ name r carn,
           controller.SplitMetaNamespaceKey key = Ok name
           ∧ controller.ramMappingLister c !! name = Some r
           ∧ controller.Canonicalize E
               (strings.ToLower (v1alpha1.ARN (v1alpha1.Spec r)))
             = (carn, None)
           ∧ controller.hasWildDedinedInMappingArn carn = true
           ∧ (controller.syncHandler E c key).2 = None
           ∧ w' = <[v1alpha1.Name r
                    := controller.setCanonicalARN r carn]> w).
Proof.
  intros Hc.
  destruct (controller_facts.syncHandler_synced E c key)
    as [ | | | | |? ? ? ? ? ? ? ? Hnone
       |name r carn w0 Hkey Hr Ha Hcan Hup Hw Hc0];
    try (exists w; split; [exact Hc|split; [by auto|by left]]).
  rewrite Hc in Hc0. injection Hc0 as <-.
  eexists. split; [reflexivity|]. split.
  - intros name' Hsome.
    destruct (decide (v1alpha1.Name r = name')) as [<-|Hne].
    + rewrite lookup_insert_eq. by eauto.
    + by rewrite lookup_insert_ne.
  - right. by exists name, r, carn.
Qed.

(** The resource [devs], whose ARN ends in [dev-*], synced by the
    controller whose cache is empty. *)
Lemma syncHandler_only_adds_to_the_cache_witness :
  controller.WildMappingCache
    (controller.syncHandler crd_examples.E crd_examples.started "devs").1
  = Some {[ "devs" := cases.devsSynced ]}.
Proof.
  destruct (syncHandler_only_adds_to_the_cache crd_examples.E
              crd_examples.started "devs" ∅ eq_refl) as (w' & Hw' & _ & H).
  rewrite Hw'. f_equal.
  destruct H as [->|(name & r & carn & Hkey & Hr & Hcan & _ & _ & ->)].
  - exfalso. vm_compute in *. discriminate.
  - vm_compute in Hkey. injection Hkey as <-.
    vm_compute in Hr. injection Hr as <-.
    vm_compute in Hcan. injection Hcan as <-. reflexivity.
Defined.

(** X25: a [Synced] event is recorded for a resource exactly when
    [syncHandler] returns no error for it; when it returns an error, no
    event is recorded and the wildcard cache is left as it was. *)
Theorem syncHandler_records_an_event_only_on_success
        (E : controller.Env) (c : controller.Controller) (key : string) :
  let c' := (controller.syncHandler E c key).1 in
  match (controller.syncHandler E c key).2 with
  | Some _ =>
      controller.events c' = controller.events c
      ∧ controller.WildMappingCache c' = controller.WildMappingCache c
  | None =>
      ∀ name r,
        controller.SplitMetaNamespaceKey key = Ok name →
        controller.ramMappingLister c !! name = Some r →
        controller.events c' = controller.events c ++ [v1alpha1.Name r]
  end.
Proof.
  intros c'. unfold c'.
  destruct (controller_facts.syncHandler_synced E c key)
    as [Hskip|name r Hkey Hr _| | |name r carn Hkey Hr _ _ _| 
       |name r carn w Hkey Hr _ _ _ _ _]; try done.
  - intros name r Hkey Hr. by rewrite (Hskip _ Hkey) in Hr.
  - intros name' r'. rewrite Hkey. intros [= <-]. rewrite Hr.
    by intros [= <-].
  - intros name' r'. rewrite Hkey. intros [= <-]. rewrite Hr.
    by intros [= <-].
  - intros name' r'. rewrite Hkey. intros [= <-]. rewrite Hr.
    by intros [= <-].
Qed.

(** The resource [devs] when the status update is refused: the error is
    returned, the update was attempted, no event is recorded and nothing is
    cached. *)
Example syncHandler_refused_update :
  controller.syncHandler cases.Econflict crd_examples.started "devs"
  = (updated crd_examples.started cases.devsSynced,
     Some (ErrorString "conflict")).
Proof. vm_compute. reflexivity. Qed.

(** X26: [removeWildMapping] stores the entries of the wildcard cache
    whose name is that of a listed resource with a wildcard in the canonical
    ARN of its status, and drops the others; it adds nothing, and running
    it again changes nothing.  When no cache has been stored yet (a delete
    event before [Run] stored one), it panics. *)
Theorem removeWildMapping_keeps_listed_wildcards
        (c : controller.Controller) :
  match controller.WildMappingCache c with
  | None =>
      controller.removeWildMapping c = Err (Panic "interface conversion")
  | Some w =>
      ∃ w',
        controller.removeWildMapping c = Ok (withCache c w')
        ∧ (∀ name,
             w' !! name = if listedWild c name then w !! name else None)
        ∧ w' ⊆ w
        ∧ controller.removeWildMapping (withCache c w')
          = Ok (withCache c w')
  end.
Proof.
  destruct (controller.WildMappingCache c) as [w|] eqn:Hc.
  2:{ unfold controller.removeWildMapping. by rewrite Hc. }
  destruct (controller_facts.removeWildMapping_Some c w Hc)
    as (w' & Hrm & Hw').
  exists w'. split; [exact Hrm|]. split; [exact Hw'|]. split.
  - apply map_subseteq_spec. intros name r. rewrite Hw'.
    by destruct (listedWild c name).
  - destruct (controller_facts.removeWildMapping_Some (withCache c w') w'
                eq_refl) as (w'' & -> & Hw'').
    assert (w'' = w') as ->; [|done].
    apply map_eq. intros name. rewrite Hw''.
    change (listedWild (withCache c w') name) with (listedWild c name).
    rewrite Hw'. by destruct (listedWild c name).
Qed.

(** X27: an entry that [syncHandler] has just cached survives a later
    [removeWildMapping] only if the lister already holds the resource with
    a wildcard in the canonical ARN of its status; [syncHandler] itself does
    not change what the lister holds, so a delete event that comes before
    the informer has the updated status drops the entry again. *)
Theorem removeWildMapping_after_syncHandler
        (E : controller.Env) (c : controller.Controller)
        (key name : string) (r : v1alpha1.RAMIdentityMapping)
        (carn : string) (w : controller.WildMappingMap) :
  listedByName c →
  controller.WildMappingCache c = Some w →
  controller.SplitMetaNamespaceKey key = Ok name →
  controller.ramMappingLister c !! name = Some r →
  v1alpha1.ARN (v1alpha1.Spec r) ≠ EmptyString →
  controller.Canonicalize E
    (strings.ToLower (v1alpha1.ARN (v1alpha1.Spec r))) = (carn, None) →
  controller.UpdateStatus E (controller.setCanonicalARN r carn) = None →
  controller.hasWildDedinedInMappingArn carn = true →
  ∃ c1 w1 c2 w2,
    controller.syncHandler E c key = (c1, None)
    ∧ controller.WildMappingCache c1 = Some w1
    ∧ w1 !! name = Some (controller.setCanonicalARN r carn)
    ∧ controller.removeWildMapping c1 = Ok c2
    ∧ controller.WildMappingCache c2 = Some w2
    ∧ w2 !! name
      = if controller.hasWildDedinedInMappingArn
             (v1alpha1.CanonicalARN (v1alpha1.Status r))
        then Some (controller.setCanonicalARN r carn)
        else None.
Proof.
  intros Hby Hc Hkey Hr Ha Hcan Hup Hw.
  assert (Hname : v1alpha1.Name r = name) by (by apply Hby).
  set (copy := controller.setCanonicalARN r carn).
  set (c1 := controller.recordEvent
               (withCache (updated c copy) (<[name := copy]> w)) name).
  assert (Hsync : controller.syncHandler E c key = (c1, None)).
  { unfold controller.syncHandler. rewrite Hkey, Hr.
    apply String.eqb_neq in Ha as ->. cbn [negb].
    rewrite Hcan, Hup, Hw. cbn [controller.WildMappingCache].
    rewrite Hc.
    change (v1alpha1.Name (controller.setCanonicalARN r carn))
      with (v1alpha1.Name r).
    by rewrite Hname. }
  destruct (controller_facts.removeWildMapping_Some c1 (<[name := copy]> w)
              eq_refl) as (w2 & Hrm & Hw2).
  exists c1, (<[name := copy]> w), (withCache c1 w2), w2.
  split; [exact Hsync|]. split; [reflexivity|].
  split; [apply lookup_insert_eq|]. split; [exact Hrm|].
  split; [reflexivity|].
  rewrite Hw2, lookup_insert_eq.
  rewrite (controller_facts.listedWild_byName c1 name) by exact Hby.
  change (controller.ramMappingLister c1) with (controller.ramMappingLister c).
  by rewrite Hr.
Qed.

(** The resource [devs] is cached by the sync and, its status in the
    lister still being empty, dropped by the removal. *)
Lemma removeWildMapping_after_syncHandler_witness :
  ∃ c1 w1 c2 w2,
    controller.syncHandler crd_examples.E crd_examples.started "devs"
    = (c1, None)
    ∧ controller.WildMappingCache c1 = Some w1
    ∧ w1 !! "devs" = Some cases.devsSynced
    ∧ controller.removeWildMapping c1 = Ok c2
    ∧ controller.WildMappingCache c2 = Some w2
    ∧ w2 !! "devs" = None.
Proof.
  refine (removeWildMapping_after_syncHandler crd_examples.E
            crd_examples.started "devs" "devs" crd_examples.devs
            "acs:ram::111122223333:role/dev-*" ∅
            _ eq_refl eq_refl eq_refl _ eq_refl eq_refl eq_refl).
  - intros name r. unfold crd_examples.started.
    cbn [controller.ramMappingLister].
    intros [<- <-]%lookup_singleton_Some. reflexivity.
  - discriminate.
Defined.

(** ** The lookup of the CRD mapper *)
Module crd_facts.
Import strings.

Lemma firstIdentity_fmap (items : list v1alpha1.RAMIdentityMapping) :
  crd.firstIdentity (ObjMapping ∘ Some <$> items) = head items.
Proof. by destruct items. Qed.

(** [Map] over the informer store returns the first stored resource whose
    status holds the lower-cased query, when that is not empty. *)
Lemma Map_storeMapper (c : controller.Controller)
      (items : list v1alpha1.RAMIdentityMapping) (canonicalARN : string) :
  crd.Map (storeMapper c items) canonicalARN
  = match
      List.filter
        (fun r =>
           negb (String.eqb (v1alpha1.CanonicalARN (v1alpha1.Status r))
                            EmptyString)
           && String.eqb (v1alpha1.CanonicalARN (v1alpha1.Status r))
                         (ToLower canonicalARN)) items
    with
    | r :: _ =>
        Ok {| config.IdentityARN := ToLower canonicalARN;
              config.Username := v1alpha1.Username (v1alpha1.Spec r);
              config.Groups := v1alpha1.Groups (v1alpha1.Spec r) |}
    | [] => Err ErrNotMapped
    end.
Proof.
  set (key := ToLower canonicalARN). set (found := List.filter _ items).
  unfold crd.Map, storeMapper.
  cbn [crd.ramMappingsIndex ByIndex controller.storeIndexer]. fold key.
  change (String.eqb "canonicalARN" "canonicalARN") with true. cbn iota.
  assert (Hf : List.filter (controller.indexed key)
                 (ObjMapping ∘ Some <$> items)
               = ObjMapping ∘ Some <$> found).
  { unfold found. induction items as [|r items IH]; [done|].
    cbn [fmap list_fmap List.filter]. unfold controller.indexed at 1.
    cbn [compose controller.IndexRAMIdentityMappingByCanonicalArn].
    destruct (String.eqb_spec
                (v1alpha1.CanonicalARN (v1alpha1.Status r)) "")
      as [He|He]; cbn [negb andb].
    - rewrite bool_decide_eq_false_2 by apply not_elem_of_nil. exact IH.
    - destruct (String.eqb_spec (v1alpha1.CanonicalARN (v1alpha1.Status r))
                  key) as [Hk|Hk].
      + rewrite bool_decide_eq_true_2
          by (rewrite Hk; apply list_elem_of_here).
        cbn [fmap list_fmap]. f_equal. exact IH.
      + rewrite bool_decide_eq_false_2; [exact IH|].
        intros Hin%list_elem_of_singleton. by apply Hk. }
  rewrite Hf. rewrite firstIdentity_fmap.
  by destruct found.
Qed.

End crd_facts.

(** X28: [Map] does not depend on the letter case of the ARN it is asked
    for: it looks up the lower-cased ARN, so two ARNs that are equal in
    lower case get the same answer, and the [IdentityARN] of a mapping it
    returns is the lower-cased query. *)
Theorem Map_ignores_the_case (m : crd.CRDMapper) (canonicalARN : string) :
  crd.Map m (strings.ToLower canonicalARN) = crd.Map m canonicalARN
  ∧ (∀ other,
       strings.ToLower other = strings.ToLower canonicalARN →
       crd.Map m other = crd.Map m canonicalARN)
  ∧ ∀ mapping,
      crd.Map m canonicalARN = Ok mapping →
      config.IdentityARN mapping = strings.ToLower canonicalARN.
Proof.
  split; [|split].
  - unfold crd.Map. by rewrite lower_facts.ToLower_idemp.
  - intros other Heq. unfold crd.Map. by rewrite Heq.
  - intros mapping. unfold crd.Map.
    destruct (ByIndex _ _ _) as [objects|]; [|done].
    destruct (0 <? length objects)%nat; [|done].
    destruct (crd.firstIdentity objects); [|done]. by intros [= <-].
Qed.

(** X29: over the informer store with the [canonicalARN] index, [Map]
    finds a resource by the canonical ARN of its status and by nothing
    else: a mapping it returns has the user name and the groups of a stored
    resource whose status holds the lower-cased query, which is not empty;
    there is an answer whenever such a resource is stored, and [NotMapped]
    otherwise.  A resource whose status has not been written is never
    returned, whatever its [spec.arn]. *)
Theorem Map_finds_resources_by_their_status
        (c : controller.Controller)
        (items : list v1alpha1.RAMIdentityMapping)
        (canonicalARN : string) :
  let key := strings.ToLower canonicalARN in
  let holds (r : v1alpha1.RAMIdentityMapping) :=
    r ∈ items ∧ v1alpha1.CanonicalARN (v1alpha1.Status r) = key
    ∧ key ≠ EmptyString in
  (∀ mapping,
     crd.Map (storeMapper c items) canonicalARN = Ok mapping →
     ∃ r, holds r
          ∧ mapping
            = {| config.IdentityARN := key;
                 config.Username := v1alpha1.Username (v1alpha1.Spec r);
                 config.Groups := v1alpha1.Groups (v1alpha1.Spec r) |})
  ∧ (∀ r, holds r →
          ∃ mapping, crd.Map (storeMapper c items) canonicalARN = Ok mapping)
  ∧ ((∀ r, ¬ holds r) →
     crd.Map (storeMapper c items) canonicalARN = Err ErrNotMapped).
Proof.
  intros key holds. rewrite crd_facts.Map_storeMapper. fold key.
  set (found := List.filter _ items).
  assert (Hfound : ∀ r, r ∈ found ↔ holds r).
  { intros r. unfold found, holds.
    rewrite list_elem_of_In, filter_In, <- list_elem_of_In.
    rewrite andb_true_iff, negb_true_iff, String.eqb_neq, String.eqb_eq.
    split; [intros (Hin & Hne & Heq)|intros (Hin & Heq & Hne)];
      (split; [done|]); split; congruence. }
  split; [|split].
  - intros mapping. destruct found as [|r rest] eqn:Hf; [done|].
    intros [= <-]. exists r. split; [|done].
    apply Hfound. apply list_elem_of_here.
  - intros r Hr%Hfound. destruct found as [|r' rest]; [|by eauto].
    by apply not_elem_of_nil in Hr.
  - intros Hnone. destruct found as [|r rest]; [done|].
    exfalso. apply (Hnone r), Hfound, list_elem_of_here.
Qed.

